(** * open_model_zoo demos: gallery sync script and DeepSpeech pipeline

    A shallow embedding of
    - [demos/python_demos/face_recognition_demo_Azure_IoT/Face_gallery_sync.py]
    - [demos/python_demos/speech_recognition_demo/utils/deep_speech_pipeline.py]
    and the properties of their control flow.

    Conventions.
    - Python methods are computations in a small monad [M S E A]: they read
      and write a state [S] (the object [self], or the local file system),
      emit events [E] (calls to external collaborators, lines printed) and
      either return a value or raise an exception.  State changes and events
      that happened before an exception is raised are kept, as in Python.
    - Exceptions are instances of Python's [Exception]; signals that only
      derive from [BaseException] (KeyboardInterrupt, SystemExit) are not
      modelled.
    - Floating-point numbers are modelled by the rationals they denote.  The
      only arithmetic done on them by the modelled code is the division of an
      integer sample by 2^15, which is exact in binary floating point, and
      products handed over unchanged to external functions. *)

From Stdlib Require Import ZArith QArith String Ascii List Lia DecimalString.
From stdpp Require Import base option list strings gmap.

Local Open Scope string_scope.
Local Open Scope list_scope.

(** ** Python exceptions and results *)

Inductive exn_class :=
  | ValueError
  | TypeError
  | IndexError
  | AssertionError
  | RuntimeError
  | OSError
  | ResourceNotFoundError
  | OtherException (name : string).

Record exn := Exn { exn_cls : exn_class; exn_msg : string }.

Inductive result (A : Type) :=
  | Ok (a : A)
  | Raise (e : exn).
Arguments Ok {A} a.
Arguments Raise {A} e.

Definition is_ResourceNotFoundError (e : exn) : bool :=
  match exn_cls e with ResourceNotFoundError => true | _ => false end.

(** ** The state / event / exception monad *)

Definition M (S E A : Type) : Type := S -> result A * S * list E.

Section Monad.
Context {S E : Type}.

Definition ret {A} (a : A) : M S E A := fun s => (Ok a, s, []).

Definition bind {A B} (m : M S E A) (k : A -> M S E B) : M S E B :=
  fun s =>
    match m s with
    | (Ok a, s1, out1) =>
        match k a s1 with
        | (r, s2, out2) => (r, s2, out1 ++ out2)
        end
    | (Raise e, s1, out1) => (Raise e, s1, out1)
    end.

Definition raise {A} (e : exn) : M S E A := fun s => (Raise e, s, []).

Definition emit (ev : E) : M S E unit := fun s => (Ok tt, s, [ev]).

Definition get : M S E S := fun s => (Ok s, s, []).

Definition put (s : S) : M S E unit := fun _ => (Ok tt, s, []).

(** [try: body except <catches> as e: handler e] *)
Definition try_except {A} (body : M S E A) (catches : exn -> bool)
    (handler : exn -> M S E A) : M S E A :=
  fun s =>
    match body s with
    | (Ok a, s1, out1) => (Ok a, s1, out1)
    | (Raise e, s1, out1) =>
        if catches e then
          match handler e s1 with
          | (r, s2, out2) => (r, s2, out1 ++ out2)
          end
        else (Raise e, s1, out1)
    end.
End Monad.

Notation "'let*' x ':=' c1 'in' c2" := (bind c1 (fun x => c2))
  (at level 10, x name, c1 at level 100, c2 at level 200).
Notation "c1 >> c2" := (bind c1 (fun _ => c2))
  (at level 100, c2 at level 200, right associativity).

(** A Python iterable that yields [items] and then either stops or raises
    (a paged listing of a remote service fails while it is iterated, not
    when it is created). *)
Record iterable (A : Type) := Iterable {
  items : list A;
  failure : option exn;
}.
Arguments Iterable {A} items failure.
Arguments items {A} i.
Arguments failure {A} i.

Section ForLoop.
Context {S E A : Type}.

(** [for x in it: body x] *)
Fixpoint for_items (xs : list A) (stop : option exn) (body : A -> M S E unit)
    : M S E unit :=
  match xs with
  | [] => match stop with
          | None => ret tt
          | Some e => raise e
          end
  | x :: rest => body x >> for_items rest stop body
  end.

Definition for_each (it : iterable A) (body : A -> M S E unit) : M S E unit :=
  for_items (items it) (failure it) body.
End ForLoop.

(** ** posixpath: the string functions of [os.path] the sources use *)

Module posixpath.

Definition slash : ascii := "/"%char.
Definition dot : ascii := "."%char.

(** Splits at the first occurrence of [c]: what is before, what is after. *)
Fixpoint break_at (c : ascii) (l : list ascii)
    : option (list ascii * list ascii) :=
  match l with
  | [] => None
  | x :: r =>
      if Ascii.eqb x c then Some ([], r)
      else match break_at c r with
           | Some (a, b) => Some (x :: a, b)
           | None => None
           end
  end.

(** Splits at the last occurrence of [c]. *)
Definition rbreak_at (c : ascii) (l : list ascii)
    : option (list ascii * list ascii) :=
  match break_at c (rev l) with
  | Some (a, b) => Some (rev b, rev a)
  | None => None
  end.

(** [s.rsplit(c, 1)[0]] *)
Definition rsplit1_head (c : ascii) (s : string) : string :=
  match rbreak_at c (list_ascii_of_string s) with
  | Some (h, _) => string_of_list_ascii h
  | None => s
  end.

Fixpoint lstrip (c : ascii) (l : list ascii) : list ascii :=
  match l with
  | [] => []
  | x :: r => if Ascii.eqb x c then lstrip c r else l
  end.

(** [s.rstrip(c)] *)
Definition rstrip (c : ascii) (l : list ascii) : list ascii :=
  rev (lstrip c (rev l)).

(** [os.path.basename]: what follows the last slash. *)
Definition basename (p : string) : string :=
  match rbreak_at slash (list_ascii_of_string p) with
  | Some (_, t) => string_of_list_ascii t
  | None => p
  end.

(** [os.path.dirname]: the path up to the last slash, without trailing
    slashes unless it consists of slashes only. *)
Definition dirname (p : string) : string :=
  match rbreak_at slash (list_ascii_of_string p) with
  | Some (h, _) =>
      let head := h ++ [slash] in
      match lstrip slash head with
      | [] => string_of_list_ascii head
      | _ => string_of_list_ascii (rstrip slash head)
      end
  | None => ""
  end.

(** [os.path.join a b] *)
Definition join (a b : string) : string :=
  match list_ascii_of_string b with
  | c :: _ =>
      if Ascii.eqb c slash then b
      else match rev (list_ascii_of_string a) with
           | [] => b
           | l :: _ => if Ascii.eqb l slash then a ++ b else a ++ "/" ++ b
           end
  | [] =>
      match rev (list_ascii_of_string a) with
      | [] => b
      | l :: _ => if Ascii.eqb l slash then a ++ b else a ++ "/" ++ b
      end
  end.

(** The components of a path between slashes. *)
Fixpoint split_slash (cur : list ascii) (l : list ascii) : list string :=
  match l with
  | [] => [string_of_list_ascii (rev cur)]
  | x :: r =>
      if Ascii.eqb x slash then string_of_list_ascii (rev cur) :: split_slash [] r
      else split_slash (x :: cur) r
  end.

(** Lexical resolution of the components, as [os.path.normpath] does it:
    empty components and [.] are dropped, [..] steps out of the directory
    reached so far.  [acc] is that directory, innermost component first. *)
Fixpoint walk (acc : list string) (comps : list string) : list string :=
  match comps with
  | [] => rev acc
  | c :: r =>
      if String.eqb c "" then walk acc r
      else if String.eqb c "." then walk acc r
      else if String.eqb c ".." then walk (tail acc) r
      else walk (c :: acc) r
  end.

(** The normal form of a path ([os.path.normpath]), as its components
    from the root.  Relative paths are taken from the root as well. *)
Definition resolve (p : string) : list string :=
  walk [] (split_slash [] (list_ascii_of_string p)).

End posixpath.

(** ** The DeepSpeech pipeline ([deep_speech_pipeline.py]) *)

Module DeepSpeech.

(** *** Arrays and tensors *)

Inductive int_dtype := int8 | int16 | int32 | int64 | uint8 | uint16 | uint32 | uint64.
Inductive float_dtype := float16 | float32 | float64.

(** The samples of a [numpy] array with their dtype: integers for the
    integer dtypes, the rationals they denote for the floating ones. *)
Inductive samples :=
  | IntSamples (dt : int_dtype) (xs : list Z)
  | FloatSamples (dt : float_dtype) (xs : list Q).

(** [audio]: [shape] is [audio.shape], [data] the samples in C order. *)
Record ndarray := NdArray { shape : list nat; data : samples }.

(** [np.issubdtype(audio.dtype, np.integer)] *)
Definition issubdtype_integer (a : ndarray) : bool :=
  match data a with IntSamples _ _ => true | FloatSamples _ _ => false end.

Definition frame := list Q.          (* one row of MFCC coefficients *)
Definition window := list frame.     (* num_context_frames consecutive frames *)
Definition matrix := list (list Q).
Definition lstm_state := (list Q * list Q)%type.   (* (state_h, state_c) *)

(** [np.zeros((1, n))], as the row it holds. *)
Definition zeros (n : nat) : list Q := repeat 0%Q n.

(** *** The inference runtime, the feature functions and the decoder *)

Record IECore := { extensions : list (string * string) }.  (* (path, device) *)
Record Net := { net_model : string; net_weights : string; net_layers : list string }.
Record ExecNet := { exec_network : Net; exec_device : string }.
Record Decoder := {
  dec_alphabet : list string;
  dec_beam_width : nat;
  dec_scorer_lm_fname : option string;
  dec_alpha : Q;
  dec_beta : Q;
}.

(** What one forward pass returns: [res['logits'].squeeze(1)] and the two
    [TensorIterator] outputs. *)
Record infer_result := {
  logits : matrix;
  tensor_iterator_1 : list Q;
  tensor_iterator_2 : list Q;
}.

(** The functions the pipeline calls and this repository part does not
    define: OpenVINO's inference engine, [utils.audio_features],
    [utils.alphabet] and the decoder's [decode].  They are given by what
    they return, as functions of their arguments.  A collaborator that
    raises instead ends the method that called it, and its callers, with
    that exception: no method of the pipeline has a handler.  Such runs
    are not modelled, so a property that says what a method returns or
    raises is about runs in which the collaborators return.  Arrays are
    handed over by their values, without their dtype. *)
Class Collaborators := {
  IECore_new : IECore;
  read_network : IECore -> string -> string -> Net;
  query_network : IECore -> Net -> string -> option string -> list string;
  infer : ExecNet -> list Q -> list Q -> list window -> infer_result;
  audio_spectrogram : list Q -> Q -> Q -> bool -> matrix;
  mfcc : matrix -> Z -> nat -> list frame;
  get_default_alphabet : list string;
  load_alphabet : string -> list string;
  decode : Decoder -> matrix -> list (Q * string);
}.

(** Calls to the collaborators, in the order they are made. *)
Inductive event :=
  | EvAddExtension (path device : string)
  | EvReadNetwork (model weights : string)
  | EvQueryNetwork (device : string)
  | EvLoadNetwork (n : Net) (device : string)
  | EvSpectrogram (audio : list Q) (window_size stride : Q)
  | EvMfcc (spectrogram : matrix) (sampling_rate : Z) (dct_coefs : nat)
  | EvInfer (en : ExecNet) (previous_state_c previous_state_h : list Q)
            (input_node : list window)
  | EvDecode (probs : matrix).

(** *** The object *)

(** model parameters: assigned once in [__init__] and nowhere else *)
Definition num_mfcc_dct_coefs : nat := 26.
Definition num_context_frames : nat := 19.
Definition num_batch_frames : nat := 16.
Definition model_sample_rate : Z := 16000.
Definition frame_window_size_seconds : Q := 32 # 1000.
Definition frame_stride_seconds : Q := 20 # 1000.

Record Pipeline := {
  beam_width : nat;
  alphabet : list string;
  net : option Net;
  exec_net : option ExecNet;
  default_device : option string;
  ie : IECore;
  decoder : Decoder;
}.

Definition set_net (n : Net) (p : Pipeline) : Pipeline :=
  {| beam_width := beam_width p; alphabet := alphabet p; net := Some n;
     exec_net := exec_net p; default_device := default_device p;
     ie := ie p; decoder := decoder p |}.

Definition set_exec_net (en : ExecNet) (p : Pipeline) : Pipeline :=
  {| beam_width := beam_width p; alphabet := alphabet p; net := net p;
     exec_net := Some en; default_device := default_device p;
     ie := ie p; decoder := decoder p |}.

Definition set_ie (i : IECore) (p : Pipeline) : Pipeline :=
  {| beam_width := beam_width p; alphabet := alphabet p; net := net p;
     exec_net := exec_net p; default_device := default_device p;
     ie := i; decoder := decoder p |}.

Definition set_decoder (d : Decoder) (p : Pipeline) : Pipeline :=
  {| beam_width := beam_width p; alphabet := alphabet p; net := net p;
     exec_net := exec_net p; default_device := default_device p;
     ie := ie p; decoder := d |}.

(** Methods run on [self : Pipeline]. *)
Abbreviation Method := (M Pipeline event).

(** [tuple[i]] *)
Definition tuple_index {A} (l : list A) (i : nat) : Method A :=
  match l !! i with
  | Some x => ret x
  | None => raise (Exn IndexError "tuple index out of range")
  end.

(** ["{}".format(n/1e3)] for a rate [0 <= n]: Python prints the shortest
    decimal that reads back as the same float, which for thousandths is
    the decimal expansion without trailing zeros, one digit at least. *)
Definition format_div_1e3 (n : Z) : string :=
  let digit (d : Z) : ascii := ascii_of_nat (48 + Z.to_nat d) in
  let frac := [digit (n mod 1000 / 100)%Z; digit (n mod 100 / 10)%Z; digit (n mod 10)%Z] in
  let frac := match posixpath.rstrip "0"%char frac with
              | [] => ["0"%char]
              | l => l
              end in
  NilZero.string_of_int (Z.to_int (n / 1000)%Z) ++ "." ++ string_of_list_ascii frac.

Definition mono_message : string :=
  "Input audio file should be " ++ format_div_1e3 model_sample_rate ++ " kHz mono".

Definition activation_message : string :=
  "Need to call mds.activate(device) method before mds.stt(...)".

(** [if np.issubdtype(audio.dtype, np.integer): audio = audio/np.float32(32768)]:
    the test on the dtype is the case distinction on the samples. *)
Definition normalize (a : samples) : list Q :=
  match a with
  | IntSamples _ xs => map (fun x => (inject_Z x / inject_Z 32768)%Q) xs
  | FloatSamples _ xs => xs
  end.

(** [np.lib.stride_tricks.as_strided] as it is called: [num_strides]
    overlapping windows of [width] consecutive rows. *)
Definition as_strided (rows : list frame) (num_strides width : nat) : list window :=
  map (fun i => take width (drop i rows)) (seq 0 num_strides).

(** [range(0, stop, step)] *)
Definition range0 (stop step : nat) : list nat :=
  map (fun k => k * step) (seq 0 ((stop + step - 1) / step)).

(** [np.pad(chunk, ((0, n), (0, 0), (0, 0)), mode='constant', constant_values=0)] *)
Definition pad_rows (chunk : list window) (n : nat) : list window :=
  chunk ++ repeat (repeat (zeros num_mfcc_dct_coefs) num_context_frames) n.

(** [padding = np.zeros((num_context_frames // 2, num_mfcc_dct_coefs))] *)
Definition edge_padding : list frame :=
  repeat (zeros num_mfcc_dct_coefs) (num_context_frames / 2).

(** [chunk = mfcc_features[i:i + num_batch_frames]], padded when short *)
Definition chunk_at (mfcc_features : list window) (i : nat) : list window :=
  let chunk := take num_batch_frames (drop i mfcc_features) in
  if (length chunk <? num_batch_frames)%nat
  then pad_rows chunk (num_batch_frames - length chunk)
  else chunk.

(** [np.concatenate] of a list of matrices *)
Definition concatenate (ms : list matrix) : Method matrix :=
  match ms with
  | [] => raise (Exn ValueError "need at least one array to concatenate")
  | _ => ret (concat ms)
  end.

Section Methods.
Context `{Collaborators}.

Definition _check_ir_nodes (device : string) (device_config : option string)
    : Method unit :=
  let* self := get in
  match net self with
  | None => raise (Exn (OtherException "AttributeError")
                       "'NoneType' object has no attribute 'layers'")
  | Some n =>
      emit (EvQueryNetwork device) >>
      let device_supported_layers := query_network (ie self) n device device_config in
      let net_unsupported_layers :=
        filter (fun l => l ∉ device_supported_layers) (net_layers n) in
      if (0 <? length net_unsupported_layers)%nat then
        raise (Exn RuntimeError
          ("Following layers are not supported by the plugin for specified device "
           ++ device ++ ": " ++ String.concat ", " net_unsupported_layers
           ++ ".  Please try to specify IE extension library path with --cpu_extension command line argument"))
      else ret tt
  end.

Definition add_extensions (ie_extensions : list (string * option string))
    : Method unit :=
  for_items ie_extensions None (fun '(extension_device, extension_fname) =>
    match extension_fname with
    | None => ret tt
    | Some fname =>
        let* self := get in
        emit (EvAddExtension fname extension_device) >>
        put (set_ie {| extensions := extensions (ie self) ++ [(fname, extension_device)] |} self)
    end).

Definition _load_net (model_xml_fname : string) (model_bin_fname : option string)
    (ie_extensions : list (string * option string)) (device : option string)
    (device_config : option string) : Method unit :=
  let model_bin_fname :=
    match model_bin_fname with
    | Some f => f
    | None =>
        posixpath.join (posixpath.dirname model_xml_fname)
          (posixpath.rsplit1_head posixpath.dot (posixpath.basename model_xml_fname) ++ ".bin")
    end in
  add_extensions ie_extensions >>
  let* self := get in
  emit (EvReadNetwork model_xml_fname model_bin_fname) >>
  put (set_net (read_network (ie self) model_xml_fname model_bin_fname) self) >>
  match device with
  | Some d => _check_ir_nodes d device_config
  | None => ret tt
  end.

Definition activate_model (device : string) : Method unit :=
  let* self := get in
  match exec_net self with
  | Some _ => ret tt   (* Assuming self.net didn't change *)
  | None =>
      match net self with
      | None =>
          (* not reached after [__init__], which sets [self.net]: the
             engine refuses a missing network *)
          raise (Exn TypeError "load_network: network is None")
      | Some n =>
          emit (EvLoadNetwork n device) >>
          put (set_exec_net {| exec_network := n; exec_device := device |} self)
      end
  end.

Definition extract_mfcc (audio : ndarray) (sampling_rate : Z) : Method (list frame) :=
  let* bad :=
    (if negb (Qle_bool (inject_Z (Z.abs (sampling_rate - model_sample_rate)))
                       (inject_Z model_sample_rate * (1 # 10)))
     then ret true
     else let* channels := tuple_index (shape audio ++ [1%nat]) 1 in
          ret (negb (channels =? 1)%nat)) in
  if (bad : bool) then raise (Exn ValueError mono_message)
  else
    (* the dtype test and the division; reshape(-1, 1) keeps the samples *)
    let audio := normalize (data audio) in
    let window_size := (inject_Z sampling_rate * frame_window_size_seconds)%Q in
    let stride := (inject_Z sampling_rate * frame_stride_seconds)%Q in
    emit (EvSpectrogram audio window_size stride) >>
    let spectrogram := audio_spectrogram audio window_size stride true in
    (* spectrogram.reshape(1, spectrogram.shape[0], -1) *)
    match spectrogram with
    | [] => raise (Exn ValueError "cannot reshape array of size 0 into shape (1,0,newaxis)")
    | _ =>
        emit (EvMfcc spectrogram sampling_rate num_mfcc_dct_coefs) >>
        ret (mfcc spectrogram sampling_rate num_mfcc_dct_coefs)
    end.

(** The loop over [range(0, mfcc_features.shape[0], num_batch_frames)];
    [probs], [state_h] and [state_c] are its local variables. *)
Fixpoint infer_chunks (en : ExecNet) (mfcc_features : list window)
    (starts : list nat) (probs : list matrix) (state_h state_c : list Q)
    : Method (list matrix * lstm_state) :=
  match starts with
  | [] => ret (probs, (state_h, state_c))
  | i :: rest =>
      let chunk := chunk_at mfcc_features i in
      emit (EvInfer en state_c state_h chunk) >>
      let res := infer en state_c state_h chunk in
      infer_chunks en mfcc_features rest (probs ++ [logits res])
        (tensor_iterator_1 res) (tensor_iterator_2 res)
  end.

(** What [extract_per_frame_probs] returns, by [return_state]. *)
Definition probs_result (return_state : bool) : Type :=
  if return_state then (matrix * lstm_state)%type else matrix.

(** [wrap_iterator], a hook for progress bars, is taken at its default,
    the identity. *)
Definition extract_per_frame_probs (mfcc_features : list frame)
    (state : option lstm_state) (return_state : bool)
    : Method (probs_result return_state) :=
  let* self := get in
  match exec_net self with
  | None => raise (Exn AssertionError activation_message)
  | Some en =>
      let padding := edge_padding in
      let mfcc_features := padding ++ mfcc_features ++ padding in
      (* len(mfcc_features) - num_context_frames + 1: the padded length is
         at least num_context_frames - 1, nothing is truncated *)
      let num_strides := (length mfcc_features + 1 - num_context_frames)%nat in
      let mfcc_features := as_strided mfcc_features num_strides num_context_frames in
      let '(state_h, state_c) :=
        match state with
        | None => (zeros 2048, zeros 2048)
        | Some (state_h, state_c) => (state_h, state_c)
        end in
      let* r := infer_chunks en mfcc_features
                  (range0 (length mfcc_features) num_batch_frames) [] state_h state_c in
      let* probs := concatenate (fst r) in
      match return_state return Method (probs_result return_state) with
      | false => ret probs
      | true => ret (probs, snd r)
      end
  end.

Definition decode_probs (probs : matrix) : Method (list (Q * string)) :=
  let* self := get in
  emit (EvDecode probs) >>
  ret (decode (decoder self) probs).

Definition recognize_audio (audio : ndarray) (sampling_rate : Z)
    : Method (list (Q * string)) :=
  let* mfcc_features := extract_mfcc audio sampling_rate in
  let* probs := extract_per_frame_probs mfcc_features None false in
  let* transcription := decode_probs probs in
  ret transcription.

Inductive alphabet_arg :=
  | AlphabetDefault                      (* None *)
  | AlphabetFile (fname : string)        (* str *)
  | AlphabetList (symbols : list string).

(** The constructor.  It returns the new object, or raises.  The decoder
    is built from the arguments alone, so the record holds it from the
    start although the source assigns it after [_load_net]: when
    [_load_net] raises there is no object to look at. *)
Definition __init__ (model : string) (model_bin lm : option string)
    (alphabet : alphabet_arg) (beam_width : nat) (alpha beta : Q)
    (ie : option IECore) (device : option string)
    (ie_extensions : list (string * option string))
    : result Pipeline * list event :=
  let alphabet :=
    match alphabet with
    | AlphabetDefault => get_default_alphabet
    | AlphabetFile fname => load_alphabet fname
    | AlphabetList symbols => symbols
    end in
  let self :=
    {| beam_width := beam_width; alphabet := alphabet;
       net := None; exec_net := None; default_device := device;
       ie := match ie with Some i => i | None => IECore_new end;
       decoder := {| dec_alphabet := alphabet; dec_beam_width := beam_width;
                     dec_scorer_lm_fname := lm; dec_alpha := alpha;
                     dec_beta := beta |} |} in
  let body : Method unit :=
    _load_net model model_bin ie_extensions device None >>
    match device with
    | Some d => activate_model d
    | None => ret tt
    end in
  match body self with
  | (Ok _, self, evs) => (Ok self, evs)
  | (Raise e, _, evs) => (Raise e, evs)
  end.

End Methods.

(** *** Vocabulary of the properties *)

(** The length of the axis the validation reads, [(audio.shape + (1,))[1]]:
    the second axis, 1 for an array with one axis, nothing for an array
    without axes. *)
Definition channels (a : ndarray) : option nat := (shape a ++ [1%nat]) !! 1%nat.

(** The values an integer dtype holds. *)
Definition int_range (dt : int_dtype) : Z * Z :=
  match dt with
  | int8 => (-128, 127)
  | int16 => (-32768, 32767)
  | int32 => (-2147483648, 2147483647)
  | int64 => (-9223372036854775808, 9223372036854775807)
  | uint8 => (0, 255)
  | uint16 => (0, 65535)
  | uint32 => (0, 4294967295)
  | uint64 => (0, 18446744073709551615)
  end%Z.

Definition in_range (dt : int_dtype) (x : Z) : Prop :=
  ((int_range dt).1 <= x <= (int_range dt).2)%Z.

(** The sampling rate is further than a tenth from the model's. *)
Definition rate_off (sampling_rate : Z) : Prop :=
  (Z.abs (sampling_rate - 16000) > 1600)%Z.

(** The arguments of the forward passes among the events:
    (previous_state_c, previous_state_h, input_node). *)
Definition infer_calls (evs : list event) : list (list Q * list Q * list window) :=
  flat_map (fun ev => match ev with
                      | EvInfer _ c h chunk => [(c, h, chunk)]
                      | _ => []
                      end) evs.

(** The execution networks the forward passes ran on. *)
Definition infer_targets (evs : list event) : list ExecNet :=
  flat_map (fun ev => match ev with
                      | EvInfer en _ _ _ => [en]
                      | _ => []
                      end) evs.

(** The matrices handed to the decoder. *)
Definition decoded (evs : list event) : list matrix :=
  flat_map (fun ev => match ev with
                      | EvDecode probs => [probs]
                      | _ => []
                      end) evs.

Definition outcome_of {A} (r : result A * Pipeline * list event) : result A := r.1.1.
Definition self_of {A} (r : result A * Pipeline * list event) : Pipeline := r.1.2.
Definition events_of {A} (r : result A * Pipeline * list event) : list event := r.2.

Section Vocabulary.
Context `{Collaborators}.

(** The object after a series of [recognize_audio] calls, whatever they
    returned or raised. *)
Definition after_calls (calls : list (ndarray * Z)) (self : Pipeline) : Pipeline :=
  fold_left (fun p call => self_of (recognize_audio call.1 call.2 p)) calls self.

(** The object after a series of [activate_model] calls. *)
Definition after_activations (devices : list string) (self : Pipeline) : Pipeline :=
  fold_left (fun p device => self_of (activate_model device p)) devices self.

(** The forward passes of the chunk loop, as a list: the state and the
    chunk each pass is given. *)
Fixpoint passes (en : ExecNet) (ws : list window) (starts : list nat)
    (state_h state_c : list Q) : list (list Q * list Q * list window) :=
  match starts with
  | [] => []
  | i :: rest =>
      let res := infer en state_c state_h (chunk_at ws i) in
      (state_c, state_h, chunk_at ws i)
        :: passes en ws rest (tensor_iterator_1 res) (tensor_iterator_2 res)
  end.

Fixpoint final_state (en : ExecNet) (ws : list window) (starts : list nat)
    (state_h state_c : list Q) : lstm_state :=
  match starts with
  | [] => (state_h, state_c)
  | i :: rest =>
      let res := infer en state_c state_h (chunk_at ws i) in
      final_state en ws rest (tensor_iterator_1 res) (tensor_iterator_2 res)
  end.

Definition pass_logits (en : ExecNet) (p : list Q * list Q * list window) : matrix :=
  logits (infer en p.1.1 p.1.2 p.2).

Definition pass_event (en : ExecNet) (p : list Q * list Q * list window) : event :=
  EvInfer en p.1.1 p.1.2 p.2.

(** The context windows of a feature sequence: what [as_strided] yields on
    the padded sequence. *)
Definition context_windows (mfcc_features : list frame) : list window :=
  let padded := edge_padding ++ mfcc_features ++ edge_padding in
  as_strided padded (length padded + 1 - num_context_frames) num_context_frames.

Definition initial_state (state : option lstm_state) : lstm_state :=
  match state with
  | None => (zeros 2048, zeros 2048)
  | Some (state_h, state_c) => (state_h, state_c)
  end.

(** The forward passes [extract_per_frame_probs] makes on a feature
    sequence. *)
Definition passes_of (en : ExecNet) (feats : list frame) (state : option lstm_state)
    : list (list Q * list Q * list window) :=
  passes en (context_windows feats)
    (range0 (length (context_windows feats)) num_batch_frames)
    (initial_state state).1 (initial_state state).2.

(** The samples, window and stride [extract_mfcc] hands to
    [audio_spectrogram], and the spectrogram it gets back. *)
Definition spectrogram_of (audio : ndarray) (sampling_rate : Z) : matrix :=
  audio_spectrogram (normalize (data audio))
    (inject_Z sampling_rate * frame_window_size_seconds)%Q
    (inject_Z sampling_rate * frame_stride_seconds)%Q true.

Definition spectrogram_event (audio : ndarray) (sampling_rate : Z) : event :=
  EvSpectrogram (normalize (data audio))
    (inject_Z sampling_rate * frame_window_size_seconds)%Q
    (inject_Z sampling_rate * frame_stride_seconds)%Q.

End Vocabulary.

(** *** A small network to run the pipeline on

    One spectrogram row per sample, coefficient rows that repeat it, a
    network that answers one row per window and counts the passes in its
    state, and a decoder with one hypothesis. *)
Definition toy_collaborators : Collaborators := {|
  IECore_new := {| extensions := [] |};
  read_network := fun _ model weights =>
    {| net_model := model; net_weights := weights; net_layers := ["lstm"] |};
  query_network := fun _ n _ _ => net_layers n;
  infer := fun _ state_c state_h chunk =>
    {| logits := map (fun w => [hd 0%Q (hd [] w)]) chunk;
       tensor_iterator_1 := map (Qplus 1) state_h;
       tensor_iterator_2 := map (Qplus 1) state_c |};
  audio_spectrogram := fun audio _ _ _ => map (fun x => [x]) audio;
  mfcc := fun spectrogram _ n => map (fun row => repeat (hd 0%Q row) n) spectrogram;
  get_default_alphabet := [" "; "a"; "b"];
  load_alphabet := fun _ => ["a"];
  decode := fun _ probs => [(0%Q, "")];
|}.

Definition toy_net : Net :=
  {| net_model := "/m/ds.xml"; net_weights := "/m/ds.bin"; net_layers := ["lstm"] |}.

(** The object [__init__] builds with [device=None], and the one it builds
    with [device='CPU']. *)
Definition toy_unactivated : Pipeline :=
  {| beam_width := 500; alphabet := [" "; "a"; "b"];
     net := Some toy_net; exec_net := None; default_device := None;
     ie := {| extensions := [] |};
     decoder := {| dec_alphabet := [" "; "a"; "b"]; dec_beam_width := 500;
                   dec_scorer_lm_fname := None; dec_alpha := 3 # 4;
                   dec_beta := 37 # 20 |} |}.

Definition toy_pipeline : Pipeline :=
  {| beam_width := 500; alphabet := [" "; "a"; "b"];
     net := Some toy_net;
     exec_net := Some {| exec_network := toy_net; exec_device := "CPU" |};
     default_device := Some "CPU";
     ie := {| extensions := [] |};
     decoder := {| dec_alphabet := [" "; "a"; "b"]; dec_beam_width := 500;
                   dec_scorer_lm_fname := None; dec_alpha := 3 # 4;
                   dec_beta := 37 # 20 |} |}.

(** Three 16-bit samples, one axis. *)
Definition toy_audio : ndarray :=
  NdArray [3%nat] (IntSamples int16 [16384; -32768; 0]%Z).

End DeepSpeech.

(** ** The gallery sync script ([Face_gallery_sync.py]) *)

Module GallerySync.

(** *** The local file system

    Entries are named by their components from the root: regular files
    with their content, and directories.  The root directory always
    exists.  There are no symbolic links and no permissions, so the only
    failures are those of the tree itself: a missing directory on the way,
    a file where a directory is needed, a directory where a file is.
    Relative paths are taken from the root. *)
Record FS := {
  files : gmap (list string) (list Byte.byte);
  dirs : gset (list string);
}.

Definition is_dir (fs : FS) (k : list string) : bool :=
  bool_decide (k = [] ∨ k ∈ dirs fs).

Definition is_file (fs : FS) (k : list string) : bool :=
  bool_decide (is_Some (files fs !! k)).

Definition entry_exists (fs : FS) (k : list string) : bool :=
  is_dir fs k || is_file fs k.

(** What the kernel finds when it walks a path. *)
Inductive lookup :=
  | Here (k : list string)    (* the entry [k] *)
  | Free (k : list string)    (* nothing at [k] yet, in a directory that is there *)
  | Slashed                   (* a file, or nothing, followed by slashes only *)
  | NoEntry                   (* ENOENT: a name that is missing on the way *)
  | NotDir.                   (* ENOTDIR: a file on the way *)

(** The walk, component by component, from the directory [cur], which
    exists: every name is looked up in the directory reached so far, and
    [..] leaves a directory that was reached.  Behind a name that is no
    directory the path may only end, or go on with slashes. *)
Fixpoint namei (fs : FS) (cur : list string) (comps : list string) : lookup :=
  match comps with
  | [] => Here cur
  | c :: rest =>
      if String.eqb c "" then namei fs cur rest
      else if String.eqb c "." then namei fs cur rest
      else if String.eqb c ".." then namei fs (removelast cur) rest
      else
        let k := cur ++ [c] in
        if is_dir fs k then namei fs k rest
        else match rest with
             | [] => if is_file fs k then Here k else Free k
             | _ => if forallb (String.eqb "") rest then Slashed
                    else if is_file fs k then NotDir else NoEntry
             end
  end.

Definition lookup_path (fs : FS) (p : string) : lookup :=
  if String.eqb p "" then NoEntry
  else namei fs [] (posixpath.split_slash [] (list_ascii_of_string p)).

(** [os.path.exists]: [os.stat] succeeds. *)
Definition path_exists (fs : FS) (p : string) : bool :=
  match lookup_path fs p with
  | Here _ => true
  | _ => false
  end.

(** The entry itself and the directories above it, the root apart. *)
Definition prefixes (k : list string) : list (list string) :=
  map (fun n => take n k) (seq 1 (length k)).

(** *** The remote store *)

(** A blob as the listing yields it, with what
    [blob_client.download_blob().readall()] does when it is asked for. *)
Record blob := {
  blob_name : string;
  download : result (list Byte.byte);
}.

Record container := {
  container_name : string;
  container_metadata : list (string * string);
  container_blobs : iterable blob;      (* container_id.list_blobs() *)
}.

Record account := {
  containers : iterable container;      (* list_containers(include_metadata=True) *)
}.

(** What the script finds around it: the home directory
    ([os.path.expanduser("~")]) and the storage service behind a connection
    string ([BlobServiceClient.from_connection_string]). *)
Record environment := {
  home : string;
  connect : string -> result account;
}.

(** *** What the script does that can be seen *)

Inductive event :=
  | Print (line : string)
  | PrintContainer (name : string) (metadata : list (string * string))
  | PrintException (e : exn)
  | Download (container_name blob_name : string).

Abbreviation IO := (M FS event).

Definition nl : string := String (ascii_of_nat 10) "".
Definition tab : string := String (ascii_of_nat 9) "".

Definition lift {A} (r : result A) : IO A :=
  match r with
  | Ok a => ret a
  | Raise e => raise e
  end.

(** [os.makedirs]: creates the directory and those above it that are
    missing.  The directories are those of the normal form of the path
    ([posixpath.resolve]); this is what the kernel creates for a path
    without [..], as the home directory is spelled. *)
Definition makedirs (p : string) : IO unit :=
  let* fs := get in
  let k := posixpath.resolve p in
  if path_exists fs p then
    raise (Exn OSError ("[Errno 17] File exists: '" ++ p ++ "'"))
  else if existsb (is_file fs) (prefixes k) then
    raise (Exn OSError ("[Errno 20] Not a directory: '" ++ p ++ "'"))
  else
    put {| files := files fs; dirs := dirs fs ∪ list_to_set (prefixes k) |}.

(** The OSError of an [open] that creates files, for what the walk
    found. *)
Definition open_error (found : lookup) (p : string) : exn :=
  match found with
  | NoEntry => Exn OSError ("[Errno 2] No such file or directory: '" ++ p ++ "'")
  | NotDir => Exn OSError ("[Errno 20] Not a directory: '" ++ p ++ "'")
  | _ => Exn OSError ("[Errno 21] Is a directory: '" ++ p ++ "'")
  end.

(** [open(p, 'wb+')]: creates the file or empties it; the handle is the
    entry. *)
Definition open_wb (p : string) : IO (list string) :=
  let* fs := get in
  match lookup_path fs p with
  | Free k =>
      put {| files := <[k := []]> (files fs); dirs := dirs fs |} >>
      ret k
  | Here k =>
      if is_dir fs k then raise (open_error (Here k) p)
      else
        put {| files := <[k := []]> (files fs); dirs := dirs fs |} >>
        ret k
  | found => raise (open_error found p)
  end.

(** [file.write(stream)], at the end of what the file holds *)
Definition write (file : list string) (stream : list Byte.byte) : IO unit :=
  let* fs := get in
  put {| files := <[file := default [] (files fs !! file) ++ stream]> (files fs);
         dirs := dirs fs |}.

(** [file.close()] *)
Definition close (file : list string) : IO unit := ret tt.

(** *** The script *)

(** The body of the loop over the blobs of a container (lines 28-48). *)
Definition sync_blob (local_path : string) (c : container) (b : blob) : IO unit :=
  emit (Print (tab ++ " Blob name: " ++ blob_name b)) >>
  let local_file_path_for_blob := posixpath.join local_path (blob_name b) in
  emit (Print (tab ++ " Local Path for blob: " ++ local_file_path_for_blob)) >>
  let* fs := get in
  if path_exists fs local_file_path_for_blob then
    emit (Print "[ DEBUG ] File Exist! ")
  else
    emit (Print "[ DEBUG ] File NOT Exist! Update New Image...") >>
    try_except
      (emit (Download (container_name c) (blob_name b)) >>
       let* stream := lift (download b) in
       let* file := open_wb local_file_path_for_blob in
       write file stream >>
       close file)
      is_ResourceNotFoundError
      (fun _ => emit (Print "No blob found.")).

(** The body of the loop over the containers (lines 23-48). *)
Definition sync_container (local_path : string) (c : container) : IO unit :=
  emit (PrintContainer (container_name c) (container_metadata c)) >>
  emit (Print (nl ++ "List blobs in the container")) >>
  for_each (container_blobs c) (sync_blob local_path c).

(** What stands inside [try:] (lines 10-48). *)
Definition run_sample_body (env : environment) (azs_storage : string) : IO unit :=
  let conn_str := azs_storage in
  let* blob_service_client := lift (connect env conn_str) in
  let all_containers := containers blob_service_client in
  let local_path := posixpath.join (home env) "Face_Gallery" in
  let* fs := get in
  (if negb (path_exists fs local_path) then
     makedirs local_path >>
     emit (Print ("[ DEBUG ] Make " ++ local_path))
   else ret tt) >>
  for_each all_containers (sync_container local_path).

Definition run_sample (env : environment) (azs_storage : string) : IO unit :=
  try_except (run_sample_body env azs_storage)
    (fun _ => true)                      (* except Exception as e *)
    (fun e => emit (PrintException e)).

(** A call of [run_sample] with the positional arguments [args]: the
    function has the one parameter [azs_storage], without a default. *)
Definition call_run_sample (env : environment) (args : list string) : IO unit :=
  match args with
  | [azs_storage] => run_sample env azs_storage
  | [] =>
      raise (Exn TypeError
               "run_sample() missing 1 required positional argument: 'azs_storage'")
  | _ =>
      raise (Exn TypeError
               ("run_sample() takes 1 positional argument but "
                ++ NilZero.string_of_uint (Nat.to_uint (length args)) ++ " were given"))
  end.

(** [if __name__ == '__main__': run_sample()] *)
Definition main (env : environment) (__name__ : string) : IO unit :=
  if String.eqb __name__ "__main__" then call_run_sample env [] else ret tt.

(** *** Vocabulary of the properties *)

Definition mirror_root (env : environment) : string :=
  posixpath.join (home env) "Face_Gallery".

(** The entry a blob is mirrored to. *)
Definition entry_of (env : environment) (b : blob) : list string :=
  posixpath.resolve (posixpath.join (mirror_root env) (blob_name b)).

(** The blobs of an account in the order they are listed. *)
Definition all_blobs (a : account) : list blob :=
  flat_map (fun c => items (container_blobs c)) (items (containers a)).

(** The content of the first blob of [bs] that is mirrored to [k] and whose
    download yields content. *)
Fixpoint first_fetch (env : environment) (k : list string) (bs : list blob)
    : option (list Byte.byte) :=
  match bs with
  | [] => None
  | b :: rest =>
      match download b with
      | Ok content =>
          if bool_decide (entry_of env b = k) then Some content
          else first_fetch env k rest
      | Raise _ => first_fetch env k rest
      end
  end.

(** No exception reached the handler at the top. *)
Definition completed (evs : list event) : bool :=
  forallb (fun ev => match ev with PrintException _ => false | _ => true end) evs.

Definition downloads (evs : list event) : list (string * string) :=
  flat_map (fun ev => match ev with Download c n => [(c, n)] | _ => [] end) evs.

(** The two lines printed for every blob. *)
Definition blob_header (local_path : string) (b : blob) : list event :=
  [Print (tab ++ " Blob name: " ++ blob_name b);
   Print (tab ++ " Local Path for blob: " ++ posixpath.join local_path (blob_name b))].

(** Every file of [fs] is in [fs'] with the same content, and every
    directory of [fs] is one of [fs']. *)
Definition extends (fs fs' : FS) : Prop :=
  (forall k c, files fs !! k = Some c -> files fs' !! k = Some c) /\
  dirs fs ⊆ dirs fs'.

(** Every download among the events is of a blob whose local path named
    nothing in [fs]. *)
Definition fetches_absent (local_path : string) (fs : FS) (evs : list event) : Prop :=
  forall c n, In (c, n) (downloads evs) ->
    path_exists fs (posixpath.join local_path n) = false.

(** The content of an entry after the blobs [bs] were gone through from
    [fs]: what it was when it existed, what was fetched first otherwise. *)
Definition expect (env : environment) (fs : FS) (bs : list blob) (k : list string)
    : option (list Byte.byte) :=
  if entry_exists fs k then files fs !! k else first_fetch env k bs.

Definition mirrored (env : environment) (bs : list blob) (fs fs' : FS) : Prop :=
  dirs fs' = dirs fs /\ forall k, files fs' !! k = expect env fs bs k.

(** A computation that keeps what the file system holds and fetches only
    what it lacks. *)
Definition mirror_safe {A} (local_path : string) (m : IO A) : Prop :=
  forall fs, extends fs (m fs).1.2 /\ fetches_absent local_path fs (m fs).2.

(** The blob [n] of the container [c] is listed by the account, and gone
    when it is asked for. *)
Definition gone (a : account) (c n : string) : Prop :=
  exists cont b e,
    In cont (items (containers a)) /\ container_name cont = c /\
    In b (items (container_blobs cont)) /\ blob_name b = n /\
    download b = Raise e /\ is_ResourceNotFoundError e = true.

(** Among the downloads [ds], in the order they were asked for, none is
    of the derived local path of an earlier one, unless that one was
    [skipped]. *)
Definition fetched_once (local_path : string) (skipped : string -> string -> Prop)
    (ds : list (string * string)) : Prop :=
  forall l1 c n l2 c' n',
    ds = l1 ++ (c, n) :: l2 -> In (c', n') l2 ->
    posixpath.join local_path n' = posixpath.join local_path n -> skipped c n.

(** Every download of [ds] left something at its local path in [fs], or
    was [skipped]. *)
Definition fetched_into (local_path : string) (skipped : string -> string -> Prop)
    (fs : FS) (ds : list (string * string)) : Prop :=
  forall c n, In (c, n) ds ->
    path_exists fs (posixpath.join local_path n) = true \/ skipped c n.

(** A computation started in [fs] that keeps what is there, fetches only
    what is missing, no derived path a second time, and leaves an entry
    for what it fetched when it returns. *)
Definition fetches_once_at {A} (local_path : string)
    (skipped : string -> string -> Prop) (m : IO A) (fs : FS) : Prop :=
  extends fs (m fs).1.2 /\
  fetches_absent local_path fs (m fs).2 /\
  fetched_once local_path skipped (downloads (m fs).2) /\
  (forall a, (m fs).1.1 = Ok a ->
     fetched_into local_path skipped (m fs).1.2 (downloads (m fs).2)).

(** The mirror root is made when it is missing (lines 17-19). *)
Definition ensure_root (local_path : string) : IO unit :=
  let* fs := get in
  if negb (path_exists fs local_path) then
    makedirs local_path >>
    emit (Print ("[ DEBUG ] Make " ++ local_path))
  else ret tt.

(** The two lines printed for every container. *)
Definition container_header (c : container) : list event :=
  [PrintContainer (container_name c) (container_metadata c);
   Print (nl ++ "List blobs in the container")].

(** What is printed and asked for a blob that is not there yet. *)
Definition attempted (local_path : string) (c : container) (b : blob) : list event :=
  blob_header local_path b
  ++ [Print "[ DEBUG ] File NOT Exist! Update New Image...";
      Download (container_name c) (blob_name b)].

(** *** A home directory and a store to run the script on *)

Definition toy_fs : FS :=
  {| files := {[ ["home"; "u"; "Face_Gallery"; "old.jpg"] := [Byte.x07] ]};
     dirs := {[ ["home"]; ["home"; "u"]; ["home"; "u"; "Face_Gallery"] ]} |}.

Definition toy_account : account :=
  {| containers := Iterable
       [ {| container_name := "staff"; container_metadata := [];
            container_blobs := Iterable
              [ {| blob_name := "a.jpg"; download := Ok [Byte.x01] |};
                {| blob_name := "old.jpg"; download := Ok [Byte.x08] |};
                {| blob_name := "gone.jpg";
                   download := Raise (Exn ResourceNotFoundError "BlobNotFound") |} ]
              None |};
         {| container_name := "guests"; container_metadata := [("k", "v")];
            container_blobs := Iterable
              [ {| blob_name := "a.jpg"; download := Ok [Byte.x02] |};
                {| blob_name := "b.jpg"; download := Ok [Byte.x03; Byte.x04] |} ]
              None |} ]
       None |}.

Definition toy_env : environment :=
  {| home := "/home/u";
     connect := fun conn_str =>
       if String.eqb conn_str "" then Raise (Exn ValueError "Connection string is either blank or malformed.")
       else Ok toy_account |}.

(** A store whose service fails while a blob of the first container is
    downloaded. *)
Definition flaky_account : account :=
  {| containers := Iterable
       [ {| container_name := "staff"; container_metadata := [];
            container_blobs := Iterable
              [ {| blob_name := "a.jpg"; download := Ok [Byte.x01] |};
                {| blob_name := "broken.jpg";
                   download := Raise (Exn (OtherException "HttpResponseError")
                                          "Server busy") |};
                {| blob_name := "late.jpg"; download := Ok [Byte.x09] |} ]
              None |};
         {| container_name := "guests"; container_metadata := [];
            container_blobs := Iterable
              [ {| blob_name := "b.jpg"; download := Ok [Byte.x03; Byte.x04] |} ]
              None |} ]
       None |}.

Definition flaky_env : environment :=
  {| home := "/home/u"; connect := fun _ => Ok flaky_account |}.

End GallerySync.

(** ** More vocabulary for the pipeline *)

Module DeepSpeechMore.
Import DeepSpeech.

(** The extensions [_load_net] hands to the engine, as (path, device): the
    records of [ie_extensions] that have a file name, in their order. *)
Definition registered (ie_extensions : list (string * option string))
    : list (string * string) :=
  omap (fun record => (fun fname => (fname, record.1)) <$> record.2) ie_extensions.

Definition extension_event (extension : string * string) : event :=
  EvAddExtension extension.1 extension.2.

(** The weights file [_load_net] reads when none is given. *)
Definition default_bin_fname (model_xml_fname : string) : string :=
  posixpath.join (posixpath.dirname model_xml_fname)
    (posixpath.rsplit1_head posixpath.dot (posixpath.basename model_xml_fname) ++ ".bin").

Definition unsupported_message (device : string) (layers : list string) : string :=
  "Following layers are not supported by the plugin for specified device "
  ++ device ++ ": " ++ String.concat ", " layers
  ++ ".  Please try to specify IE extension library path with --cpu_extension command line argument".

Definition load_events (evs : list event) : list (Net * string) :=
  flat_map (fun ev => match ev with
                      | EvLoadNetwork n device => [(n, device)]
                      | _ => []
                      end) evs.

Definition query_events (evs : list event) : list string :=
  flat_map (fun ev => match ev with
                      | EvQueryNetwork device => [device]
                      | _ => []
                      end) evs.

Section More.
Context `{Collaborators}.

(** The layers of [n] the engine does not report for [device]. *)
Definition unsupported_layers (engine : IECore) (n : Net) (device : string)
    (device_config : option string) : list string :=
  filter (fun l => l ∉ query_network engine n device device_config) (net_layers n).

(** The engine and the network [__init__] ends up with. *)
Definition engine_of (ie : option IECore) (ie_extensions : list (string * option string))
    : IECore :=
  {| extensions :=
       extensions (match ie with Some i => i | None => IECore_new end)
       ++ registered ie_extensions |}.

Definition network_of (ie : option IECore) (ie_extensions : list (string * option string))
    (model : string) (model_bin : option string) : Net :=
  read_network (engine_of ie ie_extensions) model
    (match model_bin with Some f => f | None => default_bin_fname model end).

Definition resolve_alphabet (alphabet : alphabet_arg) : list string :=
  match alphabet with
  | AlphabetDefault => get_default_alphabet
  | AlphabetFile fname => load_alphabet fname
  | AlphabetList symbols => symbols
  end.

(** The object a successful [__init__] returns. *)
Definition built (model : string) (model_bin lm : option string)
    (alphabet : alphabet_arg) (beam_width : nat) (alpha beta : Q)
    (ie : option IECore) (device : option string)
    (ie_extensions : list (string * option string)) : Pipeline :=
  let n := network_of ie ie_extensions model model_bin in
  {| DeepSpeech.beam_width := beam_width;
     DeepSpeech.alphabet := resolve_alphabet alphabet;
     net := Some n;
     exec_net := (fun d => {| exec_network := n; exec_device := d |}) <$> device;
     default_device := device;
     DeepSpeech.ie := engine_of ie ie_extensions;
     decoder := {| dec_alphabet := resolve_alphabet alphabet;
                   dec_beam_width := beam_width;
                   dec_scorer_lm_fname := lm; dec_alpha := alpha; dec_beta := beta |} |}.

(** The calls [__init__] makes before it looks at the device. *)
Definition loading_events (model : string) (model_bin : option string)
    (ie_extensions : list (string * option string)) : list event :=
  map extension_event (registered ie_extensions)
  ++ [EvReadNetwork model
        (match model_bin with Some f => f | None => default_bin_fname model end)].

(** The state after the last forward pass on a feature sequence. *)
Definition final_state_of (en : ExecNet) (feats : list frame) (state : option lstm_state)
    : lstm_state :=
  final_state en (context_windows feats)
    (range0 (length (context_windows feats)) num_batch_frames)
    (initial_state state).1 (initial_state state).2.

(** What a forward pass hands to the next: (state_h, state_c). *)
Definition handed_on (en : ExecNet) (p : list Q * list Q * list window) : lstm_state :=
  (tensor_iterator_1 (infer en p.1.1 p.1.2 p.2),
   tensor_iterator_2 (infer en p.1.1 p.1.2 p.2)).

End More.

(** The all-zero window that fills a short batch. *)
Definition zero_window : window := repeat (zeros num_mfcc_dct_coefs) num_context_frames.

(** The batches the network is given, in order. *)
Definition batches (evs : list event) : list (list window) := map snd (infer_calls evs).

(** The character [c] does not occur in [s]. *)
Definition lacks (c : ascii) (s : string) : Prop := c ∉ list_ascii_of_string s.

(** [s] is not empty and does not end with [c]. *)
Definition ends_otherwise (c : ascii) (s : string) : Prop :=
  exists x, last (list_ascii_of_string s) = Some x /\ x <> c.

(** Feature functions that find no frame in the signal. *)
Definition mute_collaborators : Collaborators := {|
  IECore_new := {| extensions := [] |};
  read_network := fun _ model weights =>
    {| net_model := model; net_weights := weights; net_layers := ["lstm"] |};
  query_network := fun _ n _ _ => net_layers n;
  infer := fun _ state_c state_h chunk =>
    {| logits := map (fun w => [hd 0%Q (hd [] w)]) chunk;
       tensor_iterator_1 := state_h;
       tensor_iterator_2 := state_c |};
  audio_spectrogram := fun audio _ _ _ => map (fun x => [x]) audio;
  mfcc := fun _ _ _ => [];
  get_default_alphabet := [" "; "a"; "b"];
  load_alphabet := fun _ => ["a"];
  decode := fun _ probs => [(0%Q, "")];
|}.

(** The small network on an engine that lacks one of its two layers. *)
Definition picky_collaborators : Collaborators := {|
  IECore_new := {| extensions := [] |};
  read_network := fun _ model weights =>
    {| net_model := model; net_weights := weights; net_layers := ["lstm"; "softmax"] |};
  query_network := fun _ n _ _ => ["softmax"];
  infer := @infer toy_collaborators;
  audio_spectrogram := @audio_spectrogram toy_collaborators;
  mfcc := @mfcc toy_collaborators;
  get_default_alphabet := [" "; "a"; "b"];
  load_alphabet := fun _ => ["a"];
  decode := fun _ probs => [(0%Q, "")];
|}.

End DeepSpeechMore.

(** ** More vocabulary for the gallery sync *)

Module GallerySyncMore.
Import GallerySync.

(** Nothing is left to do for a blob: its local path names something, or
    the store no longer has it. *)
Definition settled (env : environment) (fs : FS) (b : blob) : Prop :=
  path_exists fs (posixpath.join (mirror_root env) (blob_name b)) = true
  \/ exists e, download b = Raise e /\ is_ResourceNotFoundError e = true.

(** A container that could be listed to its end and whose blobs are all
    settled. *)
Definition container_settled (env : environment) (fs : FS) (c : container) : Prop :=
  failure (container_blobs c) = None /\ Forall (settled env fs) (items (container_blobs c)).

Definition blobs_done (env : environment) (bs : list blob) (fs fs' : FS) : Prop :=
  extends fs fs' /\ Forall (settled env fs') bs.

Definition containers_done (env : environment) (cs : list container) (fs fs' : FS) : Prop :=
  extends fs fs' /\ Forall (container_settled env fs') cs.

(** The blob [n] of the container [c] is listed by the account. *)
Definition listed (a : account) (c n : string) : Prop :=
  exists cont b,
    In cont (items (containers a)) /\ container_name cont = c /\
    In b (items (container_blobs cont)) /\ blob_name b = n.

(** What a computation may leave behind: directories among [made] beside
    those there were, files only where a blob was downloaded to, and
    downloads only of what [allowed] admits. *)
Definition footprint (local_path : string) (made : list (list string))
    (allowed : string -> string -> Prop) (fs fs' : FS) (evs : list event) : Prop :=
  (forall k, k ∈ dirs fs' -> k ∈ dirs fs \/ k ∈ made) /\
  (forall k content, files fs' !! k = Some content ->
     files fs !! k = Some content
     \/ exists c n, In (c, n) (downloads evs)
                    /\ posixpath.resolve (posixpath.join local_path n) = k) /\
  (forall c n, In (c, n) (downloads evs) -> allowed c n).

(** A computation started in [s] keeps to [Q], a relation between the
    state before, the state after and the events. *)
Definition respects_at {S E A : Type} (Q : S -> S -> list E -> Prop)
    (m : M S E A) (s : S) : Prop :=
  Q s (m s).1.2 (m s).2.

(** No exception is printed among the events. *)
Definition quiet (fs fs' : FS) (evs : list event) : Prop := completed evs = true.

(** What was there is kept, and every file that was not there lies in a
    directory. *)
Definition housed (fs fs' : FS) (evs : list event) : Prop :=
  extends fs fs' /\
  forall k, is_Some (files fs' !! k) -> files fs !! k = None ->
            is_dir fs' (removelast k) = true.

(** A container with a blob named by an absolute path. *)
Definition stray_blob : blob :=
  {| blob_name := "/home/x.jpg"; download := Ok [Byte.x05] |}.

Definition stray_container : container :=
  {| container_name := "staff"; container_metadata := [];
     container_blobs := Iterable [stray_blob] None |}.

End GallerySyncMore.

(** * Properties *)

(** ** posixpath on a few paths *)

Example basename_model : posixpath.basename "/m/ds/model.xml" = "model.xml".
Proof. reflexivity. Qed.

Example dirname_model : posixpath.dirname "/m/ds/model.xml" = "/m/ds".
Proof. reflexivity. Qed.

Example dirname_at_root : posixpath.dirname "/model.xml" = "/".
Proof. reflexivity. Qed.

Example join_relative : posixpath.join "/home/u" "Face_Gallery" = "/home/u/Face_Gallery".
Proof. reflexivity. Qed.

Example join_absolute : posixpath.join "/home/u" "/etc/x" = "/etc/x".
Proof. reflexivity. Qed.

Example resolve_dots :
  posixpath.resolve "/home/u/Face_Gallery/./a//b.jpg"
  = ["home"; "u"; "Face_Gallery"; "a"; "b.jpg"].
Proof. reflexivity. Qed.

(** ** The DeepSpeech pipeline *)

Module DeepSpeechFacts.
Import DeepSpeech.

Ltac run_monad :=
  unfold bind, ret, raise, emit, get, put, tuple_index, concatenate; simpl.

Section Facts.
Context `{Collaborators}.

(** *** The chunk loop *)

Lemma infer_chunks_run en ws starts probs h c self :
  infer_chunks en ws starts probs h c self =
    (Ok (probs ++ map (pass_logits en) (passes en ws starts h c),
         final_state en ws starts h c),
     self, map (pass_event en) (passes en ws starts h c)).
Proof.
  revert probs h c. induction starts as [|i rest IH]; intros probs h c.
  - simpl. unfold ret. by rewrite app_nil_r.
  - simpl. unfold bind at 1. unfold emit at 1.
    rewrite IH. simpl. by rewrite <- app_assoc.
Qed.

Lemma passes_length en ws starts h c :
  length (passes en ws starts h c) = length starts.
Proof.
  revert h c. induction starts as [|i rest IH]; intros h c; simpl; [done|].
  by rewrite IH.
Qed.

Lemma passes_chunks en ws starts h c :
  map snd (passes en ws starts h c) = map (chunk_at ws) starts.
Proof.
  revert h c. induction starts as [|i rest IH]; intros h c; simpl; [done|].
  by rewrite IH.
Qed.

Lemma passes_first en ws starts h c :
  match passes en ws starts h c with
  | [] => starts = []
  | p :: _ => p.1.1 = c /\ p.1.2 = h
  end.
Proof. destruct starts; simpl; auto. Qed.

Lemma infer_calls_app evs1 evs2 :
  infer_calls (evs1 ++ evs2) = infer_calls evs1 ++ infer_calls evs2.
Proof. unfold infer_calls. by rewrite flat_map_app. Qed.

Lemma infer_targets_app evs1 evs2 :
  infer_targets (evs1 ++ evs2) = infer_targets evs1 ++ infer_targets evs2.
Proof. unfold infer_targets. by rewrite flat_map_app. Qed.

Lemma infer_calls_pass_events en ps :
  infer_calls (map (pass_event en) ps) = ps.
Proof.
  induction ps as [|[[c h] ch] ps IH]; simpl; [done|]. by rewrite IH.
Qed.

Lemma infer_targets_pass_events en ps :
  infer_targets (map (pass_event en) ps) = map (fun _ => en) ps.
Proof.
  induction ps as [|[[c h] ch] ps IH]; simpl; [done|]. by rewrite IH.
Qed.

(** *** Shapes: padding, windows, chunks *)

Lemma edge_padding_length : length edge_padding = 9%nat.
Proof. reflexivity. Qed.

Lemma context_windows_length feats :
  length (context_windows feats) = length feats.
Proof.
  unfold context_windows, as_strided.
  rewrite length_map, length_seq, !length_app, edge_padding_length.
  unfold num_context_frames. lia.
Qed.

Lemma range0_length stop step :
  length (range0 stop step) = ((stop + step - 1) / step)%nat.
Proof. unfold range0. by rewrite length_map, length_seq. Qed.

Lemma range0_elem stop i :
  i ∈ range0 stop num_batch_frames -> (i < stop)%nat.
Proof.
  unfold range0, num_batch_frames. intros Hi.
  apply list_elem_of_fmap in Hi as (k & -> & Hk).
  apply elem_of_seq in Hk.
  assert (Hd : (k < (stop + 16 - 1) / 16)%nat) by lia.
  pose proof (Nat.div_mod_eq (stop + 16 - 1) 16) as Hdm.
  pose proof (Nat.mod_upper_bound (stop + 16 - 1) 16).
  lia.
Qed.

Lemma chunk_at_length ws i : length (chunk_at ws i) = num_batch_frames.
Proof.
  unfold chunk_at, pad_rows.
  destruct (length (take num_batch_frames (drop i ws)) <? num_batch_frames)%nat eqn:E.
  - apply Nat.ltb_lt in E. rewrite length_app, repeat_length. lia.
  - apply Nat.ltb_ge in E. rewrite length_take in *. lia.
Qed.

Lemma chunk_at_eq ws i :
  chunk_at ws i =
    take num_batch_frames (drop i ws)
    ++ repeat (repeat (zeros num_mfcc_dct_coefs) num_context_frames)
         (num_batch_frames - length (take num_batch_frames (drop i ws))).
Proof.
  unfold chunk_at, pad_rows.
  destruct (length (take num_batch_frames (drop i ws)) <? num_batch_frames)%nat eqn:E; [done|].
  apply Nat.ltb_ge in E.
  replace (num_batch_frames - _)%nat with 0%nat by lia.
  simpl. by rewrite app_nil_r.
Qed.

(** *** What each method does *)

Lemma extract_per_frame_probs_unactivated feats state rs self :
  exec_net self = None ->
  extract_per_frame_probs feats state rs self
  = (Raise (Exn AssertionError activation_message), self, []).
Proof.
  intros Hnone. unfold extract_per_frame_probs, bind, get, raise.
  cbv beta iota. by rewrite Hnone.
Qed.

Lemma extract_per_frame_probs_run feats state self en :
  exec_net self = Some en ->
  extract_per_frame_probs feats state false self
  = (match passes_of en feats state with
     | [] => Raise (Exn ValueError "need at least one array to concatenate")
     | ps => Ok (concat (map (pass_logits en) ps))
     end,
     self, map (pass_event en) (passes_of en feats state)).
Proof.
  intros Hen. unfold extract_per_frame_probs, bind at 1, get.
  cbv beta iota. rewrite Hen.
  unfold passes_of, initial_state, context_windows.
  destruct state as [[state_h state_c]|]; cbv beta iota zeta; cbn [fst snd];
    unfold bind at 1; rewrite infer_chunks_run; cbn [fst snd app];
    (match goal with |- context [passes ?a ?b ?c ?d ?e] => destruct (passes a b c d e) end);
    unfold bind, concatenate, raise, ret; cbn [map app]; by rewrite ?app_nil_r.
Qed.

Lemma extract_per_frame_probs_events feats state rs self en :
  exec_net self = Some en ->
  self_of (extract_per_frame_probs feats state rs self) = self /\
  events_of (extract_per_frame_probs feats state rs self)
  = map (pass_event en) (passes_of en feats state).
Proof.
  intros Hen.
  assert (Hrun : exists r,
    extract_per_frame_probs feats state rs self
    = (r, self, map (pass_event en) (passes_of en feats state))).
  { unfold extract_per_frame_probs, bind at 1, get.
    cbv beta iota. rewrite Hen.
    unfold passes_of, initial_state, context_windows.
    destruct state as [[state_h state_c]|]; cbv beta iota zeta; cbn [fst snd];
      unfold bind at 1; rewrite infer_chunks_run; cbn [fst snd app];
      (match goal with |- context [passes ?a ?b ?c ?d ?e] => destruct (passes a b c d e) end);
      destruct rs; unfold bind, concatenate, raise, ret;
      cbn [map app fst snd]; rewrite ?app_nil_r; eauto. }
  destruct Hrun as [r ->]. done.
Qed.

(** *** Validation and feature extraction *)

Lemma rate_check sampling_rate :
  negb (Qle_bool (inject_Z (Z.abs (sampling_rate - model_sample_rate)))
                 (inject_Z model_sample_rate * (1 # 10))) = true
  <-> rate_off sampling_rate.
Proof.
  unfold rate_off, model_sample_rate.
  rewrite negb_true_iff, <- not_true_iff_false, Qle_bool_iff.
  unfold Qle. cbn [Qnum Qden inject_Z Qmult]. lia.
Qed.

Lemma extract_mfcc_rate_off audio sampling_rate self :
  rate_off sampling_rate ->
  extract_mfcc audio sampling_rate self
  = (Raise (Exn ValueError mono_message), self, []).
Proof.
  intros Hoff. apply rate_check in Hoff.
  unfold extract_mfcc, bind at 1. rewrite Hoff. reflexivity.
Qed.

Lemma extract_mfcc_no_axis audio sampling_rate self :
  ~ rate_off sampling_rate -> channels audio = None ->
  extract_mfcc audio sampling_rate self
  = (Raise (Exn IndexError "tuple index out of range"), self, []).
Proof.
  intros Hok Hch. rewrite <- rate_check in Hok. apply not_true_is_false in Hok.
  unfold extract_mfcc, bind at 1. rewrite Hok.
  unfold channels in Hch. unfold bind, tuple_index. rewrite Hch. reflexivity.
Qed.

Lemma extract_mfcc_channels audio sampling_rate self c :
  ~ rate_off sampling_rate -> channels audio = Some c -> c <> 1%nat ->
  extract_mfcc audio sampling_rate self
  = (Raise (Exn ValueError mono_message), self, []).
Proof.
  intros Hok Hch Hc. rewrite <- rate_check in Hok. apply not_true_is_false in Hok.
  unfold extract_mfcc, bind at 1. rewrite Hok.
  unfold channels in Hch. unfold bind, tuple_index, ret. rewrite Hch.
  cbv beta iota. apply Nat.eqb_neq in Hc. rewrite Hc. reflexivity.
Qed.

Lemma extract_mfcc_accepts audio sampling_rate self :
  ~ rate_off sampling_rate -> channels audio = Some 1%nat ->
  extract_mfcc audio sampling_rate self
  = match spectrogram_of audio sampling_rate with
    | [] => (Raise (Exn ValueError "cannot reshape array of size 0 into shape (1,0,newaxis)"),
             self, [spectrogram_event audio sampling_rate])
    | sp => (Ok (mfcc sp sampling_rate num_mfcc_dct_coefs), self,
             [spectrogram_event audio sampling_rate;
              EvMfcc sp sampling_rate num_mfcc_dct_coefs])
    end.
Proof.
  intros Hok Hch. rewrite <- rate_check in Hok. apply not_true_is_false in Hok.
  unfold extract_mfcc, bind at 1. rewrite Hok.
  unfold channels in Hch. unfold bind at 1, tuple_index, ret. rewrite Hch.
  cbv beta iota. rewrite Nat.eqb_refl. cbn [negb].
  unfold spectrogram_of, spectrogram_event.
  destruct (audio_spectrogram _ _ _ _); reflexivity.
Qed.

(** Validation has four ways out. *)
Lemma extract_mfcc_cases audio sampling_rate :
  rate_off sampling_rate
  \/ (~ rate_off sampling_rate /\ channels audio = None)
  \/ (~ rate_off sampling_rate /\ exists c, channels audio = Some c /\ c <> 1%nat)
  \/ (~ rate_off sampling_rate /\ channels audio = Some 1%nat).
Proof.
  destruct (decide (rate_off sampling_rate)) as [|Hok]; [by left|right].
  destruct (channels audio) as [c|] eqn:Hc; [|by left].
  right. destruct (decide (c = 1%nat)) as [->|]; [by right|left; eauto].
Qed.

Lemma extract_mfcc_self audio sampling_rate self :
  self_of (extract_mfcc audio sampling_rate self) = self.
Proof.
  destruct (extract_mfcc_cases audio sampling_rate)
    as [Hoff|[[Hok Hch]|[[Hok (c & Hch & Hc)]|[Hok Hch]]]].
  - by rewrite extract_mfcc_rate_off.
  - by rewrite extract_mfcc_no_axis.
  - by rewrite (extract_mfcc_channels _ _ _ c).
  - rewrite extract_mfcc_accepts by done. by destruct (spectrogram_of _ _).
Qed.

Lemma extract_mfcc_no_inference audio sampling_rate self :
  infer_calls (events_of (extract_mfcc audio sampling_rate self)) = [].
Proof.
  destruct (extract_mfcc_cases audio sampling_rate)
    as [Hoff|[[Hok Hch]|[[Hok (c & Hch & Hc)]|[Hok Hch]]]].
  - by rewrite extract_mfcc_rate_off.
  - by rewrite extract_mfcc_no_axis.
  - by rewrite (extract_mfcc_channels _ _ _ c).
  - rewrite extract_mfcc_accepts by done. by destruct (spectrogram_of _ _).
Qed.

(** *** [recognize_audio], step by step *)

Lemma recognize_audio_unfold audio sampling_rate self :
  recognize_audio audio sampling_rate self
  = match extract_mfcc audio sampling_rate self with
    | (Raise e, s1, evs1) => (Raise e, s1, evs1)
    | (Ok feats, s1, evs1) =>
        match extract_per_frame_probs feats None false s1 with
        | (Raise e, s2, evs2) => (Raise e, s2, evs1 ++ evs2)
        | (Ok probs, s2, evs2) =>
            (Ok (decode (decoder s2) probs), s2, evs1 ++ evs2 ++ [EvDecode probs])
        end
    end.
Proof.
  unfold recognize_audio, bind at 1.
  destruct (extract_mfcc audio sampling_rate self) as [[[feats|e] s1] evs1]; [|done].
  unfold bind at 1.
  destruct (extract_per_frame_probs feats None false s1) as [[[probs|e] s2] evs2]; [|done].
  unfold decode_probs, bind, get, emit, ret. cbn [app]. done.
Qed.

Lemma mono_message_eq : mono_message = "Input audio file should be 16.0 kHz mono".
Proof. reflexivity. Qed.

(** What [recognize_audio] does once the audio is accepted and features
    came back. *)
Lemma recognize_audio_features audio sampling_rate self feats evs1 :
  extract_mfcc audio sampling_rate self = (Ok feats, self, evs1) ->
  recognize_audio audio sampling_rate self
  = match exec_net self with
    | None => (Raise (Exn AssertionError activation_message), self, evs1)
    | Some en =>
        match passes_of en feats None with
        | [] => (Raise (Exn ValueError "need at least one array to concatenate"),
                 self, evs1)
        | ps => (Ok (decode (decoder self) (concat (map (pass_logits en) ps))), self,
                 evs1 ++ map (pass_event en) ps
                 ++ [EvDecode (concat (map (pass_logits en) ps))])
        end
    end.
Proof.
  intros Hm. rewrite recognize_audio_unfold, Hm.
  destruct (exec_net self) as [en|] eqn:Hen.
  - rewrite (extract_per_frame_probs_run _ _ _ en) by done.
    destruct (passes_of en feats None); [by rewrite app_nil_r|done].
  - rewrite extract_per_frame_probs_unactivated by done. by rewrite app_nil_r.
Qed.

(** Whatever [extract_mfcc] does, it hands [self] back: its outcome with
    the events. *)
Lemma extract_mfcc_eta audio sampling_rate self :
  extract_mfcc audio sampling_rate self
  = (outcome_of (extract_mfcc audio sampling_rate self), self,
     events_of (extract_mfcc audio sampling_rate self)).
Proof.
  pose proof (extract_mfcc_self audio sampling_rate self) as Hs.
  destruct (extract_mfcc audio sampling_rate self) as [[r s] evs].
  unfold self_of in Hs. cbn in Hs. by subst.
Qed.

Lemma recognize_audio_self audio sampling_rate self :
  self_of (recognize_audio audio sampling_rate self) = self.
Proof.
  destruct (outcome_of (extract_mfcc audio sampling_rate self)) as [feats|e] eqn:Ho.
  - rewrite (recognize_audio_features _ _ _ feats
               (events_of (extract_mfcc audio sampling_rate self)))
      by (by rewrite <- Ho, <- extract_mfcc_eta).
    destruct (exec_net self); [|done]. by destruct (passes_of _ _ _).
  - rewrite recognize_audio_unfold, extract_mfcc_eta, Ho. done.
Qed.

Lemma after_calls_self calls self : after_calls calls self = self.
Proof.
  unfold after_calls. revert self.
  induction calls as [|call calls IH]; intros self; [done|].
  cbn [fold_left]. by rewrite recognize_audio_self.
Qed.

Lemma recognize_audio_infer_calls audio sampling_rate self :
  infer_calls (events_of (recognize_audio audio sampling_rate self))
  = match outcome_of (extract_mfcc audio sampling_rate self), exec_net self with
    | Ok feats, Some en => passes_of en feats None
    | _, _ => []
    end.
Proof.
  pose proof (extract_mfcc_no_inference audio sampling_rate self) as Hq.
  destruct (outcome_of (extract_mfcc audio sampling_rate self)) as [feats|e] eqn:Ho.
  - rewrite (recognize_audio_features _ _ _ feats
               (events_of (extract_mfcc audio sampling_rate self)))
      by (by rewrite <- Ho, <- extract_mfcc_eta).
    destruct (exec_net self) as [en|]; [|done].
    destruct (passes_of en feats None) as [|p ps] eqn:Hp; [done|].
    unfold events_of at 1. cbn [snd].
    rewrite !infer_calls_app, Hq, infer_calls_pass_events. cbn.
    by rewrite app_nil_r.
  - rewrite recognize_audio_unfold, extract_mfcc_eta, Ho. done.
Qed.

Lemma recognize_audio_infer_targets audio sampling_rate self :
  infer_targets (events_of (recognize_audio audio sampling_rate self))
  = match outcome_of (extract_mfcc audio sampling_rate self), exec_net self with
    | Ok feats, Some en => map (fun _ => en) (passes_of en feats None)
    | _, _ => []
    end.
Proof.
  assert (Hq : infer_targets (events_of (extract_mfcc audio sampling_rate self)) = []).
  { destruct (extract_mfcc_cases audio sampling_rate)
      as [Hoff|[[Hok Hch]|[[Hok (c & Hch & Hc)]|[Hok Hch]]]].
    - by rewrite extract_mfcc_rate_off.
    - by rewrite extract_mfcc_no_axis.
    - by rewrite (extract_mfcc_channels _ _ _ c).
    - rewrite extract_mfcc_accepts by done. by destruct (spectrogram_of _ _). }
  destruct (outcome_of (extract_mfcc audio sampling_rate self)) as [feats|e] eqn:Ho.
  - rewrite (recognize_audio_features _ _ _ feats
               (events_of (extract_mfcc audio sampling_rate self)))
      by (by rewrite <- Ho, <- extract_mfcc_eta).
    destruct (exec_net self) as [en|]; [|done].
    destruct (passes_of en feats None) as [|p ps] eqn:Hp; [done|].
    unfold events_of at 1. cbn [snd].
    rewrite !infer_targets_app, Hq, infer_targets_pass_events. cbn.
    by rewrite app_nil_r.
  - rewrite recognize_audio_unfold, extract_mfcc_eta, Ho. done.
Qed.

(** *** The recurrent state of a call *)

(** C1.  [recognize_audio] leaves the object as it found it, the first
    forward pass of a call is given the all-zero hidden and cell vectors
    ([np.zeros((1, 2048))]), and a call made after any series of earlier
    [recognize_audio] calls on the same object does exactly what it does
    on the object as it was: events and outcome depend on the object and
    the arguments of the call alone. *)
Theorem recognize_audio_state_reset (self : Pipeline) (audio : ndarray)
    (sampling_rate : Z) :
  self_of (recognize_audio audio sampling_rate self) = self /\
  match infer_calls (events_of (recognize_audio audio sampling_rate self)) with
  | [] => True
  | (previous_state_c, previous_state_h, _) :: _ =>
      previous_state_c = zeros 2048 /\ previous_state_h = zeros 2048
  end /\
  forall earlier : list (ndarray * Z),
    recognize_audio audio sampling_rate (after_calls earlier self)
    = recognize_audio audio sampling_rate self.
Proof.
  split; [apply recognize_audio_self|]. split.
  - rewrite recognize_audio_infer_calls.
    destruct (outcome_of (extract_mfcc audio sampling_rate self)) as [feats|]; [|done].
    destruct (exec_net self) as [en|]; [|done].
    unfold passes_of.
    pose proof (passes_first en (context_windows feats)
                  (range0 (length (context_windows feats)) num_batch_frames)
                  (initial_state None).1 (initial_state None).2) as Hfirst.
    destruct (passes _ _ _ _ _) as [|[[c h] chunk] ps]; [done|].
    cbn in Hfirst. destruct Hfirst as [-> ->]. done.
  - intros earlier. by rewrite after_calls_self.
Qed.

(** *** Validation *)

(** C2.  [extract_mfcc], and with it [recognize_audio], raises the
    ValueError "Input audio file should be 16.0 kHz mono" exactly when the
    sampling rate is further than 1600 Hz from 16000 Hz or the axis the
    validation reads has a length other than 1; nothing has been computed
    and nothing has changed when it does.  (An array without axes has no
    such axis: with an acceptable rate it runs into an IndexError
    instead.) *)
Theorem extract_mfcc_validation (self : Pipeline) (audio : ndarray)
    (sampling_rate : Z) :
  let rejected :=
    rate_off sampling_rate \/ exists c, channels audio = Some c /\ c <> 1%nat in
  let error := Exn ValueError "Input audio file should be 16.0 kHz mono" in
  (outcome_of (extract_mfcc audio sampling_rate self) = Raise error <-> rejected) /\
  (outcome_of (recognize_audio audio sampling_rate self) = Raise error <-> rejected) /\
  (rejected ->
   extract_mfcc audio sampling_rate self = (Raise error, self, []) /\
   recognize_audio audio sampling_rate self = (Raise error, self, [])).
Proof.
  intros rejected error.
  assert (Hrej : rejected ->
    extract_mfcc audio sampling_rate self = (Raise error, self, [])).
  { intros [Hoff|(c & Hch & Hc)].
    - by rewrite extract_mfcc_rate_off.
    - destruct (decide (rate_off sampling_rate)).
      + by rewrite extract_mfcc_rate_off.
      + by rewrite (extract_mfcc_channels _ _ _ c). }
  assert (Hacc : ~ rejected ->
    outcome_of (extract_mfcc audio sampling_rate self) <> Raise error /\
    outcome_of (recognize_audio audio sampling_rate self) <> Raise error).
  { intros Hnot.
    destruct (extract_mfcc_cases audio sampling_rate)
      as [Hoff|[[Hok Hch]|[[Hok (c & Hch & Hc)]|[Hok Hch]]]].
    - destruct Hnot. by left.
    - rewrite recognize_audio_unfold, extract_mfcc_no_axis by done. done.
    - destruct Hnot. right. eauto.
    - destruct (spectrogram_of audio sampling_rate) as [|row sp] eqn:Hsp.
      + rewrite recognize_audio_unfold, extract_mfcc_accepts, Hsp by done. done.
      + erewrite recognize_audio_features;
          [|by rewrite extract_mfcc_accepts, Hsp by done].
        rewrite extract_mfcc_accepts, Hsp by done.
        split; [done|].
        destruct (exec_net self); [|done]. by destruct (passes_of _ _ _). }
  assert (Hdec : rejected \/ ~ rejected).
  { destruct (extract_mfcc_cases audio sampling_rate)
      as [Hoff|[[Hok Hch]|[[Hok (c & Hch & Hc)]|[Hok Hch]]]].
    - left. by left.
    - right. intros [?|(c & Hc & ?)]; [done|congruence].
    - left. right. eauto.
    - right. intros [?|(c & Hc & ?)]; [done|congruence]. }
  split; [|split].
  - split; [|by intros Hr; rewrite Hrej].
    intros Hraise. destruct Hdec as [|Hnot]; [done|].
    by destruct (Hacc Hnot).
  - split; [|by intros Hr; rewrite recognize_audio_unfold, Hrej].
    intros Hraise. destruct Hdec as [|Hnot]; [done|].
    by destruct (Hacc Hnot).
  - intros Hr. split; [by apply Hrej|].
    by rewrite recognize_audio_unfold, Hrej.
Qed.

(** *** Activation *)

Lemma activate_model_active self en device :
  exec_net self = Some en -> activate_model device self = (Ok tt, self, []).
Proof.
  intros Hen. unfold activate_model, bind, get. cbv beta iota. by rewrite Hen.
Qed.

Lemma after_activations_active self en devices :
  exec_net self = Some en -> after_activations devices self = self.
Proof.
  intros Hen. unfold after_activations.
  induction devices as [|device devices IH]; [done|].
  cbn [fold_left]. by rewrite (activate_model_active _ en).
Qed.

(** C3.  On an object that has an execution network, [activate_model]
    returns at once, whatever the device: no field changes and the engine
    is not asked for anything.  So it is after any number of such calls,
    and [recognize_audio] runs as before, each forward pass on the
    execution network bound first. *)
Theorem activate_model_latched (self : Pipeline) (en : ExecNet) (device : string) :
  exec_net self = Some en ->
  activate_model device self = (Ok tt, self, []) /\
  (forall devices, after_activations devices self = self) /\
  (forall devices audio sampling_rate,
     recognize_audio audio sampling_rate (after_activations devices self)
     = recognize_audio audio sampling_rate self /\
     Forall (fun target => target = en)
       (infer_targets (events_of (recognize_audio audio sampling_rate
                                    (after_activations devices self))))).
Proof.
  intros Hen. split; [by apply (activate_model_active _ en)|].
  split; [intros; by apply (after_activations_active _ en)|].
  intros devices audio sampling_rate.
  rewrite (after_activations_active _ en) by done. split; [done|].
  rewrite recognize_audio_infer_targets, Hen.
  destruct (outcome_of _); [|by constructor].
  apply Forall_forall. intros target Hin.
  apply list_elem_of_fmap in Hin as (p & -> & _). done.
Qed.

(** *** Use before activation *)

Lemma add_extensions_exec_net ie_extensions self :
  exists self' evs,
    add_extensions ie_extensions self = (Ok tt, self', evs) /\
    exec_net self' = exec_net self.
Proof.
  unfold add_extensions.
  match goal with |- context [for_items _ _ ?f] => set (body := f) end.
  revert self.
  induction ie_extensions as [|[extension_device [fname|]] rest IH]; intros self.
  - by exists self, [].
  - cbn [for_items]. unfold bind at 1.
    change (body (extension_device, Some fname) self)
      with (Ok tt,
            set_ie {| extensions := extensions (ie self) ++ [(fname, extension_device)] |} self,
            [EvAddExtension fname extension_device]).
    cbv beta iota.
    destruct (IH (set_ie {| extensions := extensions (ie self) ++ [(fname, extension_device)] |} self))
      as (self' & evs & -> & Hen).
    eauto.
  - cbn [for_items]. unfold bind at 1.
    change (body (extension_device, None) self) with (Ok tt, self, @nil event).
    cbv beta iota.
    destruct (IH self) as (self' & evs & -> & Hen). eauto.
Qed.

Lemma init_without_device model model_bin lm alphabet beam_width alpha beta ie
    ie_extensions self evs :
  __init__ model model_bin lm alphabet beam_width alpha beta ie None ie_extensions
  = (Ok self, evs) ->
  exec_net self = None.
Proof.
  unfold __init__, _load_net. unfold bind at 1, bind at 1.
  match goal with |- context [add_extensions _ ?s0] =>
    destruct (add_extensions_exec_net ie_extensions s0) as (self' & evs' & -> & Hen)
  end.
  unfold bind, get, emit, put, ret. cbv beta iota. cbn [app].
  intros [= <- _]. exact Hen.
Qed.

(** C4, as the code has it.  On an object built with [device=None] and
    never activated, [extract_per_frame_probs] fails with the
    AssertionError "Need to call mds.activate(device) method before
    mds.stt(...)", and so does [recognize_audio] whenever [extract_mfcc]
    accepts the audio and returns features; the events are then those of
    the feature extraction.  No forward pass is made, whatever the audio. *)
Theorem recognize_before_activation model model_bin lm alphabet beam_width alpha
    beta ie ie_extensions (self : Pipeline) (evs0 : list event) :
  __init__ model model_bin lm alphabet beam_width alpha beta ie None ie_extensions
  = (Ok self, evs0) ->
  let error := Exn AssertionError
                 "Need to call mds.activate(device) method before mds.stt(...)" in
  (forall feats state return_state,
     extract_per_frame_probs feats state return_state self = (Raise error, self, [])) /\
  (forall audio sampling_rate feats evs,
     extract_mfcc audio sampling_rate self = (Ok feats, self, evs) ->
     recognize_audio audio sampling_rate self = (Raise error, self, evs)) /\
  (forall audio sampling_rate,
     infer_calls (events_of (recognize_audio audio sampling_rate self)) = []).
Proof.
  intros Hinit error. apply init_without_device in Hinit as Hnone.
  split; [|split].
  - intros. by apply extract_per_frame_probs_unactivated.
  - intros audio sampling_rate feats evs Hm.
    by rewrite (recognize_audio_features _ _ _ _ _ Hm), Hnone.
  - intros. rewrite recognize_audio_infer_calls, Hnone. by destruct (outcome_of _).
Qed.

(** *** Normalization of the samples *)

Lemma sample_in_unit_range (x : Z) :
  (-1 <= inject_Z x / inject_Z 32768 <= 1)%Q <-> (-32768 <= x <= 32768)%Z.
Proof.
  unfold Qle, Qdiv, Qmult, Qinv, inject_Z. cbn [Qnum Qden]. lia.
Qed.

(** C6, as the code has it.  Every sample of an array with an integer dtype
    is divided by 32768; the quotient lies in [-1, 1] exactly when the
    sample lies in [-32768, 32768], as every 16-bit sample does.  The
    samples of a floating array are left as they are.  These are the
    samples [audio_spectrogram] is given. *)
Theorem extract_mfcc_normalization :
  (forall dt xs,
     normalize (IntSamples dt xs) = map (fun x => (inject_Z x / inject_Z 32768)%Q) xs) /\
  (forall x, (-1 <= inject_Z x / inject_Z 32768 <= 1)%Q <-> (-32768 <= x <= 32768)%Z) /\
  (forall xs, Forall (in_range int16) xs ->
     Forall (fun q => (-1 <= q <= 1)%Q) (normalize (IntSamples int16 xs))) /\
  (forall dt xs, normalize (FloatSamples dt xs) = xs) /\
  (forall self audio sampling_rate,
     ~ rate_off sampling_rate -> channels audio = Some 1%nat ->
     hd_error (events_of (extract_mfcc audio sampling_rate self))
     = Some (EvSpectrogram (normalize (data audio))
               (inject_Z sampling_rate * (32 # 1000))
               (inject_Z sampling_rate * (20 # 1000)))).
Proof.
  split; [done|]. split; [apply sample_in_unit_range|]. split; [|split; [done|]].
  - intros xs Hxs. cbn [normalize]. apply Forall_fmap.
    eapply Forall_impl; [exact Hxs|].
    intros x [Hlo Hhi]. cbn in Hlo, Hhi. apply sample_in_unit_range. lia.
  - intros self audio sampling_rate Hok Hch.
    rewrite extract_mfcc_accepts by done.
    by destruct (spectrogram_of audio sampling_rate).
Qed.

(** *** Padding and batches *)

Lemma context_windows_eq feats :
  context_windows feats
  = map (fun i => take 19 (drop i (edge_padding ++ feats ++ edge_padding)))
        (seq 0 (length feats)).
Proof.
  unfold context_windows, as_strided.
  rewrite !length_app, edge_padding_length. unfold num_context_frames.
  by replace (9 + (length feats + 9) + 1 - 19)%nat with (length feats) by lia.
Qed.

Lemma passes_of_chunks en feats state :
  map snd (passes_of en feats state)
  = map (chunk_at (context_windows feats)) (range0 (length feats) num_batch_frames).
Proof.
  unfold passes_of. by rewrite passes_chunks, context_windows_length.
Qed.

(** C7, as the code has it.  The feature sequence gets 9 zero frames
    ([num_context_frames // 2]) before it and 9 after it, 18 in all, so
    that there is one window of 19 frames per frame of the input; the
    windows go to the network 16 at a time, and a batch with fewer than 16
    windows, which only the last can be, is filled up to 16 with all-zero
    windows. *)
Theorem extract_per_frame_probs_padding (self : Pipeline) (en : ExecNet)
    (feats : list frame) (state : option lstm_state) (return_state : bool) :
  exec_net self = Some en ->
  let padded := edge_padding ++ feats ++ edge_padding in
  let inputs := map snd (infer_calls (events_of
                  (extract_per_frame_probs feats state return_state self))) in
  edge_padding = repeat (repeat 0%Q 26) 9 /\
  length padded = (length feats + 18)%nat /\
  context_windows feats
    = map (fun i => take 19 (drop i padded)) (seq 0 (length feats)) /\
  inputs
    = map (fun i =>
             let chunk := take 16 (drop i (context_windows feats)) in
             chunk ++ repeat (repeat (repeat 0%Q 26) 19) (16 - length chunk))
          (range0 (length feats) 16) /\
  Forall (fun chunk => length chunk = 16%nat) inputs.
Proof.
  intros Hen padded inputs.
  assert (Hin : inputs
    = map (chunk_at (context_windows feats)) (range0 (length feats) num_batch_frames)).
  { unfold inputs.
    destruct (extract_per_frame_probs_events feats state return_state self en Hen)
      as [_ ->].
    by rewrite infer_calls_pass_events, passes_of_chunks. }
  split; [done|]. split.
  { unfold padded. rewrite !length_app, edge_padding_length. lia. }
  split; [apply context_windows_eq|]. split.
  - rewrite Hin. apply map_ext. intros i. apply chunk_at_eq.
  - rewrite Hin. apply Forall_fmap, Forall_forall. intros i _.
    apply chunk_at_length.
Qed.

(** *** The rows of the probability matrix *)

Lemma pass_logits_rows en ps :
  (forall c h chunk, length (logits (infer en c h chunk)) = length chunk) ->
  Forall (fun p => length p.2 = num_batch_frames) ps ->
  length (concat (map (pass_logits en) ps)) = (num_batch_frames * length ps)%nat.
Proof.
  intros Hrows Hps. induction Hps as [|p ps Hp _ IH]; [cbn; lia|].
  cbn [map concat length]. rewrite length_app, IH.
  unfold pass_logits. rewrite Hrows, Hp. lia.
Qed.

Lemma passes_of_batches en feats state :
  Forall (fun p => length p.2 = num_batch_frames) (passes_of en feats state).
Proof.
  apply Forall_forall. intros p Hp.
  assert (Hin : p.2 ∈ map snd (passes_of en feats state)).
  { apply list_elem_of_fmap. eauto. }
  rewrite passes_of_chunks in Hin.
  apply list_elem_of_fmap in Hin as (i & -> & _). apply chunk_at_length.
Qed.

Lemma passes_of_length en feats state :
  length (passes_of en feats state) = ((length feats + 15) / 16)%nat.
Proof.
  unfold passes_of.
  rewrite passes_length, range0_length, context_windows_length.
  unfold num_batch_frames. f_equal. lia.
Qed.

Lemma decoded_app evs1 evs2 : decoded (evs1 ++ evs2) = decoded evs1 ++ decoded evs2.
Proof. unfold decoded. by rewrite flat_map_app. Qed.

Lemma decoded_pass_events en ps : decoded (map (pass_event en) ps) = [].
Proof. induction ps as [|p ps IH]; [done|]. cbn. exact IH. Qed.

Lemma extract_mfcc_decodes_nothing audio sampling_rate self :
  decoded (events_of (extract_mfcc audio sampling_rate self)) = [].
Proof.
  destruct (extract_mfcc_cases audio sampling_rate)
    as [Hoff|[[Hok Hch]|[[Hok (c & Hch & Hc)]|[Hok Hch]]]].
  - by rewrite extract_mfcc_rate_off.
  - by rewrite extract_mfcc_no_axis.
  - by rewrite (extract_mfcc_channels _ _ _ c).
  - rewrite extract_mfcc_accepts by done. by destruct (spectrogram_of _ _).
Qed.

Lemma rounded_up (n : nat) :
  (n <= 16 * ((n + 15) / 16))%nat /\
  (n mod 16 <> 0 -> n < 16 * ((n + 15) / 16))%nat /\
  (n <> 0 -> 0 < (n + 15) / 16)%nat.
Proof.
  pose proof (Nat.div_mod_eq n 16). pose proof (Nat.mod_upper_bound n 16).
  pose proof (Nat.div_mod_eq (n + 15) 16).
  pose proof (Nat.mod_upper_bound (n + 15) 16).
  lia.
Qed.

(** C9.  With a network that answers one row per window of its batch, the
    matrix [extract_per_frame_probs] returns for [n] context windows, one
    per frame of a non-empty input, has [16 * ceil(n / 16)] rows: the rows
    answered for the zero windows that fill the last batch stay in it.  So
    it has at least [n] rows, and more when 16 does not divide [n].  This
    is the matrix [recognize_audio] hands to the decoder. *)
Theorem extract_per_frame_probs_rows (self : Pipeline) (en : ExecNet)
    (feats : list frame) :
  exec_net self = Some en ->
  (forall target c h chunk, length (logits (infer target c h chunk)) = length chunk) ->
  feats <> [] ->
  let n := length (context_windows feats) in
  n = length feats /\
  (forall state, exists probs,
     outcome_of (extract_per_frame_probs feats state false self) = Ok probs /\
     length probs = (16 * ((n + 15) / 16))%nat /\
     (n <= length probs)%nat /\
     (n mod 16 <> 0 -> n < length probs)%nat) /\
  (forall audio sampling_rate,
     outcome_of (extract_mfcc audio sampling_rate self) = Ok feats ->
     exists probs,
       outcome_of (extract_per_frame_probs feats None false self) = Ok probs /\
       decoded (events_of (recognize_audio audio sampling_rate self)) = [probs] /\
       length probs = (16 * ((n + 15) / 16))%nat).
Proof.
  intros Hen Hrows Hne n.
  assert (Hn : n = length feats) by apply context_windows_length.
  assert (Hlen : forall state,
    length (concat (map (pass_logits en) (passes_of en feats state)))
    = (16 * ((n + 15) / 16))%nat).
  { intros state. rewrite pass_logits_rows by (auto using passes_of_batches).
    rewrite passes_of_length, Hn. done. }
  assert (Hsome : forall state, passes_of en feats state <> []).
  { intros state Hnil. apply (f_equal length) in Hnil.
    rewrite passes_of_length in Hnil. cbn [length] in Hnil.
    destruct (rounded_up (length feats)) as (_ & _ & Hpos).
    assert (length feats <> 0%nat) by (by destruct feats).
    lia. }
  destruct (rounded_up n) as (Hle & Hlt & _).
  split; [done|]. split.
  - intros state. exists (concat (map (pass_logits en) (passes_of en feats state))).
    rewrite (extract_per_frame_probs_run _ _ _ en) by done.
    specialize (Hsome state). specialize (Hlen state).
    destruct (passes_of en feats state) as [|p ps] eqn:Hp; [done|].
    rewrite Hlen. done.
  - intros audio sampling_rate Hm.
    exists (concat (map (pass_logits en) (passes_of en feats None))).
    rewrite (extract_per_frame_probs_run _ _ _ en) by done.
    rewrite (recognize_audio_features _ _ _ feats
               (events_of (extract_mfcc audio sampling_rate self)))
      by (by rewrite <- Hm, <- extract_mfcc_eta).
    rewrite Hen. specialize (Hsome None). specialize (Hlen None).
    destruct (passes_of en feats None) as [|p ps] eqn:Hp; [done|].
    split; [done|]. split; [|done].
    unfold events_of at 1. cbn [snd].
    rewrite !decoded_app, extract_mfcc_decodes_nothing, decoded_pass_events.
    done.
Qed.

End Facts.

(** *** The properties on the small network *)

#[local] Existing Instance toy_collaborators.

Lemma toy_rows target c h chunk :
  length (logits (infer target c h chunk)) = length chunk.
Proof. cbn. apply length_map. Qed.

(** A call on the activated object: one forward pass, from the zero state,
    and one hypothesis back. *)
Example recognize_audio_toy :
  outcome_of (recognize_audio toy_audio 16000 toy_pipeline) = Ok [(0%Q, "")] /\
  map fst (infer_calls (events_of (recognize_audio toy_audio 16000 toy_pipeline)))
  = [(zeros 2048, zeros 2048)].
Proof. split; vm_compute; reflexivity. Qed.

Lemma activate_model_latched_witness :
  exec_net toy_pipeline = Some {| exec_network := toy_net; exec_device := "CPU" |} /\
  activate_model "GPU" toy_pipeline = (Ok tt, toy_pipeline, []) /\
  after_activations ["GPU"; "MYRIAD"] toy_pipeline = toy_pipeline.
Proof.
  destruct (activate_model_latched toy_pipeline
              {| exec_network := toy_net; exec_device := "CPU" |} "GPU" eq_refl)
    as (Hreturn & Hlatch & _).
  split; [reflexivity|]. split; [exact Hreturn|exact (Hlatch ["GPU"; "MYRIAD"])].
Defined.

Lemma recognize_before_activation_witness :
  __init__ "/m/ds.xml" None None AlphabetDefault 500 (3 # 4) (37 # 20) None None []
  = (Ok toy_unactivated, [EvReadNetwork "/m/ds.xml" "/m/ds.bin"]) /\
  extract_per_frame_probs [zeros 26] None false toy_unactivated
  = (Raise (Exn AssertionError
              "Need to call mds.activate(device) method before mds.stt(...)"),
     toy_unactivated, []) /\
  infer_calls (events_of (recognize_audio toy_audio 16000 toy_unactivated)) = [].
Proof.
  assert (Hinit :
    __init__ "/m/ds.xml" None None AlphabetDefault 500 (3 # 4) (37 # 20) None None []
    = (Ok toy_unactivated, [EvReadNetwork "/m/ds.xml" "/m/ds.bin"])) by reflexivity.
  destruct (recognize_before_activation _ _ _ _ _ _ _ _ _ _ _ Hinit)
    as (Hprobs & _ & Hquiet).
  split; [exact Hinit|]. split; [apply Hprobs|apply Hquiet].
Defined.

(** C4, as stated, at a 44100 Hz input: on the object built with
    [device=None] the call fails in the validation, with the ValueError of
    [extract_mfcc] and not with the precondition error. *)
Lemma recognize_before_activation_rejects_first :
  __init__ "/m/ds.xml" None None AlphabetDefault 500 (3 # 4) (37 # 20) None None []
  = (Ok toy_unactivated, [EvReadNetwork "/m/ds.xml" "/m/ds.bin"]) /\
  recognize_audio toy_audio 44100 toy_unactivated
  = (Raise (Exn ValueError "Input audio file should be 16.0 kHz mono"),
     toy_unactivated, []) /\
  outcome_of (recognize_audio toy_audio 44100 toy_unactivated)
  <> Raise (Exn AssertionError
              "Need to call mds.activate(device) method before mds.stt(...)").
Proof. split; [reflexivity|]. split; [reflexivity|]. vm_compute. discriminate. Qed.

(** C6, as stated, at a 32-bit array: the sample 65536 is divided by 32768
    like any other and [audio_spectrogram] is given 2, outside [-1, 1]. *)
Lemma normalize_int32_exceeds_one :
  in_range int32 65536 /\
  issubdtype_integer (NdArray [1%nat] (IntSamples int32 [65536%Z])) = true /\
  normalize (IntSamples int32 [65536%Z]) = [(65536 # 32768)%Q] /\
  (1 < 65536 # 32768)%Q /\
  hd_error (events_of (extract_mfcc (NdArray [1%nat] (IntSamples int32 [65536%Z]))
                         16000 toy_pipeline))
  = Some (EvSpectrogram [(65536 # 32768)%Q] (512000 # 1000) (320000 # 1000)).
Proof.
  split; [by vm_compute|]. split; [reflexivity|]. split; [reflexivity|].
  split; reflexivity.
Qed.

(** C7, as stated, at a sequence of one frame: the padded sequence has 19
    frames, the frame and 18 of padding, 9 on each side. *)
Lemma edge_padding_is_18_frames :
  length (edge_padding ++ [repeat 1%Q 26] ++ edge_padding) = (1 + 18)%nat /\
  (length edge_padding + length edge_padding)%nat = 18%nat /\
  (length edge_padding + length edge_padding)%nat <> 19%nat /\
  map (hd []) (map snd (infer_calls (events_of
    (extract_per_frame_probs [repeat 1%Q 26] None false toy_pipeline))))
  = [repeat (zeros 26) 9 ++ [repeat 1%Q 26] ++ repeat (zeros 26) 9].
Proof.
  split; [reflexivity|]. split; [reflexivity|]. split; [by vm_compute|].
  vm_compute. reflexivity.
Qed.

Lemma extract_per_frame_probs_padding_witness :
  exec_net toy_pipeline = Some {| exec_network := toy_net; exec_device := "CPU" |} /\
  Forall (fun chunk => length chunk = 16%nat)
    (map snd (infer_calls (events_of
       (extract_per_frame_probs (repeat (zeros 26) 17) None false toy_pipeline)))).
Proof.
  destruct (extract_per_frame_probs_padding toy_pipeline
              {| exec_network := toy_net; exec_device := "CPU" |}
              (repeat (zeros 26) 17) None false eq_refl)
    as (_ & _ & _ & _ & Hbatches).
  split; [reflexivity|exact Hbatches].
Defined.

Lemma extract_per_frame_probs_rows_witness :
  exec_net toy_pipeline = Some {| exec_network := toy_net; exec_device := "CPU" |} /\
  exists probs,
    outcome_of (extract_per_frame_probs (repeat (zeros 26) 17) None false toy_pipeline)
    = Ok probs /\
    length probs = 32%nat.
Proof.
  assert (Hne : repeat (zeros 26) 17 <> []) by discriminate.
  destruct (extract_per_frame_probs_rows toy_pipeline
              {| exec_network := toy_net; exec_device := "CPU" |}
              (repeat (zeros 26) 17) eq_refl toy_rows Hne)
    as (_ & Hrows & _).
  destruct (Hrows None) as (probs & Hprobs & Hlen & _).
  split; [reflexivity|]. exists probs. split; [exact Hprobs|exact Hlen].
Defined.

Lemma extract_mfcc_validation_witness :
  rate_off 44100 /\
  extract_mfcc toy_audio 44100 toy_pipeline
  = (Raise (Exn ValueError "Input audio file should be 16.0 kHz mono"), toy_pipeline, []) /\
  recognize_audio toy_audio 44100 toy_pipeline
  = (Raise (Exn ValueError "Input audio file should be 16.0 kHz mono"), toy_pipeline, []).
Proof.
  assert (Hoff : rate_off 44100) by (unfold rate_off; lia).
  destruct (extract_mfcc_validation toy_pipeline toy_audio 44100) as (_ & _ & Hrej).
  split; [exact Hoff|]. apply Hrej. left. exact Hoff.
Defined.

(** Two channels at the right rate are rejected as well; an array without
    axes at the right rate is not validated at all. *)
Example extract_mfcc_stereo :
  outcome_of (extract_mfcc (NdArray [2%nat; 2%nat] (IntSamples int16 [1; 2; 3; 4]%Z))
                16000 toy_pipeline)
  = Raise (Exn ValueError "Input audio file should be 16.0 kHz mono").
Proof. reflexivity. Qed.

Example extract_mfcc_scalar :
  extract_mfcc (NdArray [] (IntSamples int16 [1]%Z)) 16000 toy_pipeline
  = (Raise (Exn IndexError "tuple index out of range"), toy_pipeline, []).
Proof. reflexivity. Qed.

Lemma extract_mfcc_normalization_witness :
  Forall (in_range int16) [16384; -32768; 0]%Z /\
  Forall (fun q => (-1 <= q <= 1)%Q)
    (normalize (IntSamples int16 [16384; -32768; 0]%Z)).
Proof.
  assert (Hxs : Forall (in_range int16) [16384; -32768; 0]%Z).
  { repeat constructor; cbn; lia. }
  destruct extract_mfcc_normalization as (_ & _ & Hrange & _).
  split; [exact Hxs|exact (Hrange _ Hxs)].
Defined.

End DeepSpeechFacts.

(** ** The gallery sync script *)

Module GallerySyncFacts.
Import GallerySync.

(** *** Sequencing and loops *)

Section Sequencing.
Context {S E : Type}.

Lemma bind_ok {A B} (m : M S E A) (k : A -> M S E B) s b s' evs :
  bind m k s = (Ok b, s', evs) ->
  exists a s1 evs1 evs2,
    m s = (Ok a, s1, evs1) /\ k a s1 = (Ok b, s', evs2) /\ evs = evs1 ++ evs2.
Proof.
  unfold bind. destruct (m s) as [[[a|e] s1] evs1]; [|done].
  destruct (k a s1) as [[r s2] evs2] eqn:Hk. intros [= -> -> <-].
  by exists a, s1, evs1, evs2.
Qed.

Lemma bind_run {A B} (m : M S E A) (k : A -> M S E B) s a s1 evs1 :
  m s = (Ok a, s1, evs1) ->
  bind m k s = ((k a s1).1.1, (k a s1).1.2, evs1 ++ (k a s1).2).
Proof. unfold bind. intros ->. by destruct (k a s1) as [[r s2] evs2]. Qed.

Lemma bind_raise {A B} (m : M S E A) (k : A -> M S E B) s e s1 evs1 :
  m s = (Raise e, s1, evs1) -> bind m k s = (Raise e, s1, evs1).
Proof. unfold bind. by intros ->. Qed.

(** A loop whose body raises stops there: what remains is not looked at. *)
Lemma for_items_raise {A} (body : A -> M S E unit) x rest stop s e s' evs :
  body x s = (Raise e, s', evs) ->
  for_items (x :: rest) stop body s = (Raise e, s', evs).
Proof. intros Hx. cbn [for_items]. by apply bind_raise. Qed.

(** A loop whose body returns goes on with what remains. *)
Lemma for_items_continue {A} (body : A -> M S E unit) x rest stop s s' evs :
  body x s = (Ok tt, s', evs) ->
  for_items (x :: rest) stop body s
  = ((for_items rest stop body s').1.1, (for_items rest stop body s').1.2,
     evs ++ (for_items rest stop body s').2).
Proof. intros Hx. cbn [for_items]. by rewrite (bind_run _ _ _ _ _ _ Hx). Qed.

(** What a loop that came to its end has done, when each round that
    returns is summed up by [R] and [R] composes. *)
Lemma for_items_ok {A X} (body : A -> M S E unit) (g : A -> list X)
    (R : list X -> S -> S -> Prop) :
  (forall s, R [] s s) ->
  (forall l1 l2 s s1 s2, R l1 s s1 -> R l2 s1 s2 -> R (l1 ++ l2) s s2) ->
  (forall x s s' evs, body x s = (Ok tt, s', evs) -> R (g x) s s') ->
  forall xs stop s s' evs,
    for_items xs stop body s = (Ok tt, s', evs) ->
    stop = None /\ R (flat_map g xs) s s'.
Proof.
  intros Hnil Happ Hbody xs stop. induction xs as [|x rest IH]; intros s s' evs.
  - cbn. destruct stop; [done|]. intros [= <- _]. auto.
  - cbn [for_items flat_map]. intros Hrun.
    apply bind_ok in Hrun as ([] & s1 & evs1 & evs2 & Hx & Hrest & _).
    destruct (IH _ _ _ Hrest) as [-> HR]. split; [done|].
    eapply Happ; [by eapply Hbody|done].
Qed.

End Sequencing.

(** *** One blob *)

Lemma absent_not_dir fs k : entry_exists fs k = false -> is_dir fs k = false.
Proof. unfold entry_exists. by intros [-> _]%orb_false_iff. Qed.

Lemma absent_not_file fs k : entry_exists fs k = false -> files fs !! k = None.
Proof.
  unfold entry_exists, is_file. intros [_ Hf]%orb_false_iff.
  apply bool_decide_eq_false in Hf. by apply eq_None_not_Some.
Qed.

(** *** What the walk finds *)

Lemma rev_removelast {A} (l : list A) : rev (removelast l) = tail (rev l).
Proof.
  destruct l as [|x l _] using rev_ind; [done|].
  by rewrite removelast_last, rev_app_distr.
Qed.

(** Every directory on the way to [cur] is there. *)
Definition chain (fs : FS) (cur : list string) : Prop :=
  forall n, is_dir fs (take n cur) = true.

Lemma chain_nil fs : chain fs [].
Proof. intros n. by rewrite take_nil. Qed.

Lemma chain_self fs cur : chain fs cur -> is_dir fs cur = true.
Proof. intros Hc. specialize (Hc (length cur)). by rewrite firstn_all in Hc. Qed.

Lemma chain_removelast fs cur : chain fs cur -> chain fs (removelast cur).
Proof.
  intros Hc n. rewrite removelast_firstn_len.
  change (firstn (Init.Nat.pred (length cur)) cur) with (take (Init.Nat.pred (length cur)) cur).
  rewrite take_take. apply Hc.
Qed.

Lemma chain_snoc fs cur c :
  chain fs cur -> is_dir fs (cur ++ [c]) = true -> chain fs (cur ++ [c]).
Proof.
  intros Hc Hd n. destruct (decide (n <= length cur)) as [Hle|Hgt].
  - rewrite take_app_le by done. apply Hc.
  - rewrite take_ge; [done|]. rewrite length_app. cbn. lia.
Qed.

Lemma namei_found fs comps :
  forall cur, chain fs cur ->
    (forall k, namei fs cur comps = Here k ->
       k = posixpath.walk (rev cur) comps /\ entry_exists fs k = true) /\
    (forall k, namei fs cur comps = Free k ->
       k = posixpath.walk (rev cur) comps /\ entry_exists fs k = false /\
       is_dir fs (removelast k) = true).
Proof.
  induction comps as [|c rest IH]; intros cur Hc; cbn [namei posixpath.walk].
  - split; [|done]. intros k [= <-]. rewrite rev_involutive. split; [done|].
    unfold entry_exists. by rewrite (chain_self _ _ Hc).
  - destruct (String.eqb c ""); [by apply IH|].
    destruct (String.eqb c "."); [by apply IH|].
    destruct (String.eqb c "..").
    { rewrite <- rev_removelast. by apply IH, chain_removelast. }
    cbv zeta. replace (c :: rev cur) with (rev (cur ++ [c])) by (by rewrite rev_app_distr).
    destruct (is_dir fs (cur ++ [c])) eqn:Hd; [by apply IH, chain_snoc|].
    destruct rest as [|c' rest'].
    + cbn [posixpath.walk]. rewrite rev_involutive.
      destruct (is_file fs (cur ++ [c])) eqn:Hf.
      * split; [|done]. intros k [= <-]. split; [done|].
        unfold entry_exists. by rewrite Hf, orb_true_r.
      * split; [done|]. intros k [= <-]. split; [done|].
        unfold entry_exists. rewrite Hd, Hf. split; [done|].
        rewrite removelast_last. by apply chain_self.
    + destruct (forallb _ _); [done|]. by destruct (is_file fs _).
Qed.

Lemma lookup_here fs p k :
  lookup_path fs p = Here k -> k = posixpath.resolve p /\ entry_exists fs k = true.
Proof.
  unfold lookup_path, posixpath.resolve. destruct (String.eqb p ""); [done|].
  apply (namei_found fs _ [] (chain_nil fs)).
Qed.

Lemma lookup_free fs p k :
  lookup_path fs p = Free k ->
  k = posixpath.resolve p /\ entry_exists fs k = false /\
  is_dir fs (removelast k) = true.
Proof.
  unfold lookup_path, posixpath.resolve. destruct (String.eqb p ""); [done|].
  apply (namei_found fs _ [] (chain_nil fs)).
Qed.

(** *** One blob *)

Lemma open_error_class found p : is_ResourceNotFoundError (open_error found p) = false.
Proof. by destruct found. Qed.

Lemma sync_blob_run local_path c b s :
  sync_blob local_path c b s =
  let p := posixpath.join local_path (blob_name b) in
  if path_exists s p then
    (Ok tt, s, blob_header local_path b ++ [Print "[ DEBUG ] File Exist! "])
  else
    let evs := blob_header local_path b
               ++ [Print "[ DEBUG ] File NOT Exist! Update New Image...";
                   Download (container_name c) (blob_name b)] in
    match download b with
    | Raise e =>
        if is_ResourceNotFoundError e
        then (Ok tt, s, evs ++ [Print "No blob found."])
        else (Raise e, s, evs)
    | Ok stream =>
        match lookup_path s p with
        | Free k => (Ok tt, {| files := <[k := stream]> (files s); dirs := dirs s |}, evs)
        | found => (Raise (open_error found p), s, evs)
        end
    end.
Proof.
  cbv zeta. unfold sync_blob, blob_header.
  unfold bind at 1, emit at 1. cbv beta iota.
  unfold bind at 1, emit at 1. cbv beta iota.
  unfold bind at 1, get. cbv beta iota.
  destruct (path_exists s _) eqn:Hex; [reflexivity|].
  unfold bind at 1, emit at 1. cbv beta iota.
  unfold try_except, bind at 1, emit at 1. cbv beta iota.
  unfold bind at 1, lift.
  destruct (download b) as [stream|e].
  - unfold ret at 1. cbv beta iota.
    unfold bind at 1, open_wb, bind at 1, get. cbv beta iota.
    unfold path_exists in Hex.
    destruct (lookup_path s _) as [k|k| | |] eqn:Hfound; [done| | | |].
    + unfold write, close, bind, put, ret, get. cbv beta iota. cbn [app files dirs].
      rewrite lookup_insert_eq, insert_insert_eq. done.
    + reflexivity.
    + reflexivity.
    + reflexivity.
  - unfold raise. cbv beta iota.
    destruct (is_ResourceNotFoundError e); reflexivity.
Qed.

Lemma entry_exists_file fs k c : files fs !! k = Some c -> entry_exists fs k = true.
Proof.
  intros Hk. unfold entry_exists, is_file. rewrite Hk.
  rewrite (bool_decide_eq_true_2 (is_Some (Some c))) by eauto.
  apply orb_true_r.
Qed.

Lemma entry_exists_same fs fs' k :
  dirs fs' = dirs fs -> files fs' !! k = files fs !! k ->
  entry_exists fs' k = entry_exists fs k.
Proof. unfold entry_exists, is_dir, is_file. by intros -> ->. Qed.

Lemma first_fetch_app env k l1 l2 :
  first_fetch env k (l1 ++ l2)
  = match first_fetch env k l1 with
    | Some content => Some content
    | None => first_fetch env k l2
    end.
Proof.
  induction l1 as [|b l1 IH]; [done|]. cbn [app first_fetch].
  destruct (download b) as [content|]; [|done].
  by destruct (bool_decide (entry_of env b = k)).
Qed.

Lemma mirrored_nil env fs : mirrored env [] fs fs.
Proof.
  split; [done|]. intros k. unfold expect. cbn [first_fetch].
  destruct (entry_exists fs k) eqn:Hk; [done|]. by apply absent_not_file.
Qed.

Lemma mirrored_app env l1 l2 fs fs1 fs2 :
  mirrored env l1 fs fs1 -> mirrored env l2 fs1 fs2 -> mirrored env (l1 ++ l2) fs fs2.
Proof.
  intros [Hd1 Hf1] [Hd2 Hf2]. split; [congruence|]. intros k.
  rewrite Hf2. unfold expect. specialize (Hf1 k). unfold expect in Hf1.
  rewrite first_fetch_app.
  destruct (entry_exists fs k) eqn:Hk.
  - rewrite (entry_exists_same fs fs1 k Hd1 Hf1), Hk. done.
  - destruct (first_fetch env k l1) as [content|] eqn:Hfetch.
    + by rewrite (entry_exists_file fs1 k content Hf1).
    + rewrite (entry_exists_same fs fs1 k Hd1) by (by rewrite Hf1, absent_not_file).
      by rewrite Hk.
Qed.

Lemma mirrored_skip env b s :
  (forall content, download b = Ok content -> entry_exists s (entry_of env b) = true) ->
  mirrored env [b] s s.
Proof.
  intros Hthere. split; [done|]. intros k. unfold expect. cbn [first_fetch].
  destruct (entry_exists s k) eqn:Hk; [done|]. rewrite absent_not_file by done.
  destruct (download b) as [content|]; [|done].
  rewrite bool_decide_eq_false_2; [done|]. intros Heq.
  rewrite <- Heq, (Hthere content eq_refl) in Hk. done.
Qed.

(** A blob that was gone through without an exception reaching the loop. *)
Lemma sync_blob_mirrored env c b s s' evs :
  sync_blob (mirror_root env) c b s = (Ok tt, s', evs) -> mirrored env [b] s s'.
Proof.
  rewrite sync_blob_run. cbv zeta. unfold path_exists.
  destruct (lookup_path s _) as [k|k| | |] eqn:Hfound.
  - apply lookup_here in Hfound as [-> Hex]. intros [= <- _].
    by apply mirrored_skip.
  - apply lookup_free in Hfound as (-> & Hex & _). fold (entry_of env b) in *.
    destruct (download b) as [stream|e] eqn:Hdl.
    + intros [= <- _]. split; [done|]. intros k. unfold expect.
      cbn [first_fetch files]. rewrite Hdl.
      destruct (decide (entry_of env b = k)) as [<-|Hne].
      * rewrite Hex, lookup_insert_eq. by rewrite bool_decide_eq_true_2.
      * rewrite lookup_insert_ne by done. rewrite bool_decide_eq_false_2 by done.
        destruct (entry_exists s k) eqn:Hk; [done|]. by apply absent_not_file.
    + destruct (is_ResourceNotFoundError e); [|done].
      intros [= <- _]. apply mirrored_skip. by rewrite Hdl.
  - destruct (download b) as [stream|e] eqn:Hdl; [done|].
    destruct (is_ResourceNotFoundError e); [|done].
    intros [= <- _]. apply mirrored_skip. by rewrite Hdl.
  - destruct (download b) as [stream|e] eqn:Hdl; [done|].
    destruct (is_ResourceNotFoundError e); [|done].
    intros [= <- _]. apply mirrored_skip. by rewrite Hdl.
  - destruct (download b) as [stream|e] eqn:Hdl; [done|].
    destruct (is_ResourceNotFoundError e); [|done].
    intros [= <- _]. apply mirrored_skip. by rewrite Hdl.
Qed.

(** *** Nothing that exists is touched *)

Lemma extends_refl fs : extends fs fs.
Proof. by split. Qed.

Lemma extends_trans fs1 fs2 fs3 : extends fs1 fs2 -> extends fs2 fs3 -> extends fs1 fs3.
Proof. intros [Hf1 Hd1] [Hf2 Hd2]. split; [auto|set_solver]. Qed.

Lemma extends_dir fs fs' k : extends fs fs' -> is_dir fs k = true -> is_dir fs' k = true.
Proof.
  intros [_ Hd]. unfold is_dir. intros Hk%bool_decide_eq_true.
  apply bool_decide_eq_true. destruct Hk; [by left|right; set_solver].
Qed.

Lemma extends_file fs fs' k : extends fs fs' -> is_file fs k = true -> is_file fs' k = true.
Proof.
  intros [Hf _]. unfold is_file. intros [c Hc]%bool_decide_eq_true.
  apply bool_decide_eq_true. rewrite (Hf _ _ Hc). eauto.
Qed.

Lemma extends_exists fs fs' k :
  extends fs fs' -> entry_exists fs k = true -> entry_exists fs' k = true.
Proof.
  intros Hext. unfold entry_exists.
  intros [Hdir|Hfile]%orb_true_iff; apply orb_true_iff.
  - left. by eapply extends_dir.
  - right. by eapply extends_file.
Qed.

(** What the walk found is still found when the tree has grown. *)
Lemma namei_extends fs fs' comps :
  extends fs fs' ->
  forall cur k, namei fs cur comps = Here k -> namei fs' cur comps = Here k.
Proof.
  intros Hext. induction comps as [|c rest IH]; intros cur k; cbn [namei]; [done|].
  destruct (String.eqb c ""); [apply IH|].
  destruct (String.eqb c "."); [apply IH|].
  destruct (String.eqb c ".."); [apply IH|].
  cbv zeta. destruct (is_dir fs (cur ++ [c])) eqn:Hd.
  { rewrite (extends_dir _ _ _ Hext Hd). apply IH. }
  destruct rest as [|c' rest'].
  - destruct (is_file fs (cur ++ [c])) eqn:Hf; [|done]. intros [= <-].
    destruct (is_dir fs' (cur ++ [c])); [done|].
    by rewrite (extends_file _ _ _ Hext Hf).
  - destruct (forallb _ _); [done|]. by destruct (is_file fs _).
Qed.

Lemma extends_path_exists fs fs' p :
  extends fs fs' -> path_exists fs p = true -> path_exists fs' p = true.
Proof.
  intros Hext. unfold path_exists, lookup_path.
  destruct (String.eqb p ""); [done|].
  destruct (namei fs [] _) as [k| | | |] eqn:Hfound; [|done..].
  intros _. by rewrite (namei_extends _ _ _ Hext _ _ Hfound).
Qed.

(** The file that was created where the walk found nothing is found. *)
Lemma namei_created fs comps :
  forall cur k content,
    namei fs cur comps = Free k ->
    namei {| files := <[k := content]> (files fs); dirs := dirs fs |} cur comps = Here k.
Proof.
  induction comps as [|c rest IH]; intros cur k content; cbn [namei]; [done|].
  destruct (String.eqb c ""); [apply IH|].
  destruct (String.eqb c "."); [apply IH|].
  destruct (String.eqb c ".."); [apply IH|].
  cbv zeta.
  change (is_dir {| files := <[k := content]> (files fs); dirs := dirs fs |} (cur ++ [c]))
    with (is_dir fs (cur ++ [c])).
  destruct (is_dir fs (cur ++ [c])) eqn:Hd; [apply IH|].
  destruct rest as [|c' rest'].
  - destruct (is_file fs (cur ++ [c])); [done|]. intros [= <-].
    unfold is_file. cbn [files]. rewrite lookup_insert_eq.
    by rewrite (bool_decide_eq_true_2 (is_Some (Some content))) by eauto.
  - destruct (forallb _ _); [done|]. by destruct (is_file fs _).
Qed.

Lemma lookup_created fs p k content :
  lookup_path fs p = Free k ->
  path_exists {| files := <[k := content]> (files fs); dirs := dirs fs |} p = true.
Proof.
  unfold path_exists, lookup_path. destruct (String.eqb p ""); [done|].
  intros Hfound. by rewrite (namei_created _ _ _ _ content Hfound).
Qed.

Lemma downloads_app evs1 evs2 : downloads (evs1 ++ evs2) = downloads evs1 ++ downloads evs2.
Proof. unfold downloads. by rewrite flat_map_app. Qed.

Lemma fetches_absent_nil local_path fs evs :
  downloads evs = [] -> fetches_absent local_path fs evs.
Proof. intros Hd c n. by rewrite Hd. Qed.

Lemma fetches_absent_app local_path fs fs' evs1 evs2 :
  extends fs fs' ->
  fetches_absent local_path fs evs1 -> fetches_absent local_path fs' evs2 ->
  fetches_absent local_path fs (evs1 ++ evs2).
Proof.
  intros Hext H1 H2 c n. rewrite downloads_app, in_app_iff. intros [Hin|Hin]; [eauto|].
  specialize (H2 c n Hin).
  destruct (path_exists fs _) eqn:Hex; [|done].
  by rewrite (extends_path_exists _ _ _ Hext Hex) in H2.
Qed.

(** The events of a blob that is asked for hold one download, its own. *)
Lemma downloads_attempted local_path c b more :
  downloads more = [] ->
  downloads ((blob_header local_path b
              ++ [Print "[ DEBUG ] File NOT Exist! Update New Image...";
                  Download (container_name c) (blob_name b)]) ++ more)
  = [(container_name c, blob_name b)].
Proof. intros Hmore. by rewrite !downloads_app, Hmore. Qed.

Section Safe.
Context (local_path : string).

Lemma mirror_safe_ret {A} (a : A) : mirror_safe local_path (ret a).
Proof. intros fs. split; [apply extends_refl|by apply fetches_absent_nil]. Qed.

Lemma mirror_safe_raise {A} e : mirror_safe local_path (raise (A:=A) e).
Proof. intros fs. split; [apply extends_refl|by apply fetches_absent_nil]. Qed.

Lemma mirror_safe_get : mirror_safe local_path get.
Proof. intros fs. split; [apply extends_refl|by apply fetches_absent_nil]. Qed.

Lemma mirror_safe_lift {A} (r : result A) : mirror_safe local_path (lift r).
Proof. destruct r; [apply mirror_safe_ret|apply mirror_safe_raise]. Qed.

Lemma mirror_safe_emit ev : downloads [ev] = [] -> mirror_safe local_path (emit ev).
Proof. intros Hev fs. split; [apply extends_refl|by apply fetches_absent_nil]. Qed.

Lemma mirror_safe_bind {A B} (m : IO A) (k : A -> IO B) :
  mirror_safe local_path m -> (forall a, mirror_safe local_path (k a)) ->
  mirror_safe local_path (bind m k).
Proof.
  intros Hm Hk fs. specialize (Hm fs). unfold bind.
  destruct (m fs) as [[[a|e] fs1] evs1]; [|done].
  specialize (Hk a fs1). destruct (k a fs1) as [[r fs2] evs2].
  cbn in *. destruct Hm as [He1 Hf1], Hk as [He2 Hf2].
  split; [by eapply extends_trans|by eapply fetches_absent_app].
Qed.

Lemma mirror_safe_try_except {A} (body : IO A) catches handler :
  mirror_safe local_path body -> (forall e, mirror_safe local_path (handler e)) ->
  mirror_safe local_path (try_except body catches handler).
Proof.
  intros Hm Hk fs. specialize (Hm fs). unfold try_except.
  destruct (body fs) as [[[a|e] fs1] evs1]; [done|].
  destruct (catches e); [|done].
  specialize (Hk e fs1). destruct (handler e fs1) as [[r fs2] evs2].
  cbn in *. destruct Hm as [He1 Hf1], Hk as [He2 Hf2].
  split; [by eapply extends_trans|by eapply fetches_absent_app].
Qed.

Lemma mirror_safe_for_items {A} (xs : list A) stop (body : A -> IO unit) :
  (forall x, mirror_safe local_path (body x)) ->
  mirror_safe local_path (for_items xs stop body).
Proof.
  intros Hbody. induction xs as [|x rest IH]; cbn [for_items].
  - destruct stop; [apply mirror_safe_raise|apply mirror_safe_ret].
  - apply mirror_safe_bind; auto.
Qed.

Lemma mirror_safe_sync_blob c b : mirror_safe local_path (sync_blob local_path c b).
Proof.
  intros fs. rewrite sync_blob_run. cbv zeta.
  destruct (path_exists fs _) eqn:Hex.
  { split; [apply extends_refl|by apply fetches_absent_nil]. }
  assert (Hfetch : forall more, downloads more = [] ->
    fetches_absent local_path fs
      ((blob_header local_path b
        ++ [Print "[ DEBUG ] File NOT Exist! Update New Image...";
            Download (container_name c) (blob_name b)]) ++ more)).
  { intros more Hmore c' n. rewrite (downloads_attempted _ _ _ _ Hmore).
    intros [[= _ <-]|[]]. exact Hex. }
  assert (Hsame : forall r,
    extends fs (r, fs, blob_header local_path b
                       ++ [Print "[ DEBUG ] File NOT Exist! Update New Image...";
                           Download (container_name c) (blob_name b)]).1.2 /\
    fetches_absent local_path fs
      (r : result unit, fs, blob_header local_path b
              ++ [Print "[ DEBUG ] File NOT Exist! Update New Image...";
                  Download (container_name c) (blob_name b)]).2).
  { intros r. split; [apply extends_refl|].
    cbn [snd]. rewrite <- (app_nil_r (_ ++ _)). by apply Hfetch. }
  destruct (download b) as [stream|e].
  - destruct (lookup_path fs _) as [k|k| | |] eqn:Hfound; [apply Hsame| |apply Hsame..].
    apply lookup_free in Hfound as (_ & Habsent & _). cbn [fst snd].
    split; [|by rewrite <- (app_nil_r (_ ++ _)); apply Hfetch].
    split; [|done]. intros k' content Hk. cbn [files].
    rewrite lookup_insert_ne; [done|]. intros <-.
    by rewrite (entry_exists_file _ _ _ Hk) in Habsent.
  - destruct (is_ResourceNotFoundError e); [|apply Hsame].
    split; [apply extends_refl|by apply Hfetch].
Qed.

Lemma mirror_safe_sync_container c : mirror_safe local_path (sync_container local_path c).
Proof.
  unfold sync_container, for_each.
  apply mirror_safe_bind; [by apply mirror_safe_emit|intros _].
  apply mirror_safe_bind; [by apply mirror_safe_emit|intros _].
  apply mirror_safe_for_items, mirror_safe_sync_blob.
Qed.

Lemma mirror_safe_makedirs p : mirror_safe local_path (makedirs p).
Proof.
  intros fs. unfold makedirs, bind, get, raise, put. cbv beta iota.
  destruct (path_exists fs p); [split; [apply extends_refl|by apply fetches_absent_nil]|].
  destruct (existsb _ _); (split; [|by apply fetches_absent_nil]);
    [apply extends_refl|].
  split; [done|]. cbn [fst snd dirs]. set_solver.
Qed.

End Safe.

Lemma mirror_safe_run_sample_body env azs_storage :
  mirror_safe (mirror_root env) (run_sample_body env azs_storage).
Proof.
  unfold run_sample_body. fold (mirror_root env).
  apply mirror_safe_bind; [apply mirror_safe_lift|intros blob_service_client].
  apply mirror_safe_bind; [apply mirror_safe_get|intros fs].
  apply mirror_safe_bind.
  - destruct (negb _); [|apply mirror_safe_ret].
    apply mirror_safe_bind; [apply mirror_safe_makedirs|intros _].
    by apply mirror_safe_emit.
  - intros _. apply mirror_safe_for_items, mirror_safe_sync_container.
Qed.

Lemma mirror_safe_run_sample env azs_storage :
  mirror_safe (mirror_root env) (run_sample env azs_storage).
Proof.
  apply mirror_safe_try_except; [apply mirror_safe_run_sample_body|].
  intros e. by apply mirror_safe_emit.
Qed.

(** *** No derived path is fetched twice *)

Section Once.
Context (local_path : string) (skipped : string -> string -> Prop).

Lemma fetches_once_quiet {A} (m : IO A) fs :
  (m fs).1.2 = fs -> downloads (m fs).2 = [] ->
  fetches_once_at local_path skipped m fs.
Proof.
  intros Hs Hd. unfold fetches_once_at. rewrite Hs, Hd.
  split; [apply extends_refl|]. split; [by apply fetches_absent_nil|].
  split; [|by intros a _ c n []].
  intros l1 c n l2 c' n' Heq. by destruct l1.
Qed.

Lemma fetches_once_bind {A B} (m : IO A) (k : A -> IO B) fs :
  fetches_once_at local_path skipped m fs ->
  (forall a s1 evs1, m fs = (Ok a, s1, evs1) ->
     fetches_once_at local_path skipped (k a) s1) ->
  fetches_once_at local_path skipped (bind m k) fs.
Proof.
  unfold fetches_once_at, bind. intros Hm Hk.
  destruct (m fs) as [[[a|e] s1] evs1];
    [|cbn [fst snd] in *; destruct Hm as (He1 & Ha1 & Ho1 & _);
      split; [done|]; split; [done|]; split; [done|]; by intros b].
  specialize (Hk a s1 evs1 eq_refl). destruct (k a s1) as [[r s2] evs2].
  cbn [fst snd] in *.
  destruct Hm as (He1 & Ha1 & Ho1 & Hi1), Hk as (He2 & Ha2 & Ho2 & Hi2).
  specialize (Hi1 a eq_refl).
  split; [by eapply extends_trans|]. split; [by eapply fetches_absent_app|].
  rewrite downloads_app. split.
  - intros l1 c n l2 c' n' Heq Hin Hpath.
    apply app_eq_inv in Heq as [(l & Hd1 & Hl2)|(l & Hl1 & Hd2)].
    + destruct l as [|x l].
      * rewrite app_nil_r in Hd1. cbn in Hl2.
        eapply (Ho2 [] c n l2 c' n'); [by rewrite <- Hl2|done..].
      * cbn in Hl2. injection Hl2 as <- ->.
        apply in_app_iff in Hin as [Hin|Hin].
        -- eapply (Ho1 l1 c n l c' n'); done.
        -- destruct (Hi1 c n) as [Hthere|Hsk]; [|specialize (Ha2 c' n' Hin)|done].
           { rewrite Hd1. apply in_app_iff. right. by left. }
           rewrite Hpath in Ha2. congruence.
    + eapply (Ho2 l c n l2 c' n'); done.
  - intros b [= ->] c n [Hin|Hin]%in_app_iff.
    + destruct (Hi1 c n Hin) as [Hthere|Hsk]; [left|by right].
      by eapply extends_path_exists.
    + by eapply Hi2.
Qed.

Lemma fetches_once_for_items {A} (xs : list A) stop (body : A -> IO unit) :
  (forall x, In x xs -> forall fs, fetches_once_at local_path skipped (body x) fs) ->
  forall fs, fetches_once_at local_path skipped (for_items xs stop body) fs.
Proof.
  induction xs as [|x rest IH]; intros Hbody fs; cbn [for_items].
  - by destruct stop; apply fetches_once_quiet.
  - apply fetches_once_bind; [apply Hbody; by left|].
    intros _ s1 _ _. apply IH. intros y Hy. apply Hbody. by right.
Qed.

Lemma fetches_once_sync_blob c b fs :
  (forall e, download b = Raise e -> is_ResourceNotFoundError e = true ->
             skipped (container_name c) (blob_name b)) ->
  fetches_once_at local_path skipped (sync_blob local_path c b) fs.
Proof.
  intros Hgone. destruct (mirror_safe_sync_blob local_path c b fs) as [Hext Habs].
  split; [done|]. split; [done|]. clear Hext Habs.
  rewrite sync_blob_run. cbv zeta.
  destruct (path_exists fs _) eqn:Hex.
  { cbn [fst snd]. split; [|by intros a _ c' n []].
    intros l1 c' n l2 c'' n' Heq. by destruct l1. }
  assert (Hone : forall more l1 x l2 (y : string * string),
    downloads more = [] ->
    downloads ((blob_header local_path b
                ++ [Print "[ DEBUG ] File NOT Exist! Update New Image...";
                    Download (container_name c) (blob_name b)]) ++ more)
    = l1 ++ x :: l2 -> In y l2 -> False).
  { intros more l1 x l2 y Hmore. rewrite (downloads_attempted _ _ _ _ Hmore).
    intros Heq. symmetry in Heq. apply elt_eq_unit in Heq as (_ & _ & ->). done. }
  assert (Honce : forall more, downloads more = [] ->
    fetched_once local_path skipped
      (downloads ((blob_header local_path b
                   ++ [Print "[ DEBUG ] File NOT Exist! Update New Image...";
                       Download (container_name c) (blob_name b)]) ++ more))).
  { intros more Hmore l1 c' n l2 c'' n' Heq Hin _.
    by destruct (Hone more l1 (c', n) l2 (c'', n') Hmore Heq Hin). }
  destruct (download b) as [stream|e] eqn:Hdl.
  - destruct (lookup_path fs _) as [k|k| | |] eqn:Hfound; cbn [fst snd];
      try (split; [rewrite <- (app_nil_r (_ ++ _)); by apply Honce|done]).
    split; [rewrite <- (app_nil_r (_ ++ _)); by apply Honce|].
    intros _ _ c' n. rewrite <- (app_nil_r (_ ++ _)), (downloads_attempted _ _ _ [] eq_refl).
    intros [[= <- <-]|[]]. left. by apply lookup_created.
  - destruct (is_ResourceNotFoundError e) eqn:Hnf; cbn [fst snd].
    + split; [by apply Honce|].
      intros _ _ c' n.
      rewrite (downloads_attempted _ _ _ [Print "No blob found."] eq_refl).
      intros [[= <- <-]|[]]. right. by eapply Hgone.
    + split; [rewrite <- (app_nil_r (_ ++ _)); by apply Honce|done].
Qed.

Lemma fetches_once_sync_container c fs :
  (forall b e, In b (items (container_blobs c)) ->
     download b = Raise e -> is_ResourceNotFoundError e = true ->
     skipped (container_name c) (blob_name b)) ->
  fetches_once_at local_path skipped (sync_container local_path c) fs.
Proof.
  intros Hgone. unfold sync_container, for_each.
  apply fetches_once_bind; [by apply fetches_once_quiet|intros _ s1 _ _].
  apply fetches_once_bind; [by apply fetches_once_quiet|intros _ s2 _ _].
  apply fetches_once_for_items. intros b Hb s. apply fetches_once_sync_blob. eauto.
Qed.

End Once.

Lemma fetches_once_run_sample_body env azs_storage fs :
  fetches_once_at (mirror_root env)
    (fun c n => exists acc, connect env azs_storage = Ok acc /\ gone acc c n)
    (run_sample_body env azs_storage) fs.
Proof.
  unfold run_sample_body. fold (mirror_root env).
  apply fetches_once_bind.
  { by destruct (connect env azs_storage); apply fetches_once_quiet. }
  intros acc s1 evs1 Hconn.
  assert (Hacc : connect env azs_storage = Ok acc /\ s1 = fs).
  { unfold lift in Hconn.
    destruct (connect env azs_storage) as [acc'|]; [by injection Hconn as -> ->|done]. }
  destruct Hacc as [Hacc ->].
  apply fetches_once_bind; [by apply fetches_once_quiet|intros fs0 s2 evs2 Hget].
  apply fetches_once_bind.
  - destruct (negb _); [|by apply fetches_once_quiet].
    apply fetches_once_bind; [|intros; by apply fetches_once_quiet].
    destruct (mirror_safe_makedirs (mirror_root env) (mirror_root env) s2) as [Hext Habs].
    assert (Hquiet : downloads (makedirs (mirror_root env) s2).2 = []).
    { unfold makedirs, bind, get, raise, put. cbv beta iota.
      destruct (path_exists s2 _); [done|]. by destruct (existsb _ _). }
    unfold fetches_once_at. rewrite Hquiet.
    split; [done|]. split; [done|]. split; [|by intros a _ c n []].
    intros l1 c n l2 c' n' Heq. by destruct l1.
  - intros _ s3 _ _. unfold for_each. apply fetches_once_for_items.
    intros c Hc s. apply fetches_once_sync_container. intros b e Hb Hdl Hnf.
    exists acc. split; [done|]. by exists c, b, e.
Qed.

(** *** A run that came to its end *)

Lemma completed_app evs1 evs2 : completed (evs1 ++ evs2) = completed evs1 && completed evs2.
Proof. unfold completed. apply forallb_app. Qed.

Lemma run_sample_completed env azs_storage fs :
  completed (run_sample env azs_storage fs).2 = true ->
  run_sample_body env azs_storage fs
  = (Ok tt, (run_sample env azs_storage fs).1.2, (run_sample env azs_storage fs).2).
Proof.
  unfold run_sample, try_except.
  destruct (run_sample_body env azs_storage fs) as [[[[]|e] fs1] evs]; [done|].
  unfold emit. cbn [fst snd]. rewrite completed_app. cbn.
  by rewrite andb_false_r.
Qed.

Lemma flat_map_singleton {A} (l : list A) : flat_map (fun x => [x]) l = l.
Proof. induction l as [|x l IH]; [done|]. cbn. by rewrite IH. Qed.

Lemma sync_container_mirrored env c s s' evs :
  sync_container (mirror_root env) c s = (Ok tt, s', evs) ->
  mirrored env (items (container_blobs c)) s s'.
Proof.
  unfold sync_container, for_each. intros Hrun.
  apply bind_ok in Hrun as ([] & s1 & evs1 & evs2 & [= <- _] & Hrun & _).
  apply bind_ok in Hrun as ([] & s2 & evs3 & evs4 & [= <- _] & Hrun & _).
  eapply (for_items_ok _ (fun b => [b]) (mirrored env)) in Hrun as [_ Hm].
  - by rewrite flat_map_singleton in Hm.
  - apply mirrored_nil.
  - apply mirrored_app.
  - intros b fs fs' evs'. apply sync_blob_mirrored.
Qed.

(** The file system once the mirror root is there. *)
Lemma run_sample_body_mirrored env azs_storage fs fs' evs :
  run_sample_body env azs_storage fs = (Ok tt, fs', evs) ->
  exists acc ready,
    connect env azs_storage = Ok acc /\
    files ready = files fs /\
    (forall k, k ∈ dirs ready ->
       k ∈ dirs fs \/ k ∈ prefixes (posixpath.resolve (mirror_root env))) /\
    mirrored env (all_blobs acc) ready fs'.
Proof.
  unfold run_sample_body. fold (mirror_root env). intros Hrun.
  apply bind_ok in Hrun as (acc & s1 & evs1 & evs2 & Hconn & Hrun & _).
  unfold lift in Hconn. destruct (connect env azs_storage) as [acc'|e]; [|done].
  injection Hconn as -> <- _.
  apply bind_ok in Hrun as (fs0 & s2 & evs3 & evs4 & [= <- <- _] & Hrun & _).
  apply bind_ok in Hrun as ([] & ready & evs5 & evs6 & Hroot & Hrun & _).
  exists acc, ready. split; [done|].
  assert (Hready : files ready = files fs /\
    forall k, k ∈ dirs ready ->
      k ∈ dirs fs \/ k ∈ prefixes (posixpath.resolve (mirror_root env))).
  { destruct (path_exists fs (mirror_root env)) eqn:Hex; cbn [negb] in Hroot.
    - injection Hroot as <- _. auto.
    - apply bind_ok in Hroot as ([] & s3 & evs7 & evs8 & Hmk & [= <-] & _).
      unfold makedirs, bind, get, raise, put in Hmk. cbv beta iota in Hmk.
      rewrite Hex in Hmk. destruct (existsb _ _); [done|].
      injection Hmk as <- _. split; [done|]. cbn [dirs]. set_solver. }
  destruct Hready as [Hfiles Hdirs]. split; [done|]. split; [done|].
  unfold for_each in Hrun.
  eapply (for_items_ok _ (fun c => items (container_blobs c)) (mirrored env))
    in Hrun as [_ Hm]; [exact Hm|apply mirrored_nil|apply mirrored_app|].
  intros c s s' evs'. apply sync_container_mirrored.
Qed.

(** C5, as the code has it.  Through a run of [run_sample], cut short or
    not, every file there was before it keeps its content, and only blobs
    whose derived local path named nothing before the run are downloaded.
    No derived path is downloaded a second time: once a blob has been
    asked for, no blob listed later with the same derived path, in
    another container say, is asked for, the one case apart where the
    earlier blob was gone (ResourceNotFoundError) and skipped.  When no
    exception reached the handler at the top, an entry that did not exist
    before the run, the mirror root and the directories above it apart,
    holds afterwards byte for byte what the download of the first listed
    blob mirrored to it yielded, the first among those whose download
    yields content; and the entry is still missing when no such blob is
    listed. *)
Theorem run_sample_mirror (env : environment) (azs_storage : string) (fs : FS) :
  let after := (run_sample env azs_storage fs).1.2 in
  let evs := (run_sample env azs_storage fs).2 in
  (forall k content, files fs !! k = Some content -> files after !! k = Some content) /\
  (forall c n, In (c, n) (downloads evs) ->
     path_exists fs (posixpath.join (mirror_root env) n) = false) /\
  (forall l1 c n l2 c' n',
     downloads evs = l1 ++ (c, n) :: l2 -> In (c', n') l2 ->
     posixpath.join (mirror_root env) n' = posixpath.join (mirror_root env) n ->
     exists acc, connect env azs_storage = Ok acc /\ gone acc c n) /\
  (forall acc, connect env azs_storage = Ok acc -> completed evs = true ->
     forall k, entry_exists fs k = false ->
       k ∉ prefixes (posixpath.resolve (mirror_root env)) ->
       files after !! k = first_fetch env k (all_blobs acc)).
Proof.
  intros after evs.
  destruct (mirror_safe_run_sample env azs_storage fs) as [[Hkeep _] Hfetch].
  split; [exact Hkeep|]. split; [exact Hfetch|]. split.
  { destruct (fetches_once_run_sample_body env azs_storage fs) as (_ & _ & Honce & _).
    unfold evs, run_sample, try_except.
    destruct (run_sample_body env azs_storage fs) as [[[[]|e] fs1] evs1]; [exact Honce|].
    unfold emit. cbn [fst snd] in *. rewrite downloads_app. cbn [downloads flat_map].
    by rewrite app_nil_r. }
  intros acc Hconn Hdone k Hk Hroot.
  apply run_sample_completed in Hdone.
  apply run_sample_body_mirrored in Hdone
    as (acc' & ready & Hconn' & Hfiles & Hdirs & [_ Hm]).
  assert (acc' = acc) as -> by congruence.
  unfold after. rewrite Hm. unfold expect.
  assert (Hready : entry_exists ready k = false); [|by rewrite Hready].
  unfold entry_exists, is_dir, is_file in *. rewrite Hfiles.
  apply orb_false_iff in Hk as [Hdir Hfile]. rewrite Hfile, orb_false_r.
  apply bool_decide_eq_false in Hdir. apply bool_decide_eq_false.
  intros [->|Hin]; [by destruct Hdir; left|].
  destruct (Hdirs _ Hin); [destruct Hdir; by right|done].
Qed.

(** *** Exceptions *)

Lemma for_items_app {S E A} (body : A -> M S E unit) xs1 xs2 stop s s1 evs1 :
  for_items xs1 None body s = (Ok tt, s1, evs1) ->
  for_items (xs1 ++ xs2) stop body s
  = ((for_items xs2 stop body s1).1.1, (for_items xs2 stop body s1).1.2,
     evs1 ++ (for_items xs2 stop body s1).2).
Proof.
  revert s evs1. induction xs1 as [|x xs1 IH]; intros s evs1; cbn [for_items app].
  - intros [= <- <-]. by destruct (for_items xs2 stop body s) as [[r s2] evs2].
  - intros Hrun.
    apply bind_ok in Hrun as ([] & s0 & evs0 & evs2 & Hx & Hrest & ->).
    rewrite (bind_run _ _ _ _ _ _ Hx), (IH _ _ Hrest). cbn [fst snd].
    by rewrite app_assoc.
Qed.

(** A loop stops at the round that raises: the rounds before it are done,
    those after it are not begun. *)
Lemma for_items_stops {S E A} (body : A -> M S E unit) xs1 x xs2 stop s s1 evs1 e s2 evs2 :
  for_items xs1 None body s = (Ok tt, s1, evs1) ->
  body x s1 = (Raise e, s2, evs2) ->
  for_items (xs1 ++ x :: xs2) stop body s = (Raise e, s2, evs1 ++ evs2).
Proof.
  intros Hbefore Hx. rewrite (for_items_app _ _ _ _ _ _ _ Hbefore).
  by rewrite (for_items_raise _ _ _ _ _ _ _ _ Hx).
Qed.

(** A listing that fails after its items raises once they are done. *)
Lemma for_items_fails {S E A} (body : A -> M S E unit) xs e s s1 evs1 :
  for_items xs None body s = (Ok tt, s1, evs1) ->
  for_items xs (Some e) body s = (Raise e, s1, evs1).
Proof.
  intros Hbefore. rewrite <- (app_nil_r xs), (for_items_app _ _ _ _ _ _ _ Hbefore).
  cbn. by rewrite app_nil_r.
Qed.

Lemma sync_container_run local_path c s :
  sync_container local_path c s
  = ((for_each (container_blobs c) (sync_blob local_path c) s).1.1,
     (for_each (container_blobs c) (sync_blob local_path c) s).1.2,
     container_header c ++ (for_each (container_blobs c) (sync_blob local_path c) s).2).
Proof.
  unfold sync_container.
  unfold bind at 1, emit at 1. cbv beta iota.
  unfold bind at 1, emit at 1. cbv beta iota.
  by destruct (for_each _ _ s) as [[r s'] evs].
Qed.

Lemma run_sample_body_run env azs_storage fs acc :
  connect env azs_storage = Ok acc ->
  run_sample_body env azs_storage fs
  = (ensure_root (mirror_root env) >>
     for_each (containers acc) (sync_container (mirror_root env))) fs.
Proof.
  intros Hconn. unfold run_sample_body, ensure_root. fold (mirror_root env).
  rewrite Hconn. unfold lift, bind at 1, ret at 1. cbv beta iota.
  unfold bind, get. cbv beta iota.
  destruct (negb (path_exists fs (mirror_root env))).
  - destruct (makedirs (mirror_root env) fs) as [[[[]|e] s1] evs1]; [|done].
    unfold emit. cbn [app].
    by destruct (for_each _ _ s1) as [[r s2] evs2].
  - unfold ret. cbn [app]. by destruct (for_each _ _ fs) as [[r s2] evs2].
Qed.

Lemma run_sample_raised env azs_storage fs e s evs :
  run_sample_body env azs_storage fs = (Raise e, s, evs) ->
  run_sample env azs_storage fs = (Ok tt, s, evs ++ [PrintException e]).
Proof. intros Hbody. unfold run_sample, try_except. by rewrite Hbody. Qed.

(** C8.  A download that raises ResourceNotFoundError is caught where the
    blob is gone through: "No blob found." is printed, the file system is
    as before, and the loop goes on with the blobs that remain.  Any other
    exception ends the run where it is raised: the exception of a
    download, of the [open] of the local file, of a listing of blobs or
    of containers, of the connection or of the creation of the mirror
    root leaves both loops, is printed by the handler at the top, and
    [run_sample] returns with the file system and the output as they were
    at that point; the blobs and containers that remain are not looked
    at.  No exception leaves [run_sample]. *)
Theorem run_sample_error_handling (env : environment) :
  (forall local_path c b rest stop fs e,
     path_exists fs (posixpath.join local_path (blob_name b)) = false ->
     download b = Raise e -> is_ResourceNotFoundError e = true ->
     let skipped :=
       blob_header local_path b
       ++ [Print "[ DEBUG ] File NOT Exist! Update New Image...";
           Download (container_name c) (blob_name b); Print "No blob found."] in
     let remaining := for_items rest stop (sync_blob local_path c) fs in
     sync_blob local_path c b fs = (Ok tt, fs, skipped) /\
     for_items (b :: rest) stop (sync_blob local_path c) fs
     = (remaining.1.1, remaining.1.2, skipped ++ remaining.2)) /\
  (forall local_path c b fs e,
     path_exists fs (posixpath.join local_path (blob_name b)) = false ->
     download b = Raise e -> is_ResourceNotFoundError e = false ->
     sync_blob local_path c b fs = (Raise e, fs, attempted local_path c b)) /\
  (forall local_path c b fs stream,
     path_exists fs (posixpath.join local_path (blob_name b)) = false ->
     download b = Ok stream ->
     (forall k, lookup_path fs (posixpath.join local_path (blob_name b)) <> Free k) ->
     exists e,
       exn_cls e = OSError /\
       sync_blob local_path c b fs = (Raise e, fs, attempted local_path c b)) /\
  (forall azs_storage fs acc cs1 c cs2 bs1 b bs2 ready evs0 s1 evs1 s2 evs2 e s3 evs3,
     connect env azs_storage = Ok acc ->
     items (containers acc) = cs1 ++ c :: cs2 ->
     items (container_blobs c) = bs1 ++ b :: bs2 ->
     ensure_root (mirror_root env) fs = (Ok tt, ready, evs0) ->
     for_items cs1 None (sync_container (mirror_root env)) ready = (Ok tt, s1, evs1) ->
     for_items bs1 None (sync_blob (mirror_root env) c) s1 = (Ok tt, s2, evs2) ->
     sync_blob (mirror_root env) c b s2 = (Raise e, s3, evs3) ->
     run_sample env azs_storage fs
     = (Ok tt, s3,
        evs0 ++ evs1 ++ container_header c ++ evs2 ++ evs3 ++ [PrintException e])) /\
  (forall azs_storage fs acc cs1 c cs2 e ready evs0 s1 evs1 s2 evs2,
     connect env azs_storage = Ok acc ->
     items (containers acc) = cs1 ++ c :: cs2 ->
     failure (container_blobs c) = Some e ->
     ensure_root (mirror_root env) fs = (Ok tt, ready, evs0) ->
     for_items cs1 None (sync_container (mirror_root env)) ready = (Ok tt, s1, evs1) ->
     for_items (items (container_blobs c)) None (sync_blob (mirror_root env) c) s1
     = (Ok tt, s2, evs2) ->
     run_sample env azs_storage fs
     = (Ok tt, s2, evs0 ++ evs1 ++ container_header c ++ evs2 ++ [PrintException e])) /\
  (forall azs_storage fs acc e ready evs0 s1 evs1,
     connect env azs_storage = Ok acc ->
     failure (containers acc) = Some e ->
     ensure_root (mirror_root env) fs = (Ok tt, ready, evs0) ->
     for_items (items (containers acc)) None (sync_container (mirror_root env)) ready
     = (Ok tt, s1, evs1) ->
     run_sample env azs_storage fs = (Ok tt, s1, evs0 ++ evs1 ++ [PrintException e])) /\
  (forall azs_storage fs acc e s evs,
     connect env azs_storage = Ok acc ->
     ensure_root (mirror_root env) fs = (Raise e, s, evs) ->
     run_sample env azs_storage fs = (Ok tt, s, evs ++ [PrintException e])) /\
  (forall azs_storage fs e,
     connect env azs_storage = Raise e ->
     run_sample env azs_storage fs = (Ok tt, fs, [PrintException e])) /\
  (forall azs_storage fs, (run_sample env azs_storage fs).1.1 = Ok tt).
Proof.
  split; [|split; [|split; [|split; [|split; [|split; [|split; [|split]]]]]]].
  - intros local_path c b rest stop fs e Hex Hdl Hnf skipped remaining.
    assert (Hb : sync_blob local_path c b fs = (Ok tt, fs, skipped)).
    { rewrite sync_blob_run. cbv zeta. rewrite Hex, Hdl, Hnf.
      unfold skipped. by rewrite <- app_assoc. }
    split; [exact Hb|]. by rewrite (for_items_continue _ _ _ _ _ _ _ Hb).
  - intros local_path c b fs e Hex Hdl Hnf.
    rewrite sync_blob_run. cbv zeta. by rewrite Hex, Hdl, Hnf.
  - intros local_path c b fs stream Hex Hdl Hfound.
    exists (open_error (lookup_path fs (posixpath.join local_path (blob_name b)))
              (posixpath.join local_path (blob_name b))).
    split; [by destruct (lookup_path fs _)|].
    rewrite sync_blob_run. cbv zeta. rewrite Hex, Hdl.
    destruct (lookup_path fs _) as [k|k| | |]; try done. by destruct (Hfound k).
  - intros azs_storage fs acc cs1 c cs2 bs1 b bs2 ready evs0 s1 evs1 s2 evs2 e s3 evs3
      Hconn Hcs Hbs Hroot Hbefore Hblobs Hb.
    assert (Hc : sync_container (mirror_root env) c s1
                 = (Raise e, s3, container_header c ++ evs2 ++ evs3)).
    { rewrite sync_container_run. unfold for_each. rewrite Hbs.
      by rewrite (for_items_stops _ _ _ _ _ _ _ _ _ _ _ Hblobs Hb). }
    assert (Hloop : for_each (containers acc) (sync_container (mirror_root env)) ready
                    = (Raise e, s3, evs1 ++ container_header c ++ evs2 ++ evs3)).
    { unfold for_each. rewrite Hcs. by eapply for_items_stops. }
    rewrite (run_sample_raised env azs_storage fs e s3
               (evs0 ++ evs1 ++ container_header c ++ evs2 ++ evs3)).
    + by rewrite <- !app_assoc.
    + rewrite (run_sample_body_run _ _ _ _ Hconn), (bind_run _ _ _ _ _ _ Hroot).
      by rewrite Hloop.
  - intros azs_storage fs acc cs1 c cs2 e ready evs0 s1 evs1 s2 evs2
      Hconn Hcs Hstop Hroot Hbefore Hblobs.
    assert (Hc : sync_container (mirror_root env) c s1
                 = (Raise e, s2, container_header c ++ evs2)).
    { rewrite sync_container_run. unfold for_each. rewrite Hstop.
      by rewrite (for_items_fails _ _ _ _ _ _ Hblobs). }
    assert (Hloop : for_each (containers acc) (sync_container (mirror_root env)) ready
                    = (Raise e, s2, evs1 ++ container_header c ++ evs2)).
    { unfold for_each. rewrite Hcs. by eapply for_items_stops. }
    rewrite (run_sample_raised env azs_storage fs e s2
               (evs0 ++ evs1 ++ container_header c ++ evs2)).
    + by rewrite <- !app_assoc.
    + rewrite (run_sample_body_run _ _ _ _ Hconn), (bind_run _ _ _ _ _ _ Hroot).
      by rewrite Hloop.
  - intros azs_storage fs acc e ready evs0 s1 evs1 Hconn Hstop Hroot Hbefore.
    assert (Hloop : for_each (containers acc) (sync_container (mirror_root env)) ready
                    = (Raise e, s1, evs1)).
    { unfold for_each. rewrite Hstop. by apply for_items_fails. }
    rewrite (run_sample_raised env azs_storage fs e s1 (evs0 ++ evs1)).
    + by rewrite <- !app_assoc.
    + rewrite (run_sample_body_run _ _ _ _ Hconn), (bind_run _ _ _ _ _ _ Hroot).
      by rewrite Hloop.
  - intros azs_storage fs acc e s evs Hconn Hroot.
    apply run_sample_raised. rewrite (run_sample_body_run _ _ _ _ Hconn).
    by apply bind_raise.
  - intros azs_storage fs e Hconn.
    unfold run_sample, try_except, run_sample_body. by rewrite Hconn.
  - intros azs_storage fs. unfold run_sample, try_except.
    by destruct (run_sample_body env azs_storage fs) as [[[[]|e] fs'] evs].
Qed.

(** *** The script as a program *)

(** C10.  Run as a script, the file calls [run_sample()] without the
    argument its one parameter requires: a TypeError, raised by the call
    before the body of the function and its [try:] are entered.  Nothing
    is printed, nothing is downloaded, the file system is as it was, and
    the exception is the outcome of the script.  (Called with its
    argument, the function is entered and returns whatever happens.) *)
Theorem main_raises_type_error (env : environment) (fs : FS) :
  main env "__main__" fs
  = (Raise (Exn TypeError
              "run_sample() missing 1 required positional argument: 'azs_storage'"),
     fs, []) /\
  call_run_sample env [] fs = main env "__main__" fs /\
  (forall azs_storage,
     call_run_sample env [azs_storage] fs = run_sample env azs_storage fs /\
     (call_run_sample env [azs_storage] fs).1.1 = Ok tt).
Proof.
  split; [reflexivity|]. split; [reflexivity|].
  intros azs_storage. split; [reflexivity|].
  cbn [call_run_sample]. unfold run_sample, try_except.
  by destruct (run_sample_body env azs_storage fs) as [[[[]|e] fs'] evs].
Qed.

(** *** The properties on the small store *)

(** What a run on the small store leaves behind. *)
Example run_sample_toy :
  let run := run_sample toy_env "conn" toy_fs in
  run.1.1 = Ok tt /\
  map_to_list (files run.1.2)
  = [(["home"; "u"; "Face_Gallery"; "old.jpg"], [Byte.x07]);
     (["home"; "u"; "Face_Gallery"; "b.jpg"], [Byte.x03; Byte.x04]);
     (["home"; "u"; "Face_Gallery"; "a.jpg"], [Byte.x01])] /\
  downloads run.2 = [("staff", "a.jpg"); ("staff", "gone.jpg"); ("guests", "b.jpg")].
Proof. cbv zeta. split; [|split]; vm_compute; reflexivity. Qed.

(** A connection string the service refuses: the handler at the top prints
    the exception and the run is over. *)
Example run_sample_refused :
  run_sample toy_env "" toy_fs
  = (Ok tt, toy_fs,
     [PrintException (Exn ValueError "Connection string is either blank or malformed.")]).
Proof. reflexivity. Qed.

(** Paths are walked, not normalized: a name that goes through a missing
    directory, or treats a file as a directory, names nothing, and a blob
    of such a name is asked for but cannot be written; the run ends
    there. *)
Example path_exists_walks :
  path_exists toy_fs "/home/u/Face_Gallery/old.jpg" = true /\
  path_exists toy_fs "/home/u/Face_Gallery/./old.jpg" = true /\
  path_exists toy_fs "/home/u/../u/Face_Gallery//old.jpg" = true /\
  path_exists toy_fs "/home/u/Face_Gallery/" = true /\
  path_exists toy_fs "/home/u/Face_Gallery/nodir/../old.jpg" = false /\
  path_exists toy_fs "/home/u/Face_Gallery/old.jpg/" = false /\
  path_exists toy_fs "/home/u/Face_Gallery/old.jpg/." = false /\
  path_exists toy_fs "/home/u/Face_Gallery/old.jpg/../old.jpg" = false /\
  path_exists toy_fs "" = false.
Proof. repeat split; vm_compute; reflexivity. Qed.

Example sync_blob_unwritable :
  let staff := {| container_name := "staff"; container_metadata := [];
                  container_blobs := Iterable [] None |} in
  let try name :=
    (sync_blob "/home/u/Face_Gallery" staff
       {| blob_name := name; download := Ok [Byte.x01] |} toy_fs).1 in
  try "newdir/"
  = (Raise (Exn OSError "[Errno 21] Is a directory: '/home/u/Face_Gallery/newdir/'"),
     toy_fs) /\
  try "nodir/../x.jpg"
  = (Raise (Exn OSError
              "[Errno 2] No such file or directory: '/home/u/Face_Gallery/nodir/../x.jpg'"),
     toy_fs) /\
  try "nodir/../old.jpg"
  = (Raise (Exn OSError
              "[Errno 2] No such file or directory: '/home/u/Face_Gallery/nodir/../old.jpg'"),
     toy_fs) /\
  try "old.jpg/x.jpg"
  = (Raise (Exn OSError "[Errno 20] Not a directory: '/home/u/Face_Gallery/old.jpg/x.jpg'"),
     toy_fs) /\
  try "old.jpg/"
  = (Raise (Exn OSError "[Errno 21] Is a directory: '/home/u/Face_Gallery/old.jpg/'"),
     toy_fs).
Proof. cbv zeta. repeat split; vm_compute; reflexivity. Qed.

(** C5, as stated, on the small store.  Both containers list a blob
    [a.jpg] and nothing is at its local path before the run; afterwards
    the file holds the content of the first, not that of the second.  And
    [gone.jpg], listed but gone when it is asked for, has no file. *)
Lemma run_sample_same_name_not_mirrored :
  let run := run_sample toy_env "conn" toy_fs in
  completed run.2 = true /\
  In {| blob_name := "a.jpg"; download := Ok [Byte.x02] |} (all_blobs toy_account) /\
  path_exists toy_fs (posixpath.join (mirror_root toy_env) "a.jpg") = false /\
  files run.1.2 !! ["home"; "u"; "Face_Gallery"; "a.jpg"] = Some [Byte.x01] /\
  In {| blob_name := "gone.jpg";
        download := Raise (Exn ResourceNotFoundError "BlobNotFound") |}
     (all_blobs toy_account) /\
  path_exists toy_fs (posixpath.join (mirror_root toy_env) "gone.jpg") = false /\
  files run.1.2 !! ["home"; "u"; "Face_Gallery"; "gone.jpg"] = None.
Proof.
  cbv zeta. split; [by vm_compute|]. split; [cbn; tauto|].
  split; [by vm_compute|]. split; [by vm_compute|]. split; [cbn; tauto|].
  split; by vm_compute.
Qed.

Lemma run_sample_mirror_witness :
  connect toy_env "conn" = Ok toy_account /\
  completed (run_sample toy_env "conn" toy_fs).2 = true /\
  entry_exists toy_fs ["home"; "u"; "Face_Gallery"; "b.jpg"] = false /\
  files (run_sample toy_env "conn" toy_fs).1.2 !! ["home"; "u"; "Face_Gallery"; "b.jpg"]
  = Some [Byte.x03; Byte.x04] /\
  files (run_sample toy_env "conn" toy_fs).1.2 !! ["home"; "u"; "Face_Gallery"; "old.jpg"]
  = Some [Byte.x07].
Proof.
  destruct (run_sample_mirror toy_env "conn" toy_fs) as (Hkeep & _ & _ & Hnew).
  assert (Hdone : completed (run_sample toy_env "conn" toy_fs).2 = true)
    by (vm_compute; reflexivity).
  assert (Habsent : entry_exists toy_fs ["home"; "u"; "Face_Gallery"; "b.jpg"] = false)
    by (vm_compute; reflexivity).
  assert (Hroot : ["home"; "u"; "Face_Gallery"; "b.jpg"]
                  ∉ prefixes (posixpath.resolve (mirror_root toy_env))).
  { apply (bool_decide_eq_false_1
             (["home"; "u"; "Face_Gallery"; "b.jpg"]
              ∈ prefixes (posixpath.resolve (mirror_root toy_env)))).
    vm_compute. reflexivity. }
  split; [reflexivity|]. split; [exact Hdone|]. split; [exact Habsent|]. split.
  - rewrite (Hnew toy_account eq_refl Hdone _ Habsent Hroot). vm_compute. reflexivity.
  - apply Hkeep. vm_compute. reflexivity.
Defined.

(** On the flaky store the run ends at [broken.jpg]: [a.jpg] was
    mirrored before it, and neither [late.jpg] nor the second container is
    looked at. *)
Lemma run_sample_error_handling_witness :
  last (run_sample flaky_env "conn" toy_fs).2
  = Some (PrintException (Exn (OtherException "HttpResponseError") "Server busy")) /\
  downloads (run_sample flaky_env "conn" toy_fs).2
  = [("staff", "a.jpg"); ("staff", "broken.jpg")] /\
  files (run_sample flaky_env "conn" toy_fs).1.2 !! ["home"; "u"; "Face_Gallery"; "a.jpg"]
  = Some [Byte.x01] /\
  files (run_sample flaky_env "conn" toy_fs).1.2 !! ["home"; "u"; "Face_Gallery"; "late.jpg"]
  = None.
Proof.
  destruct (run_sample_error_handling flaky_env) as (_ & _ & _ & Hstop & _).
  pose (staff := {| container_name := "staff"; container_metadata := [];
                    container_blobs := Iterable
                      [ {| blob_name := "a.jpg"; download := Ok [Byte.x01] |};
                        {| blob_name := "broken.jpg";
                           download := Raise (Exn (OtherException "HttpResponseError")
                                                  "Server busy") |};
                        {| blob_name := "late.jpg"; download := Ok [Byte.x09] |} ]
                      None |}).
  pose (guests := {| container_name := "guests"; container_metadata := [];
                     container_blobs := Iterable
                       [ {| blob_name := "b.jpg"; download := Ok [Byte.x03; Byte.x04] |} ]
                       None |}).
  pose (before := for_items [ {| blob_name := "a.jpg"; download := Ok [Byte.x01] |} ] None
                    (sync_blob (mirror_root flaky_env) staff) toy_fs).
  pose (broken := sync_blob (mirror_root flaky_env) staff
                    {| blob_name := "broken.jpg";
                       download := Raise (Exn (OtherException "HttpResponseError")
                                              "Server busy") |} before.1.2).
  rewrite (Hstop "conn" toy_fs flaky_account [] staff [guests]
             [ {| blob_name := "a.jpg"; download := Ok [Byte.x01] |} ]
             {| blob_name := "broken.jpg";
                download := Raise (Exn (OtherException "HttpResponseError")
                                       "Server busy") |}
             [ {| blob_name := "late.jpg"; download := Ok [Byte.x09] |} ]
             toy_fs [] toy_fs [] before.1.2 before.2
             (Exn (OtherException "HttpResponseError") "Server busy")
             broken.1.2 broken.2);
    [|reflexivity|reflexivity|reflexivity|vm_compute; reflexivity|reflexivity
     |vm_compute; reflexivity|vm_compute; reflexivity].
  split; [vm_compute; reflexivity|]. split; [vm_compute; reflexivity|].
  split; vm_compute; reflexivity.
Defined.

End GallerySyncFacts.

(** ** More on the pipeline: construction *)

Module DeepSpeechMoreFacts.
Import DeepSpeech DeepSpeechMore DeepSpeechFacts.

Section Construction.
Context `{Collaborators}.

Lemma set_ie_same self : set_ie {| extensions := extensions (ie self) |} self = self.
Proof. by destruct self as [? ? ? ? ? []]. Qed.

Lemma add_extensions_run ie_extensions self :
  add_extensions ie_extensions self
  = (Ok tt,
     set_ie {| extensions := extensions (ie self) ++ registered ie_extensions |} self,
     map extension_event (registered ie_extensions)).
Proof.
  unfold add_extensions.
  match goal with |- context [for_items _ _ ?f] => set (body := f) end.
  revert self.
  induction ie_extensions as [|[extension_device [fname|]] rest IH]; intros self.
  - cbn. unfold ret. by rewrite app_nil_r, set_ie_same.
  - cbn [for_items]. unfold bind at 1.
    change (body (extension_device, Some fname) self)
      with (Ok tt,
            set_ie {| extensions := extensions (ie self) ++ [(fname, extension_device)] |} self,
            [EvAddExtension fname extension_device]).
    cbv beta iota. rewrite IH. cbn. by rewrite <- app_assoc.
  - cbn [for_items]. unfold bind at 1.
    change (body (extension_device, None) self) with (Ok tt, self, @nil event).
    cbv beta iota. by rewrite IH.
Qed.

Lemma check_ir_nodes_run device device_config self n :
  net self = Some n ->
  _check_ir_nodes device device_config self
  = (match unsupported_layers (ie self) n device device_config with
     | [] => Ok tt
     | layers => Raise (Exn RuntimeError (unsupported_message device layers))
     end, self, [EvQueryNetwork device]).
Proof.
  intros Hn. unfold _check_ir_nodes, bind at 1, get. cbv beta iota. rewrite Hn.
  unfold bind, emit. cbv beta iota. fold (unsupported_layers (ie self) n device device_config).
  by destruct (unsupported_layers _ _ _ _).
Qed.

Lemma load_net_run model model_bin ie_extensions device device_config self :
  _load_net model model_bin ie_extensions device device_config self
  = let engine := {| extensions := extensions (ie self) ++ registered ie_extensions |} in
    let weights := match model_bin with Some f => f | None => default_bin_fname model end in
    let n := read_network engine model weights in
    let loaded := set_net n (set_ie engine self) in
    let evs := map extension_event (registered ie_extensions)
               ++ [EvReadNetwork model weights] in
    match device with
    | None => (Ok tt, loaded, evs)
    | Some d =>
        (match unsupported_layers engine n d device_config with
         | [] => Ok tt
         | layers => Raise (Exn RuntimeError (unsupported_message d layers))
         end, loaded, evs ++ [EvQueryNetwork d])
    end.
Proof.
  cbv zeta. unfold _load_net. fold (default_bin_fname model).
  unfold bind at 1. rewrite add_extensions_run.
  unfold bind at 1, get. cbv beta iota.
  unfold bind at 1, emit. cbv beta iota.
  unfold bind at 1, put. cbv beta iota.
  destruct device as [d|].
  - erewrite check_ir_nodes_run; [|reflexivity]. cbn [ie set_net set_ie].
    destruct (unsupported_layers _ _ _ _); cbn [app]; by rewrite <- ?app_assoc.
  - unfold ret. cbn [app]. done.
Qed.

Lemma init_run model model_bin lm alphabet beam_width alpha beta ie device ie_extensions :
  __init__ model model_bin lm alphabet beam_width alpha beta ie device ie_extensions
  = let object := built model model_bin lm alphabet beam_width alpha beta ie device
                    ie_extensions in
    let n := network_of ie ie_extensions model model_bin in
    let evs := loading_events model model_bin ie_extensions in
    match device with
    | None => (Ok object, evs)
    | Some d =>
        match unsupported_layers (engine_of ie ie_extensions) n d None with
        | [] => (Ok object, evs ++ [EvQueryNetwork d; EvLoadNetwork n d])
        | layers => (Raise (Exn RuntimeError (unsupported_message d layers)),
                     evs ++ [EvQueryNetwork d])
        end
    end.
Proof.
  cbv zeta. unfold __init__. fold (resolve_alphabet alphabet).
  unfold bind at 1. rewrite load_net_run. cbv zeta. cbn [DeepSpeech.ie extensions].
  fold (engine_of ie ie_extensions). fold (network_of ie ie_extensions model model_bin).
  fold (loading_events model model_bin ie_extensions).
  destruct device as [d|].
  - destruct (unsupported_layers _ _ _ _) as [|l layers]; [|done].
    unfold activate_model, bind, get, emit, put. cbv beta iota. cbn [exec_net net set_net set_ie].
    cbn [app]. unfold built. cbn. by rewrite <- app_assoc.
  - unfold ret. by rewrite app_nil_r.
Qed.

Lemma registered_elem ie_extensions path device :
  (path, device) ∈ registered ie_extensions <-> (device, Some path) ∈ ie_extensions.
Proof.
  unfold registered. rewrite list_elem_of_omap. split.
  - intros ([d [f|]] & Hin & Hf); cbn in Hf; [|done]. by injection Hf as -> ->.
  - intros Hin. by exists (device, Some path).
Qed.

(** X1.  [_load_net] hands the engine the extensions of [ie_extensions]
    that have a file name, in their order and before the network is read;
    a record is registered exactly when its file name is not [None].  The
    network kept in [self.net] is the one the engine so extended reads,
    and it is kept also when the check of the layers raises afterwards. *)
Theorem load_net_registers_extensions (model : string) (model_bin : option string)
    (ie_extensions : list (string * option string)) (device device_config : option string)
    (self : Pipeline) :
  let run := _load_net model model_bin ie_extensions device device_config self in
  let weights := match model_bin with Some f => f | None => default_bin_fname model end in
  extensions (ie (self_of run)) = extensions (ie self) ++ registered ie_extensions /\
  (forall path dev,
     (path, dev) ∈ registered ie_extensions <-> (dev, Some path) ∈ ie_extensions) /\
  take (length (registered ie_extensions)) (events_of run)
  = map extension_event (registered ie_extensions) /\
  events_of run !! length (registered ie_extensions) = Some (EvReadNetwork model weights) /\
  net (self_of run) = Some (read_network (ie (self_of run)) model weights).
Proof.
  cbv zeta. rewrite load_net_run. cbv zeta.
  assert (Hlen : length (map extension_event (registered ie_extensions))
                 = length (registered ie_extensions)) by apply length_map.
  split; [by destruct device|]. split; [apply registered_elem|].
  split; [|split].
  - destruct device; unfold events_of; cbn [snd]; rewrite <- ?app_assoc;
      by rewrite <- Hlen, take_app_length.
  - destruct device; unfold events_of; cbn [snd]; rewrite <- ?app_assoc;
      rewrite lookup_app_r by lia; by rewrite Hlen, Nat.sub_diag.
  - by destruct device.
Qed.

Lemma unsupported_layers_nil engine n device device_config :
  unsupported_layers engine n device device_config = []
  <-> forall l, l ∈ net_layers n -> l ∈ query_network engine n device device_config.
Proof.
  unfold unsupported_layers. split.
  - intros Hnil l Hl.
    destruct (decide (l ∈ query_network engine n device device_config)) as [|Hno]; [done|].
    by destruct (filter_nil_not_elem_of _ _ l Hnil Hno).
  - intros Hall. destruct (filter _ _) as [|l layers] eqn:Hf; [done|].
    assert (Hin : l ∈ filter (fun l => l ∉ query_network engine n device device_config)
                    (net_layers n)) by (rewrite Hf; left).
    apply list_elem_of_filter in Hin as [Hno Hl]. by destruct Hno; apply Hall.
Qed.

(** X2.  [_check_ir_nodes] asks the engine once and changes nothing.  It
    returns when every layer of the network is among those the engine
    reports for the device, and only then; with a layer that is not, it
    raises the RuntimeError whose message names the device and lists, in
    the order of the network, exactly the layers that are not reported. *)
Theorem check_ir_nodes_supported (self : Pipeline) (n : Net) (device : string)
    (device_config : option string) :
  net self = Some n ->
  let supported := query_network (ie self) n device device_config in
  (_check_ir_nodes device device_config self = (Ok tt, self, [EvQueryNetwork device])
   <-> forall l, l ∈ net_layers n -> l ∈ supported) /\
  (forall l, l ∈ net_layers n -> l ∉ supported ->
     exists layers,
       _check_ir_nodes device device_config self
       = (Raise (Exn RuntimeError (unsupported_message device layers)), self,
          [EvQueryNetwork device]) /\
       forall l', l' ∈ layers <-> l' ∈ net_layers n /\ l' ∉ supported).
Proof.
  intros Hn supported. rewrite (check_ir_nodes_run _ _ _ _ Hn).
  pose proof (unsupported_layers_nil (ie self) n device device_config) as Hnil.
  split.
  - split.
    + intros Hok. apply Hnil. by destruct (unsupported_layers _ _ _ _).
    + intros Hall. apply Hnil in Hall. by rewrite Hall.
  - intros l Hl Hno.
    exists (unsupported_layers (ie self) n device device_config). split.
    + destruct (unsupported_layers _ _ _ _) eqn:Hu; [|done].
      destruct Hno. by apply Hnil.
    + intros l'. unfold unsupported_layers. rewrite list_elem_of_filter. tauto.
Qed.

(** X3.  When [__init__] returns, the object holds the network the
    extended engine read, under [self.net]; it is activated on [device]
    when one is given, with one [load_network] for it, and not activated
    and never checked against a device when [device] is [None]; its
    decoder has the alphabet and the beam width of the object. *)
Theorem init_builds model model_bin lm alphabet beam_width alpha beta ie device
    ie_extensions (self : Pipeline) (evs : list event) :
  __init__ model model_bin lm alphabet beam_width alpha beta ie device ie_extensions
  = (Ok self, evs) ->
  let n := network_of ie ie_extensions model model_bin in
  self = built model model_bin lm alphabet beam_width alpha beta ie device ie_extensions /\
  net self = Some n /\
  exec_net self = (fun d => {| exec_network := n; exec_device := d |}) <$> device /\
  default_device self = device /\
  dec_alphabet (decoder self) = DeepSpeech.alphabet self /\
  dec_beam_width (decoder self) = DeepSpeech.beam_width self /\
  load_events evs = (fun d => (n, d)) <$> option_list device /\
  query_events evs = option_list device.
Proof.
  rewrite init_run. cbv zeta. intros Hinit.
  assert (Hself : self = built model model_bin lm alphabet beam_width alpha beta ie
                           device ie_extensions /\
                  load_events evs
                  = (fun d => (network_of ie ie_extensions model model_bin, d))
                      <$> option_list device /\
                  query_events evs = option_list device).
  { assert (Hload : load_events (loading_events model model_bin ie_extensions) = []
                    /\ query_events (loading_events model model_bin ie_extensions) = []).
    { unfold loading_events, load_events, query_events. rewrite !flat_map_app.
      cbn. rewrite !app_nil_r.
      split; by induction (registered ie_extensions) as [|ext exts IH]. }
    destruct Hload as [Hload Hquery].
    destruct device as [d|].
    - destruct (unsupported_layers _ _ _ _); [|done].
      injection Hinit as <- <-. split; [done|].
      unfold load_events, query_events in *. rewrite !flat_map_app, Hload, Hquery. done.
    - injection Hinit as <- <-. by rewrite Hload, Hquery. }
  destruct Hself as (-> & Hl & Hq). done.
Qed.

(** X4.  No network is loaded to a device without the check of its
    layers: when [__init__] returns for a device, every layer of the
    network is among those the engine reports for this device, and the
    engine was asked before the network was loaded.  The calls to the
    engine are the registrations of the extensions, [read_network], one
    [query_network] and one [load_network], in this order, and the object
    is bound to the network so loaded. *)
Theorem init_checks_before_loading model model_bin lm alphabet beam_width alpha beta ie
    ie_extensions (d : string) (self : Pipeline) (evs : list event) :
  __init__ model model_bin lm alphabet beam_width alpha beta ie (Some d) ie_extensions
  = (Ok self, evs) ->
  let n := network_of ie ie_extensions model model_bin in
  (forall l, l ∈ net_layers n ->
             l ∈ query_network (engine_of ie ie_extensions) n d None) /\
  evs = map extension_event (registered ie_extensions)
        ++ [EvReadNetwork model
              (match model_bin with Some f => f | None => default_bin_fname model end);
            EvQueryNetwork d; EvLoadNetwork n d] /\
  exec_net self = Some {| exec_network := n; exec_device := d |}.
Proof.
  rewrite init_run. cbv zeta.
  pose proof (unsupported_layers_nil (engine_of ie ie_extensions)
                (network_of ie ie_extensions model model_bin) d None) as Hnil.
  destruct (unsupported_layers _ _ _ _) as [|l layers]; [|done].
  intros [= <- <-]. split; [by apply Hnil|]. split; [|done].
  unfold loading_events. by rewrite <- app_assoc.
Qed.

End Construction.

(** *** Construction on the small network *)

Lemma check_ir_nodes_supported_witness :
  net toy_pipeline = Some toy_net /\
  @_check_ir_nodes toy_collaborators "GPU" None toy_pipeline
  = (Ok tt, toy_pipeline, [EvQueryNetwork "GPU"]).
Proof.
  destruct (check_ir_nodes_supported (H := toy_collaborators) toy_pipeline toy_net
              "GPU" None eq_refl) as [Hok _].
  split; [reflexivity|]. apply Hok. intros l Hl. exact Hl.
Defined.

Lemma init_builds_witness :
  @__init__ toy_collaborators "/m/ds.xml" None None AlphabetDefault 500 (3 # 4) (37 # 20)
    None (Some "CPU") [("CPU", Some "ext.so"); ("GPU", None)]
  = (Ok (@built toy_collaborators "/m/ds.xml" None None AlphabetDefault 500 (3 # 4)
           (37 # 20) None (Some "CPU") [("CPU", Some "ext.so"); ("GPU", None)]),
     [EvAddExtension "ext.so" "CPU"; EvReadNetwork "/m/ds.xml" "/m/ds.bin";
      EvQueryNetwork "CPU"; EvLoadNetwork toy_net "CPU"]) /\
  exec_net (@built toy_collaborators "/m/ds.xml" None None AlphabetDefault 500 (3 # 4)
              (37 # 20) None (Some "CPU") [("CPU", Some "ext.so"); ("GPU", None)])
  = Some {| exec_network := toy_net; exec_device := "CPU" |}.
Proof.
  assert (Hinit :
    @__init__ toy_collaborators "/m/ds.xml" None None AlphabetDefault 500 (3 # 4) (37 # 20)
      None (Some "CPU") [("CPU", Some "ext.so"); ("GPU", None)]
    = (Ok (@built toy_collaborators "/m/ds.xml" None None AlphabetDefault 500 (3 # 4)
             (37 # 20) None (Some "CPU") [("CPU", Some "ext.so"); ("GPU", None)]),
       [EvAddExtension "ext.so" "CPU"; EvReadNetwork "/m/ds.xml" "/m/ds.bin";
        EvQueryNetwork "CPU"; EvLoadNetwork toy_net "CPU"])) by reflexivity.
  destruct (init_builds (H := toy_collaborators) _ _ _ _ _ _ _ _ _ _ _ _ Hinit)
    as (_ & _ & Hexec & _).
  split; [exact Hinit|exact Hexec].
Defined.

Lemma init_checks_before_loading_witness :
  @__init__ toy_collaborators "/m/ds.xml" None None AlphabetDefault 500 (3 # 4) (37 # 20)
    None (Some "CPU") [("CPU", Some "ext.so"); ("GPU", None)]
  = (Ok (@built toy_collaborators "/m/ds.xml" None None AlphabetDefault 500 (3 # 4)
           (37 # 20) None (Some "CPU") [("CPU", Some "ext.so"); ("GPU", None)]),
     [EvAddExtension "ext.so" "CPU"; EvReadNetwork "/m/ds.xml" "/m/ds.bin";
      EvQueryNetwork "CPU"; EvLoadNetwork toy_net "CPU"]) /\
  "lstm" ∈ @query_network toy_collaborators
             (@engine_of toy_collaborators None [("CPU", Some "ext.so"); ("GPU", None)])
             (@network_of toy_collaborators None [("CPU", Some "ext.so"); ("GPU", None)]
                "/m/ds.xml" None)
             "CPU" None.
Proof.
  assert (Hinit :
    @__init__ toy_collaborators "/m/ds.xml" None None AlphabetDefault 500 (3 # 4) (37 # 20)
      None (Some "CPU") [("CPU", Some "ext.so"); ("GPU", None)]
    = (Ok (@built toy_collaborators "/m/ds.xml" None None AlphabetDefault 500 (3 # 4)
             (37 # 20) None (Some "CPU") [("CPU", Some "ext.so"); ("GPU", None)]),
       [EvAddExtension "ext.so" "CPU"; EvReadNetwork "/m/ds.xml" "/m/ds.bin";
        EvQueryNetwork "CPU"; EvLoadNetwork toy_net "CPU"])) by reflexivity.
  destruct (init_checks_before_loading (H := toy_collaborators) _ _ _ _ _ _ _ _ _ _ _ _ Hinit)
    as (Hlayers & _).
  split; [exact Hinit|]. apply Hlayers. by left.
Defined.

(** An engine without the layer [lstm]: no object, and the message names
    the layer. *)
Example init_on_picky_engine :
  @__init__ picky_collaborators "/m/ds.xml" None None AlphabetDefault 500 (3 # 4) (37 # 20)
    None (Some "MYRIAD") []
  = (Raise (Exn RuntimeError
       "Following layers are not supported by the plugin for specified device MYRIAD: lstm.  Please try to specify IE extension library path with --cpu_extension command line argument"),
     [EvReadNetwork "/m/ds.xml" "/m/ds.bin"; EvQueryNetwork "MYRIAD"]).
Proof. reflexivity. Qed.

(** *** The weights file beside the model *)

Lemma chars_app (a b : string) :
  list_ascii_of_string (a ++ b) = list_ascii_of_string a ++ list_ascii_of_string b.
Proof.
  induction a as [|c a IH]; [done|].
  change (String c a ++ b)%string with (String c (a ++ b)). cbn. by rewrite IH.
Qed.

Lemma break_at_first c a b :
  c ∉ a -> posixpath.break_at c (a ++ c :: b) = Some (a, b).
Proof.
  induction a as [|x a IH]; intros Hc; cbn.
  - by rewrite Ascii.eqb_refl.
  - apply not_elem_of_cons in Hc as [Hx Ha].
    destruct (Ascii.eqb_spec x c) as [->|_]; [done|]. by rewrite IH.
Qed.

Lemma break_at_none c l : c ∉ l -> posixpath.break_at c l = None.
Proof.
  induction l as [|x l IH]; intros Hc; [done|]. cbn.
  apply not_elem_of_cons in Hc as [Hx Hl].
  destruct (Ascii.eqb_spec x c) as [->|_]; [done|]. by rewrite IH.
Qed.

Lemma rbreak_at_last c h t :
  c ∉ t -> posixpath.rbreak_at c (h ++ c :: t) = Some (h, t).
Proof.
  intros Hc. unfold posixpath.rbreak_at.
  rewrite rev_app_distr. cbn [rev]. rewrite <- app_assoc. cbn [app].
  rewrite break_at_first.
  - by rewrite !rev_involutive.
  - intros Hin. apply Hc. by apply list_elem_of_In, in_rev, list_elem_of_In.
Qed.

Lemma rbreak_at_none c l : c ∉ l -> posixpath.rbreak_at c l = None.
Proof.
  intros Hc. unfold posixpath.rbreak_at. rewrite break_at_none; [done|].
  intros Hin. apply Hc. by apply list_elem_of_In, in_rev, list_elem_of_In.
Qed.

Lemma basename_in_dir dir file :
  lacks posixpath.slash file -> posixpath.basename (dir ++ "/" ++ file) = file.
Proof.
  intros Hfile. unfold posixpath.basename. rewrite !chars_app. cbn [list_ascii_of_string app].
  rewrite (rbreak_at_last posixpath.slash) by done.
  apply string_of_list_ascii_of_string.
Qed.

Lemma basename_bare file : lacks posixpath.slash file -> posixpath.basename file = file.
Proof. intros Hfile. unfold posixpath.basename. by rewrite rbreak_at_none. Qed.

Lemma dirname_in_dir dir file :
  ends_otherwise posixpath.slash dir -> lacks posixpath.slash file ->
  posixpath.dirname (dir ++ "/" ++ file) = dir.
Proof.
  intros (x & Hlast & Hx) Hfile. unfold posixpath.dirname.
  rewrite !chars_app. cbn [list_ascii_of_string app].
  rewrite (rbreak_at_last posixpath.slash) by done.
  apply last_Some in Hlast as [d Hd]. rewrite Hd.
  assert (Hhead : posixpath.lstrip posixpath.slash ((d ++ [x]) ++ [posixpath.slash]) <> []).
  { clear Hd. induction d as [|y d IH]; cbn.
    - by destruct (Ascii.eqb_spec x posixpath.slash).
    - by destruct (Ascii.eqb y posixpath.slash). }
  destruct (posixpath.lstrip _ _) as [|y l] eqn:Hl; [done|]. clear Hl Hhead.
  unfold posixpath.rstrip. rewrite !rev_app_distr. cbn [rev app posixpath.lstrip].
  rewrite Ascii.eqb_refl.
  destruct (Ascii.eqb_spec x posixpath.slash) as [|_]; [done|].
  change (x :: rev d) with (rev [x] ++ rev d). rewrite <- rev_app_distr, rev_involutive, <- Hd.
  apply string_of_list_ascii_of_string.
Qed.

Lemma dirname_bare file : lacks posixpath.slash file -> posixpath.dirname file = "".
Proof. intros Hfile. unfold posixpath.dirname. by rewrite rbreak_at_none. Qed.

Lemma stem_of_file stem ext :
  lacks posixpath.dot ext ->
  posixpath.rsplit1_head posixpath.dot (stem ++ "." ++ ext) = stem.
Proof.
  intros Hext. unfold posixpath.rsplit1_head. rewrite !chars_app.
  cbn [list_ascii_of_string app].
  rewrite (rbreak_at_last posixpath.dot) by done.
  apply string_of_list_ascii_of_string.
Qed.

Lemma stem_without_dot stem :
  lacks posixpath.dot stem -> posixpath.rsplit1_head posixpath.dot stem = stem.
Proof. intros Hstem. unfold posixpath.rsplit1_head. by rewrite rbreak_at_none. Qed.

Lemma join_relative_name dir name :
  ends_otherwise posixpath.slash dir ->
  (forall rest, name <> String posixpath.slash rest) ->
  posixpath.join dir name = (dir ++ "/" ++ name)%string.
Proof.
  intros (x & Hlast & Hx) Hname. unfold posixpath.join.
  apply last_Some in Hlast as [d Hd]. rewrite Hd, rev_app_distr. cbn [rev app].
  destruct (Ascii.eqb_spec x posixpath.slash) as [|_]; [done|].
  destruct name as [|c name]; [done|]. cbn [list_ascii_of_string].
  destruct (Ascii.eqb_spec c posixpath.slash) as [->|_]; [|done].
  by destruct (Hname name).
Qed.

Lemma join_empty_dir name : posixpath.join "" name = name.
Proof.
  unfold posixpath.join. destruct name as [|c name]; [done|]. cbn.
  by destruct (Ascii.eqb c posixpath.slash).
Qed.

Lemma lacks_app c a b : lacks c (a ++ b) <-> lacks c a /\ lacks c b.
Proof. unfold lacks. rewrite chars_app, not_elem_of_app. tauto. Qed.

Lemma lacks_head c s rest : lacks c s -> (s ++ ".bin")%string <> String c rest \/ c = posixpath.dot.
Proof.
  intros Hs. destruct s as [|x s]; cbn.
  - destruct (decide (c = posixpath.dot)); [by right|left]. intros [= ? _]. done.
  - left. intros [= -> _]. apply Hs. cbn. left.
Qed.

(** X5.  Without [model_bin], [_load_net] reads the weights from the file
    beside the model that has its name with the last extension replaced
    by [.bin]: [dir/stem.ext] gives [dir/stem.bin], a model named without
    a directory gives [stem.bin], and a model named without an extension
    gets [.bin] appended, dots in the directory not counting. *)
Theorem default_bin_fname_beside_model (dir stem ext : string) :
  ends_otherwise posixpath.slash dir ->
  lacks posixpath.slash stem -> lacks posixpath.slash ext -> lacks posixpath.dot ext ->
  default_bin_fname (dir ++ "/" ++ stem ++ "." ++ ext) = (dir ++ "/" ++ stem ++ ".bin")%string /\
  default_bin_fname (stem ++ "." ++ ext) = (stem ++ ".bin")%string /\
  (lacks posixpath.dot stem ->
   default_bin_fname (dir ++ "/" ++ stem) = (dir ++ "/" ++ stem ++ ".bin")%string).
Proof.
  intros Hdir Hstem Hext Hdot.
  assert (Hfile : lacks posixpath.slash (stem ++ "." ++ ext)).
  { apply lacks_app. split; [done|]. apply lacks_app. split; [|done].
    unfold lacks. cbn. intros [Heq|Hin]%elem_of_cons; [done|]. by apply elem_of_nil in Hin. }
  assert (Hname : forall rest, (stem ++ ".bin")%string <> String posixpath.slash rest).
  { intros rest. by destruct (lacks_head posixpath.slash stem rest Hstem). }
  unfold default_bin_fname. split; [|split].
  - rewrite basename_in_dir, dirname_in_dir, stem_of_file by done.
    by apply join_relative_name.
  - rewrite basename_bare, dirname_bare, stem_of_file by done.
    apply join_empty_dir.
  - intros Hnodot.
    rewrite basename_in_dir, dirname_in_dir, stem_without_dot by done.
    by apply join_relative_name.
Qed.

Lemma default_bin_fname_beside_model_witness :
  ends_otherwise posixpath.slash "/models/v0.5" /\
  default_bin_fname "/models/v0.5/deepspeech.pruned.xml" = "/models/v0.5/deepspeech.pruned.bin".
Proof.
  assert (Hdir : ends_otherwise posixpath.slash "/models/v0.5").
  { exists "5"%char. split; [reflexivity|discriminate]. }
  assert (Hstem : lacks posixpath.slash "deepspeech.pruned").
  { apply (bool_decide_eq_false_1
             (posixpath.slash ∈ list_ascii_of_string "deepspeech.pruned")).
    vm_compute. reflexivity. }
  assert (Hext : lacks posixpath.slash "xml").
  { apply (bool_decide_eq_false_1 (posixpath.slash ∈ list_ascii_of_string "xml")).
    vm_compute. reflexivity. }
  assert (Hdot : lacks posixpath.dot "xml").
  { apply (bool_decide_eq_false_1 (posixpath.dot ∈ list_ascii_of_string "xml")).
    vm_compute. reflexivity. }
  split; [exact Hdir|].
  exact (proj1 (default_bin_fname_beside_model "/models/v0.5" "deepspeech.pruned" "xml"
                  Hdir Hstem Hext Hdot)).
Defined.

(** *** Windows and batches *)

Section Inference.
Context `{Collaborators}.

Lemma repeat_lookup {A} (x : A) n k : (k < n)%nat -> repeat x n !! k = Some x.
Proof.
  revert k. induction n as [|n IH]; intros k Hk; [lia|].
  destruct k as [|k]; [done|]. cbn. apply IH. lia.
Qed.

Lemma padded_lookup feats k :
  (k < length feats + 18)%nat ->
  (edge_padding ++ feats ++ edge_padding) !! k
  = if ((9 <=? k) && (k <? 9 + length feats))%nat
    then feats !! (k - 9)%nat else Some (zeros 26).
Proof.
  intros Hk. pose proof edge_padding_length as Hpad. unfold frame in *.
  destruct (9 <=? k)%nat eqn:Hlo; cbn [andb].
  - apply Nat.leb_le in Hlo.
    rewrite lookup_app_r; [|rewrite Hpad; lia]. rewrite Hpad.
    destruct (k <? 9 + length feats)%nat eqn:Hhi.
    + apply Nat.ltb_lt in Hhi. rewrite lookup_app_l; [done|lia].
    + apply Nat.ltb_ge in Hhi. rewrite lookup_app_r; [|lia].
      apply (repeat_lookup (zeros 26) 9). lia.
  - apply Nat.leb_gt in Hlo. rewrite lookup_app_l; [|rewrite Hpad; lia].
    by apply (repeat_lookup (zeros 26) 9).
Qed.

Lemma context_windows_lookup (feats : list frame) (i : nat) (w : window) :
  context_windows feats !! i = Some w ->
  (i < length feats)%nat /\
  length w = 19%nat /\
  w !! 9%nat = feats !! i /\
  forall j, (j < 19)%nat ->
    w !! j = if ((9 <=? i + j) && (i + j <? 9 + length feats))%nat
             then feats !! (i + j - 9)%nat else Some (zeros 26).
Proof.
  rewrite context_windows_eq, list_lookup_fmap. intros Hw.
  destruct (seq 0 (length feats) !! i) as [i'|] eqn:Hi; [|done].
  apply lookup_seq in Hi as [-> Hi]. change (0 + i)%nat with i in Hw.
  pose proof (padded_lookup feats) as Hlook.
  assert (Hlen : length (edge_padding ++ feats ++ edge_padding) = (length feats + 18)%nat).
  { pose proof edge_padding_length as Hpad. unfold frame in *.
    rewrite !length_app, Hpad. lia. }
  remember (edge_padding ++ feats ++ edge_padding) as padded eqn:Hpadded.
  clear Hpadded.
  cbv [fmap option_fmap option_map] in Hw. injection Hw as <-.
  assert (Hrow : forall j, (j < 19)%nat ->
    take 19 (drop i padded) !! j
    = if ((9 <=? i + j) && (i + j <? 9 + length feats))%nat
      then feats !! (i + j - 9)%nat else Some (zeros 26)).
  { intros j Hj. rewrite lookup_take_lt, lookup_drop by lia.
    apply Hlook. lia. }
  split; [done|]. split.
  - rewrite length_take, length_drop, Hlen. lia.
  - split; [|exact Hrow]. rewrite Hrow by lia.
    replace (9 <=? i + 9)%nat with true by (symmetry; apply Nat.leb_le; lia).
    replace (i + 9 <? 9 + length feats)%nat with true
      by (symmetry; apply Nat.ltb_lt; lia).
    cbn [andb]. f_equal. lia.
Qed.

Lemma passes_of_batches_lookup en feats state b :
  (b * 16 < length feats)%nat ->
  map snd (passes_of en feats state) !! b
  = Some (chunk_at (context_windows feats) (b * 16)).
Proof.
  intros Hb. rewrite passes_of_chunks. unfold range0, num_batch_frames.
  rewrite !list_lookup_fmap.
  rewrite (lookup_seq_lt 0 ((length feats + 16 - 1) / 16) b); [done|].
  pose proof (Nat.div_mod_eq (length feats + 16 - 1) 16).
  pose proof (Nat.mod_upper_bound (length feats + 16 - 1) 16). lia.
Qed.

Lemma zeros_length n : length (zeros n) = n.
Proof. unfold zeros. apply repeat_length. Qed.

Lemma batches_passes (self : Pipeline) (en : ExecNet) (feats : list frame)
    (state : option lstm_state) (return_state : bool) :
  exec_net self = Some en ->
  batches (events_of (extract_per_frame_probs feats state return_state self))
  = map snd (passes_of en feats state).
Proof.
  intros Hen. unfold batches.
  destruct (extract_per_frame_probs_events feats state return_state self en Hen)
    as [_ ->].
  by rewrite infer_calls_pass_events.
Qed.

(** X6.  For frames of 26 coefficients, the window that
    [extract_per_frame_probs] hands to the network for the frame [j], as
    row [j mod 16] of batch [j / 16], has 19 rows of 26 coefficients: the
    frame [j] in the middle, the 9 frames before it and the 9 after it
    around it, and all-zero rows where the sequence has no frame, before
    its first and after its last. *)
Theorem context_window_centred (self : Pipeline) (en : ExecNet) (feats : list frame)
    (state : option lstm_state) (return_state : bool) (j : nat) :
  exec_net self = Some en ->
  Forall (fun f => length f = 26%nat) feats ->
  (j < length feats)%nat ->
  exists batch w,
    batches (events_of (extract_per_frame_probs feats state return_state self))
      !! (j / 16)%nat = Some batch /\
    batch !! (j mod 16)%nat = Some w /\
    length w = 19%nat /\
    Forall (fun f => length f = 26%nat) w /\
    w !! 9%nat = feats !! j /\
    forall r, (r < 19)%nat ->
      w !! r = if ((9 <=? j + r) && (j + r <? 9 + length feats))%nat
               then feats !! (j + r - 9)%nat else Some (zeros 26).
Proof.
  intros Hen Hwide Hj. rewrite (batches_passes _ en) by done.
  pose proof (context_windows_length feats) as Hws.
  destruct (context_windows feats !! j) as [w|] eqn:Hw;
    [|apply lookup_ge_None in Hw; unfold window, frame in *; lia].
  destruct (context_windows_lookup _ _ _ Hw) as (_ & Hlen & Hmid & Hrows).
  exists (chunk_at (context_windows feats) (j / 16 * 16)), w.
  pose proof (Nat.div_mod_eq j 16). pose proof (Nat.mod_upper_bound j 16).
  split; [apply passes_of_batches_lookup; lia|]. split.
  { rewrite chunk_at_eq. unfold num_batch_frames.
    rewrite lookup_app_l
      by (rewrite length_take, length_drop; unfold window, frame in *; lia).
    rewrite lookup_take_lt, lookup_drop by lia.
    replace (j / 16 * 16 + j mod 16)%nat with j by lia. exact Hw. }
  split; [done|]. split; [|done].
  apply Forall_lookup. intros r f Hr.
  assert (Hlt : (r < 19)%nat) by (rewrite <- Hlen; by eapply lookup_lt_Some).
  pose proof (eq_trans (eq_sym (Hrows r Hlt)) Hr) as Hf. clear Hr.
  destruct ((9 <=? j + r) && (j + r <? 9 + length feats))%nat.
  - exact (proj1 (Forall_lookup _ feats) Hwide _ _ Hf).
  - injection Hf as <-. apply zeros_length.
Qed.

(** X7.  [extract_per_frame_probs] gives the network every context window
    once and in order: window [j] is row [j mod 16] of batch [j / 16].
    There are [ceil(n / 16)] batches for [n] frames, and the rows of a
    batch that stand for no window are all-zero windows. *)
Theorem batches_hold_windows (self : Pipeline) (en : ExecNet) (feats : list frame)
    (state : option lstm_state) (return_state : bool) :
  exec_net self = Some en ->
  let given := batches (events_of (extract_per_frame_probs feats state return_state self)) in
  length given = ((length feats + 15) / 16)%nat /\
  (forall j, (j < length feats)%nat ->
     exists batch, given !! (j / 16)%nat = Some batch /\
                   batch !! (j mod 16)%nat = context_windows feats !! j) /\
  (forall b batch row, given !! b = Some batch -> (row < 16)%nat ->
     (length feats <= b * 16 + row)%nat -> batch !! row = Some zero_window).
Proof.
  intros Hen given.
  assert (Hgiven : given = map snd (passes_of en feats state)).
  { unfold given, batches.
    destruct (extract_per_frame_probs_events feats state return_state self en Hen)
      as [_ ->].
    by rewrite infer_calls_pass_events. }
  rewrite Hgiven. clear given Hgiven.
  pose proof (context_windows_length feats) as Hws.
  split; [by rewrite length_map, passes_of_length|]. split.
  - intros j Hj. exists (chunk_at (context_windows feats) (j / 16 * 16)).
    pose proof (Nat.div_mod_eq j 16). pose proof (Nat.mod_upper_bound j 16).
    split; [apply passes_of_batches_lookup; lia|].
    rewrite chunk_at_eq. unfold num_batch_frames.
    rewrite lookup_app_l by (rewrite length_take, length_drop; lia).
    rewrite lookup_take_lt, lookup_drop by lia. f_equal. lia.
  - intros b batch row Hb Hrow Hpast.
    assert (Hlt : (b < length (map snd (passes_of en feats state)))%nat)
      by (apply lookup_lt_is_Some; eauto).
    rewrite length_map, passes_of_length in Hlt.
    assert (Hstart : (b * 16 < length feats)%nat).
    { pose proof (Nat.div_mod_eq (length feats + 15) 16).
      pose proof (Nat.mod_upper_bound (length feats + 15) 16). lia. }
    rewrite passes_of_batches_lookup in Hb by done. injection Hb as <-.
    rewrite chunk_at_eq. unfold num_batch_frames.
    rewrite lookup_app_r by (rewrite length_take, length_drop; lia).
    apply repeat_lookup. rewrite length_take, length_drop. lia.
Qed.

(** *** The recurrent state across the batches *)

Lemma extract_per_frame_probs_run_state feats state self en :
  exec_net self = Some en ->
  extract_per_frame_probs feats state true self
  = (match passes_of en feats state with
     | [] => Raise (Exn ValueError "need at least one array to concatenate")
     | ps => Ok (concat (map (pass_logits en) ps), final_state_of en feats state)
     end,
     self, map (pass_event en) (passes_of en feats state)).
Proof.
  intros Hen. unfold extract_per_frame_probs, bind at 1, get.
  cbv beta iota. rewrite Hen.
  unfold final_state_of, passes_of, initial_state, context_windows.
  destruct state as [[state_h state_c]|]; cbv beta iota zeta; cbn [fst snd];
    unfold bind at 1; rewrite infer_chunks_run; cbn [fst snd app];
    (match goal with |- context [passes ?a ?b ?c ?d ?e] => destruct (passes a b c d e) end);
    unfold bind, concatenate, raise, ret; cbn [map app fst snd]; by rewrite ?app_nil_r.
Qed.

Lemma passes_threading en ws starts h c i p q :
  passes en ws starts h c !! i = Some p ->
  passes en ws starts h c !! S i = Some q ->
  (q.1.2, q.1.1) = handed_on en p.
Proof.
  revert h c i. induction starts as [|start rest IH]; intros h c i; [done|].
  cbn [passes]. destruct i as [|i].
  - intros [= <-]. cbn [lookup list_lookup].
    pose proof (passes_first en ws rest
                  (tensor_iterator_1 (infer en c h (chunk_at ws start)))
                  (tensor_iterator_2 (infer en c h (chunk_at ws start)))) as Hfirst.
    destruct (passes en ws rest _ _) as [|q' ps]; [done|].
    intros [= <-]. destruct Hfirst as [-> ->]. done.
  - cbn [lookup list_lookup]. apply IH.
Qed.

Lemma final_state_last en ws starts h c :
  final_state en ws starts h c
  = match last (passes en ws starts h c) with
    | Some p => handed_on en p
    | None => (h, c)
    end.
Proof.
  revert h c. induction starts as [|start rest IH]; intros h c; [done|].
  cbn [final_state passes]. rewrite IH.
  pose proof (passes_first en ws rest
                (tensor_iterator_1 (infer en c h (chunk_at ws start)))
                (tensor_iterator_2 (infer en c h (chunk_at ws start)))) as Hfirst.
  destruct (passes en ws rest _ _) as [|q ps]; [done|].
  rewrite last_cons_cons. destruct (last (q :: ps)) eqn:Hl; [done|].
  by apply last_None in Hl.
Qed.

(** X8.  The recurrent state goes from batch to batch: the first forward
    pass is given the state of the caller, zeros when there is none, each
    later pass the two state tensors the pass before it returned, and
    with [return_state] the call returns, beside the same matrix, the
    state tensors of its last pass. *)
Theorem state_threads_through_passes (self : Pipeline) (en : ExecNet)
    (feats : list frame) (state : option lstm_state) :
  exec_net self = Some en ->
  let calls := infer_calls (events_of (extract_per_frame_probs feats state true self)) in
  (forall p, calls !! 0%nat = Some p -> (p.1.2, p.1.1) = initial_state state) /\
  (forall i p q, calls !! i = Some p -> calls !! S i = Some q ->
     (q.1.2, q.1.1) = handed_on en p) /\
  (forall probs final,
     outcome_of (extract_per_frame_probs feats state true self) = Ok (probs, final) ->
     outcome_of (extract_per_frame_probs feats state false self) = Ok probs /\
     exists p, last calls = Some p /\ final = handed_on en p).
Proof.
  intros Hen calls.
  assert (Hcalls : calls = passes_of en feats state).
  { unfold calls. rewrite (extract_per_frame_probs_run_state _ _ _ en) by done.
    unfold events_of. cbn [snd]. apply infer_calls_pass_events. }
  rewrite Hcalls. clear calls Hcalls. split; [|split].
  - intros p Hp. unfold passes_of in Hp.
    pose proof (passes_first en (context_windows feats)
                  (range0 (length (context_windows feats)) num_batch_frames)
                  (initial_state state).1 (initial_state state).2) as Hfirst.
    destruct (passes _ _ _ _ _) as [|p' ps]; [done|]. injection Hp as <-.
    destruct Hfirst as [-> ->]. by destruct (initial_state state).
  - intros i p q. unfold passes_of. apply passes_threading.
  - intros probs final.
    rewrite (extract_per_frame_probs_run_state _ _ _ en),
            (extract_per_frame_probs_run _ _ _ en) by done.
    unfold outcome_of. cbn [fst].
    pose proof (final_state_last en (context_windows feats)
                  (range0 (length (context_windows feats)) num_batch_frames)
                  (initial_state state).1 (initial_state state).2) as Hlast.
    fold (final_state_of en feats state) in Hlast. fold (passes_of en feats state) in Hlast.
    destruct (passes_of en feats state) as [|p ps] eqn:Hps; [done|].
    intros [= <- <-]. split; [done|].
    destruct (last (p :: ps)) as [p'|] eqn:Hl.
    + eauto.
    + by apply last_None in Hl.
Qed.

(** X9.  An empty feature sequence is an error, not an empty result.  On
    an activated object [extract_per_frame_probs] makes no forward pass
    for it and raises the ValueError of [np.concatenate], whatever state
    it is given; and [recognize_audio] ends with this ValueError for an
    audio signal of which [extract_mfcc] returns no frame: no forward
    pass is made, the decoder is not called and the object is as it
    was. *)
Theorem empty_features_raise (self : Pipeline) (en : ExecNet) :
  exec_net self = Some en ->
  (forall state return_state,
     extract_per_frame_probs [] state return_state self
     = (Raise (Exn ValueError "need at least one array to concatenate"), self, [])) /\
  (forall audio sampling_rate,
     outcome_of (extract_mfcc audio sampling_rate self) = Ok [] ->
     outcome_of (recognize_audio audio sampling_rate self)
     = Raise (Exn ValueError "need at least one array to concatenate") /\
     self_of (recognize_audio audio sampling_rate self) = self /\
     infer_calls (events_of (recognize_audio audio sampling_rate self)) = [] /\
     decoded (events_of (recognize_audio audio sampling_rate self)) = []).
Proof.
  intros Hen. split.
  - intros state [|].
    + by rewrite (extract_per_frame_probs_run_state _ _ _ en).
    + by rewrite (extract_per_frame_probs_run _ _ _ en).
  - intros audio sampling_rate Hfeats.
    pose proof (extract_mfcc_self audio sampling_rate self) as Hself.
    pose proof (extract_mfcc_no_inference audio sampling_rate self) as Hquiet.
    pose proof (extract_mfcc_decodes_nothing audio sampling_rate self) as Hmute.
    unfold outcome_of, self_of, events_of in *.
    destruct (extract_mfcc audio sampling_rate self) as [[r s1] evs1] eqn:Hm.
    cbn [fst snd] in *. subst r s1.
    rewrite (recognize_audio_features _ _ _ _ _ Hm), Hen.
    change (passes_of en [] None) with (@nil (list Q * list Q * list window)).
    cbn [fst snd]. by rewrite Hquiet, Hmute.
Qed.

(** *** What the features depend on *)

Lemma extract_mfcc_depends audio audio' sampling_rate self :
  channels audio = channels audio' ->
  normalize (data audio) = normalize (data audio') ->
  extract_mfcc audio sampling_rate self = extract_mfcc audio' sampling_rate self.
Proof.
  intros Hch Hnorm.
  destruct (extract_mfcc_cases audio sampling_rate)
    as [Hoff|[[Hok Hc]|[[Hok (c & Hc & Hne)]|[Hok Hc]]]].
  - by rewrite !extract_mfcc_rate_off.
  - rewrite !extract_mfcc_no_axis; congruence.
  - rewrite !(extract_mfcc_channels _ _ _ c); congruence.
  - rewrite !extract_mfcc_accepts by congruence.
    unfold spectrogram_of, spectrogram_event. by rewrite Hnorm.
Qed.

(** X10.  A mono signal may be given flat or as a column: the shape of
    the array counts only through the axis that is validated.  Two arrays
    with the same samples, of the same dtype, whose validated axis is the
    same or missing in both are treated alike by [extract_mfcc] and by
    [recognize_audio]; so are the array of shape [(n,)] and the array of
    shape [(n, 1)]. *)
Theorem extract_mfcc_same_samples (self : Pipeline) (sampling_rate : Z)
    (values : samples) :
  (forall shape shape',
     channels (NdArray shape values) = channels (NdArray shape' values) ->
     extract_mfcc (NdArray shape values) sampling_rate self
     = extract_mfcc (NdArray shape' values) sampling_rate self /\
     recognize_audio (NdArray shape values) sampling_rate self
     = recognize_audio (NdArray shape' values) sampling_rate self) /\
  (forall n,
     extract_mfcc (NdArray [n] values) sampling_rate self
     = extract_mfcc (NdArray [n; 1%nat] values) sampling_rate self /\
     recognize_audio (NdArray [n] values) sampling_rate self
     = recognize_audio (NdArray [n; 1%nat] values) sampling_rate self).
Proof.
  assert (Hsame : forall shape shape',
    channels (NdArray shape values) = channels (NdArray shape' values) ->
    extract_mfcc (NdArray shape values) sampling_rate self
    = extract_mfcc (NdArray shape' values) sampling_rate self /\
    recognize_audio (NdArray shape values) sampling_rate self
    = recognize_audio (NdArray shape' values) sampling_rate self).
  { intros shape shape' Hch.
    pose proof (extract_mfcc_depends (NdArray shape values) (NdArray shape' values)
                  sampling_rate self Hch eq_refl) as Heq.
    split; [exact Heq|]. by rewrite !recognize_audio_unfold, Heq. }
  split; [exact Hsame|]. intros n. by apply Hsame.
Qed.

(** *** A call that goes through *)

(** X11.  When [recognize_audio] returns, the object was activated, the
    rate within a tenth of 16000 Hz, the validated axis of length 1, the
    spectrogram had a row and the features a frame.  What it returns is
    what the decoder makes of the concatenated matrix, the object is as
    it was, and the calls were one of [audio_spectrogram], one of [mfcc],
    a forward pass for every 16 frames begun and one [decode], in this
    order. *)
Theorem recognize_audio_returns (self : Pipeline) (audio : ndarray) (sampling_rate : Z)
    (hypotheses : list (Q * string)) :
  outcome_of (recognize_audio audio sampling_rate self) = Ok hypotheses ->
  let feats := mfcc (spectrogram_of audio sampling_rate) sampling_rate 26 in
  exists en,
    exec_net self = Some en /\ ~ rate_off sampling_rate /\
    channels audio = Some 1%nat /\ spectrogram_of audio sampling_rate <> [] /\
    feats <> [] /\
    let ps := passes_of en feats None in
    let probs := concat (map (pass_logits en) ps) in
    hypotheses = decode (decoder self) probs /\
    self_of (recognize_audio audio sampling_rate self) = self /\
    events_of (recognize_audio audio sampling_rate self)
    = [spectrogram_event audio sampling_rate;
       EvMfcc (spectrogram_of audio sampling_rate) sampling_rate 26]
      ++ map (pass_event en) ps ++ [EvDecode probs] /\
    length ps = ((length feats + 15) / 16)%nat.
Proof.
  intros Hret feats. unfold outcome_of, self_of, events_of in *.
  destruct (extract_mfcc_cases audio sampling_rate)
    as [Hoff|[[Hok Hc]|[[Hok (c & Hc & Hne)]|[Hok Hc]]]].
  - by rewrite recognize_audio_unfold, extract_mfcc_rate_off in Hret.
  - by rewrite recognize_audio_unfold, extract_mfcc_no_axis in Hret.
  - by rewrite recognize_audio_unfold, (extract_mfcc_channels _ _ _ c) in Hret.
  - destruct (spectrogram_of audio sampling_rate) as [|row sp] eqn:Hsp.
    { by rewrite recognize_audio_unfold, extract_mfcc_accepts, Hsp in Hret. }
    assert (Hm : extract_mfcc audio sampling_rate self
      = (Ok feats, self,
         [spectrogram_event audio sampling_rate; EvMfcc (row :: sp) sampling_rate 26])).
    { rewrite extract_mfcc_accepts by done. unfold feats. by rewrite Hsp. }
    rewrite (recognize_audio_features _ _ _ _ _ Hm) in Hret |- *.
    destruct (exec_net self) as [en|] eqn:Hen; [|done].
    exists en. split; [done|]. split; [done|]. split; [done|]. split; [done|].
    pose proof (passes_of_length en feats None) as Hlen.
    destruct (passes_of en feats None) as [|p ps] eqn:Hps; [done|].
    cbn [fst snd] in *. split.
    { intros Hnil. rewrite Hnil in Hlen. cbn in Hlen. lia. }
    cbv zeta. injection Hret as <-. by rewrite Hlen.
Qed.

(** *** The first activation *)

(** X12.  On an object that is not activated, [activate_model] loads the
    network of the object to the device, once, and keeps the result in
    [self.exec_net]; whatever activations follow, for whatever devices,
    the object stays bound to that first device. *)
Theorem first_activation_binds (self : Pipeline) (n : Net) (device : string) :
  net self = Some n -> exec_net self = None ->
  let bound := set_exec_net {| exec_network := n; exec_device := device |} self in
  activate_model device self = (Ok tt, bound, [EvLoadNetwork n device]) /\
  (forall devices, after_activations (device :: devices) self = bound) /\
  (forall later, activate_model later bound = (Ok tt, bound, [])).
Proof.
  intros Hn Hnone bound.
  assert (Hfirst : activate_model device self = (Ok tt, bound, [EvLoadNetwork n device])).
  { unfold activate_model, bind at 1, get. cbv beta iota. rewrite Hnone, Hn. done. }
  split; [exact Hfirst|]. split.
  - intros devices. unfold after_activations. cbn [fold_left]. rewrite Hfirst.
    unfold self_of at 2. cbn [fst snd].
    by apply (after_activations_active bound
                {| exec_network := n; exec_device := device |}).
  - intros later.
    by apply (activate_model_active bound {| exec_network := n; exec_device := device |}).
Qed.

End Inference.

(** *** The properties on the small network *)

#[local] Existing Instance toy_collaborators.

Lemma context_window_centred_witness :
  exists batch w,
    batches (events_of (extract_per_frame_probs
                          [repeat 1%Q 26; repeat 2%Q 26; repeat 3%Q 26] None false
                          toy_pipeline))
      !! 0%nat = Some batch /\
    batch !! 1%nat = Some w /\
    w !! 9%nat = Some (repeat 2%Q 26) /\
    w !! 7%nat = Some (zeros 26).
Proof.
  destruct (context_window_centred toy_pipeline
              {| exec_network := toy_net; exec_device := "CPU" |}
              [repeat 1%Q 26; repeat 2%Q 26; repeat 3%Q 26] None false 1 eq_refl)
    as (batch & w & Hbatch & Hrow & _ & _ & Hmid & Hrows).
  - repeat constructor.
  - cbn. lia.
  - exists batch, w. split; [exact Hbatch|]. split; [exact Hrow|].
    split; [exact Hmid|]. apply (Hrows 7%nat). lia.
Defined.

Lemma batches_hold_windows_witness :
  exec_net toy_pipeline = Some {| exec_network := toy_net; exec_device := "CPU" |} /\
  length (batches (events_of
            (extract_per_frame_probs (repeat (zeros 26) 17) None false toy_pipeline)))
  = 2%nat.
Proof.
  destruct (batches_hold_windows toy_pipeline
              {| exec_network := toy_net; exec_device := "CPU" |}
              (repeat (zeros 26) 17) None false eq_refl) as (Hlen & _).
  split; [reflexivity|exact Hlen].
Defined.

Lemma state_threads_through_passes_witness :
  exec_net toy_pipeline = Some {| exec_network := toy_net; exec_device := "CPU" |} /\
  forall p,
    infer_calls (events_of
      (extract_per_frame_probs (repeat (zeros 26) 17) None true toy_pipeline)) !! 0%nat
    = Some p ->
    (p.1.2, p.1.1) = (zeros 2048, zeros 2048).
Proof.
  destruct (state_threads_through_passes toy_pipeline
              {| exec_network := toy_net; exec_device := "CPU" |}
              (repeat (zeros 26) 17) None eq_refl) as (Hfirst & _).
  split; [reflexivity|exact Hfirst].
Defined.

Lemma empty_features_raise_witness :
  exec_net toy_pipeline = Some {| exec_network := toy_net; exec_device := "CPU" |} /\
  extract_per_frame_probs [] None false toy_pipeline
  = (Raise (Exn ValueError "need at least one array to concatenate"), toy_pipeline, []) /\
  outcome_of (@recognize_audio mute_collaborators toy_audio 16000 toy_pipeline)
  = Raise (Exn ValueError "need at least one array to concatenate").
Proof.
  split; [reflexivity|]. split.
  - exact (proj1 (empty_features_raise (H := toy_collaborators) toy_pipeline
                    {| exec_network := toy_net; exec_device := "CPU" |} eq_refl)
             None false).
  - exact (proj1 (proj2 (empty_features_raise (H := mute_collaborators) toy_pipeline
                           {| exec_network := toy_net; exec_device := "CPU" |} eq_refl)
                    toy_audio 16000%Z eq_refl)).
Defined.

Lemma recognize_audio_returns_witness :
  outcome_of (recognize_audio toy_audio 16000 toy_pipeline) = Ok [(0%Q, "")] /\
  length (events_of (recognize_audio toy_audio 16000 toy_pipeline)) = 4%nat.
Proof.
  assert (Hret : outcome_of (recognize_audio toy_audio 16000 toy_pipeline)
                 = Ok [(0%Q, "")]) by reflexivity.
  destruct (recognize_audio_returns toy_pipeline toy_audio 16000 _ Hret)
    as (en & _ & _ & _ & _ & _ & _ & _ & Hevs & _).
  split; [exact Hret|]. rewrite Hevs. reflexivity.
Defined.

Lemma first_activation_binds_witness :
  net toy_unactivated = Some toy_net /\
  exec_net toy_unactivated = None /\
  after_activations ["GPU"; "CPU"; "MYRIAD"] toy_unactivated
  = set_exec_net {| exec_network := toy_net; exec_device := "GPU" |} toy_unactivated.
Proof.
  destruct (first_activation_binds toy_unactivated toy_net "GPU" eq_refl eq_refl)
    as (_ & Hlater & _).
  split; [reflexivity|]. split; [reflexivity|]. exact (Hlater ["CPU"; "MYRIAD"]).
Defined.

End DeepSpeechMoreFacts.

(** ** More on the gallery sync *)

Module GallerySyncMoreFacts.
Import GallerySync GallerySyncMore GallerySyncFacts.

(** *** Relations a computation keeps to *)

Section Respects.
Context {S E : Type} (Q : S -> S -> list E -> Prop).
Hypothesis Q_refl : forall s, Q s s [].
Hypothesis Q_trans :
  forall s s1 s2 evs1 evs2, Q s s1 evs1 -> Q s1 s2 evs2 -> Q s s2 (evs1 ++ evs2).

Lemma respects_ret {A} (a : A) s : respects_at Q (ret a) s.
Proof. apply Q_refl. Qed.

Lemma respects_raise {A} e s : respects_at Q (raise (A:=A) e) s.
Proof. apply Q_refl. Qed.

Lemma respects_get s : respects_at Q get s.
Proof. apply Q_refl. Qed.

Lemma respects_bind {A B} (m : M S E A) (k : A -> M S E B) s :
  respects_at Q m s ->
  (forall a s1 evs1, m s = (Ok a, s1, evs1) -> respects_at Q (k a) s1) ->
  respects_at Q (bind m k) s.
Proof.
  unfold respects_at, bind. intros Hm Hk.
  destruct (m s) as [[[a|e] s1] evs1]; [|done].
  specialize (Hk a s1 evs1 eq_refl). destruct (k a s1) as [[r s2] evs2].
  cbn in *. by eapply Q_trans.
Qed.

Lemma respects_try_except {A} (body : M S E A) catches handler s :
  respects_at Q body s ->
  (forall e s1 evs1, body s = (Raise e, s1, evs1) -> respects_at Q (handler e) s1) ->
  respects_at Q (try_except body catches handler) s.
Proof.
  unfold respects_at, try_except. intros Hm Hk.
  destruct (body s) as [[[a|e] s1] evs1]; [done|].
  destruct (catches e); [|done].
  specialize (Hk e s1 evs1 eq_refl). destruct (handler e s1) as [[r s2] evs2].
  cbn in *. by eapply Q_trans.
Qed.

Lemma respects_for_items {A} (xs : list A) stop (body : A -> M S E unit) :
  (forall x, In x xs -> forall s, respects_at Q (body x) s) ->
  forall s, respects_at Q (for_items xs stop body) s.
Proof.
  induction xs as [|x rest IH]; intros Hbody s; cbn [for_items].
  - destruct stop; [apply respects_raise|apply respects_ret].
  - apply respects_bind; [apply Hbody; by left|].
    intros _ s1 _ _. apply IH. intros y Hy. apply Hbody. by right.
Qed.

End Respects.

(** *** Only the handler at the top prints an exception *)

Lemma quiet_refl fs : quiet fs fs [].
Proof. done. Qed.

Lemma quiet_trans fs fs1 fs2 evs1 evs2 :
  quiet fs fs1 evs1 -> quiet fs1 fs2 evs2 -> quiet fs fs2 (evs1 ++ evs2).
Proof. unfold quiet. intros H1 H2. by rewrite completed_app, H1, H2. Qed.

Lemma sync_blob_quiet local_path c b fs :
  respects_at quiet (sync_blob local_path c b) fs.
Proof.
  unfold respects_at, quiet. rewrite sync_blob_run. cbv zeta.
  destruct (path_exists fs _); [done|].
  destruct (download b) as [stream|e].
  - by destruct (lookup_path fs _).
  - by destruct (is_ResourceNotFoundError e).
Qed.

Lemma sync_container_quiet local_path c fs :
  respects_at quiet (sync_container local_path c) fs.
Proof.
  unfold sync_container, for_each.
  apply (respects_bind quiet quiet_trans); [done|intros _ s1 _ _].
  apply (respects_bind quiet quiet_trans); [done|intros _ s2 _ _].
  apply (respects_for_items quiet quiet_refl quiet_trans).
  intros b _ s. apply sync_blob_quiet.
Qed.

Lemma run_sample_body_quiet env azs_storage fs :
  completed (run_sample_body env azs_storage fs).2 = true.
Proof.
  change (respects_at quiet (run_sample_body env azs_storage) fs).
  unfold run_sample_body.
  apply (respects_bind quiet quiet_trans); [by destruct (connect env azs_storage)|].
  intros acc s1 _ _.
  apply (respects_bind quiet quiet_trans); [done|intros fs0 s2 _ _].
  apply (respects_bind quiet quiet_trans).
  - destruct (negb _); [|done].
    apply (respects_bind quiet quiet_trans); [|by intros].
    unfold respects_at, quiet, makedirs, bind, get, raise, put. cbv beta iota.
    destruct (path_exists s2 _); [done|]. by destruct (existsb _ _).
  - intros _ s3 _ _. unfold for_each.
    apply (respects_for_items quiet quiet_refl quiet_trans).
    intros c _ s. apply sync_container_quiet.
Qed.

(** *** A second run *)

Lemma settled_extends env fs fs' b : extends fs fs' -> settled env fs b -> settled env fs' b.
Proof. intros Hext [Hex|Hgone]; [left; by eapply extends_path_exists|by right]. Qed.

Lemma blobs_done_nil env fs : blobs_done env [] fs fs.
Proof. split; [apply extends_refl|constructor]. Qed.

Lemma blobs_done_app env l1 l2 fs fs1 fs2 :
  blobs_done env l1 fs fs1 -> blobs_done env l2 fs1 fs2 -> blobs_done env (l1 ++ l2) fs fs2.
Proof.
  intros [He1 Hs1] [He2 Hs2]. split; [by eapply extends_trans|].
  apply Forall_app. split; [|done].
  eapply Forall_impl; [exact Hs1|]. intros b. by apply settled_extends.
Qed.

Lemma sync_blob_done env c b fs fs' evs :
  sync_blob (mirror_root env) c b fs = (Ok tt, fs', evs) -> blobs_done env [b] fs fs'.
Proof.
  intros Hrun.
  destruct (mirror_safe_sync_blob (mirror_root env) c b fs) as [Hext _].
  rewrite Hrun in Hext. cbn [fst snd] in Hext. split; [done|].
  apply Forall_singleton.
  rewrite sync_blob_run in Hrun. cbv zeta in Hrun.
  destruct (path_exists fs _) eqn:Hex.
  - injection Hrun as <- _. by left.
  - destruct (download b) as [stream|e] eqn:Hdl.
    + destruct (lookup_path fs _) as [k|k| | |] eqn:Hfound; try done.
      injection Hrun as <- _. left. by apply lookup_created.
    + destruct (is_ResourceNotFoundError e) eqn:Hnf; [|done]. right. eauto.
Qed.

Lemma containers_done_nil env fs : containers_done env [] fs fs.
Proof. split; [apply extends_refl|constructor]. Qed.

Lemma containers_done_app env l1 l2 fs fs1 fs2 :
  containers_done env l1 fs fs1 -> containers_done env l2 fs1 fs2 ->
  containers_done env (l1 ++ l2) fs fs2.
Proof.
  intros [He1 Hs1] [He2 Hs2]. split; [by eapply extends_trans|].
  apply Forall_app. split; [|done].
  eapply Forall_impl; [exact Hs1|]. intros c [Hstop Hbs]. split; [done|].
  eapply Forall_impl; [exact Hbs|]. intros b. by apply settled_extends.
Qed.

Lemma sync_container_done env c fs fs' evs :
  sync_container (mirror_root env) c fs = (Ok tt, fs', evs) ->
  containers_done env [c] fs fs'.
Proof.
  unfold sync_container, for_each. intros Hrun.
  apply bind_ok in Hrun as ([] & s1 & evs1 & evs2 & [= <- _] & Hrun & _).
  apply bind_ok in Hrun as ([] & s2 & evs3 & evs4 & [= <- _] & Hrun & _).
  eapply (for_items_ok _ (fun b => [b]) (blobs_done env)) in Hrun as [Hstop [Hext Hm]].
  - rewrite flat_map_singleton in Hm. split; [done|]. by apply Forall_singleton.
  - apply blobs_done_nil.
  - apply blobs_done_app.
  - intros b s s' evs'. apply sync_blob_done.
Qed.

(** Going through settled blobs changes nothing. *)
Lemma settled_blobs_run env c bs fs :
  Forall (settled env fs) bs ->
  exists evs, for_items bs None (sync_blob (mirror_root env) c) fs = (Ok tt, fs, evs).
Proof.
  induction 1 as [|b bs Hb _ [evs IH]]; [by eexists|].
  assert (Hstep : exists evs1, sync_blob (mirror_root env) c b fs = (Ok tt, fs, evs1)).
  { rewrite sync_blob_run. cbv zeta.
    destruct (path_exists fs _) eqn:Hex; [by eexists|].
    destruct Hb as [Hb|(e & -> & ->)]; [congruence|by eexists]. }
  destruct Hstep as [evs1 Hstep].
  rewrite (for_items_continue _ _ _ _ _ _ _ Hstep), IH. by eexists.
Qed.

Lemma settled_containers_run env cs fs :
  Forall (container_settled env fs) cs ->
  exists evs, for_items cs None (sync_container (mirror_root env)) fs = (Ok tt, fs, evs).
Proof.
  induction 1 as [|c cs [Hstop Hbs] _ [evs IH]]; [by eexists|].
  assert (Hstep : exists evs1, sync_container (mirror_root env) c fs = (Ok tt, fs, evs1)).
  { destruct (settled_blobs_run env c _ fs Hbs) as [evs1 Hloop].
    unfold sync_container, for_each. rewrite Hstop.
    unfold bind at 1, emit at 1. cbv beta iota.
    unfold bind at 1, emit at 1. cbv beta iota.
    rewrite Hloop. by eexists. }
  destruct Hstep as [evs1 Hstep].
  rewrite (for_items_continue _ _ _ _ _ _ _ Hstep), IH. by eexists.
Qed.

Lemma prefixes_self k : k <> [] -> k ∈ prefixes k.
Proof.
  intros Hk. unfold prefixes. apply list_elem_of_fmap. exists (length k).
  split; [by rewrite firstn_all|]. apply elem_of_seq.
  destruct k; [done|]. cbn [length]. lia.
Qed.

(** The run up to the loop over the containers. *)
Lemma run_sample_body_start env azs_storage fs fs' evs :
  run_sample_body env azs_storage fs = (Ok tt, fs', evs) ->
  exists acc ready evs0 evs2,
    connect env azs_storage = Ok acc /\
    ensure_root (mirror_root env) fs = (Ok tt, ready, evs0) /\
    for_items (items (containers acc)) (failure (containers acc))
      (sync_container (mirror_root env)) ready = (Ok tt, fs', evs2).
Proof.
  intros Hrun.
  destruct (connect env azs_storage) as [acc|e] eqn:Hconn.
  - rewrite (run_sample_body_run _ _ _ _ Hconn) in Hrun.
    apply bind_ok in Hrun as ([] & ready & evs0 & evs2 & Hroot & Hloop & _).
    by exists acc, ready, evs0, evs2.
  - unfold run_sample_body in Hrun. by rewrite Hconn in Hrun.
Qed.

(** What [ensure_root] does when it returns. *)
Lemma ensure_root_ok local_path fs ready evs :
  ensure_root local_path fs = (Ok tt, ready, evs) ->
  (path_exists fs local_path = true /\ ready = fs)
  \/ (path_exists fs local_path = false /\
      existsb (is_file fs) (prefixes (posixpath.resolve local_path)) = false /\
      ready = {| files := files fs;
                 dirs := dirs fs ∪ list_to_set (prefixes (posixpath.resolve local_path)) |}).
Proof.
  unfold ensure_root. intros Hrun.
  apply bind_ok in Hrun as (fs0 & s0 & evs3 & evs4 & [= <- <- _] & Hrun & _).
  destruct (path_exists fs local_path) eqn:Hex; cbn [negb] in Hrun.
  - injection Hrun as <- _. by left.
  - right. split; [done|].
    apply bind_ok in Hrun as ([] & s1 & evs1 & evs2 & Hmk & [= <-] & _).
    unfold makedirs, bind, get, raise, put in Hmk. cbv beta iota in Hmk.
    rewrite Hex in Hmk. destruct (existsb _ _); [done|]. by injection Hmk as <- _.
Qed.

(** Once the mirror root was seen to, seeing to it again changes
    nothing, whatever was mirrored in between. *)
Lemma ensure_root_again env bs fs ready evs mirror :
  ensure_root (mirror_root env) fs = (Ok tt, ready, evs) ->
  mirrored env bs ready mirror ->
  exists evs', ensure_root (mirror_root env) mirror = (Ok tt, mirror, evs').
Proof.
  intros Hroot [Hdirs Hfiles].
  unfold ensure_root, bind at 1, get. cbv beta iota.
  destruct (path_exists mirror (mirror_root env)) eqn:Hthere; cbn [negb]; [by eexists|].
  apply ensure_root_ok in Hroot as [[Hex ->]|(Hex & Hfree & ->)].
  { assert (Hext : extends fs mirror).
    { split; [|by rewrite Hdirs]. intros k content Hk. rewrite Hfiles. unfold expect.
      by rewrite (entry_exists_file _ _ _ Hk). }
    by rewrite (extends_path_exists _ _ _ Hext Hex) in Hthere. }
  cbn [dirs files] in *.
  assert (Hmk : makedirs (mirror_root env) mirror = (Ok tt, mirror, [])).
  { unfold makedirs, bind, get, raise, put. cbv beta iota. rewrite Hthere.
    assert (Hnone : existsb (is_file mirror) (prefixes (posixpath.resolve (mirror_root env)))
                    = false).
    { apply not_true_is_false. intros (k & Hk & Hfile)%existsb_exists.
      assert (Hdir : entry_exists
                       {| files := files fs;
                          dirs := dirs fs
                                  ∪ list_to_set (prefixes (posixpath.resolve (mirror_root env))) |}
                       k = true).
      { unfold entry_exists, is_dir. cbn [dirs].
        rewrite (bool_decide_eq_true_2 (k = [] ∨ _)); [done|].
        right. apply elem_of_union_r, elem_of_list_to_set. by apply list_elem_of_In. }
      unfold is_file in Hfile. rewrite Hfiles in Hfile. unfold expect in Hfile.
      rewrite Hdir in Hfile. cbn [files] in Hfile.
      assert (Hnot : is_file fs k = false).
      { apply not_true_is_false. intros Hf.
        assert (Hsome : existsb (is_file fs) (prefixes (posixpath.resolve (mirror_root env)))
                        = true) by (apply existsb_exists; eauto).
        congruence. }
      unfold is_file in Hnot. congruence. }
    rewrite Hnone. f_equal. f_equal. destruct mirror as [mfiles mdirs].
    cbn [files dirs] in *. f_equal. rewrite Hdirs.
    by rewrite <- (assoc_L (∪)), (idemp_L (∪)). }
  rewrite (bind_run _ _ _ _ _ _ Hmk). by eexists.
Qed.

(** X13.  A run that came to its end leaves nothing for the next one: run
    again on the same store, [run_sample] returns without an exception
    reaching its handler and the file system is exactly as the first run
    left it. *)
Theorem run_sample_twice (env : environment) (azs_storage : string) (fs : FS) :
  completed (run_sample env azs_storage fs).2 = true ->
  let mirror := (run_sample env azs_storage fs).1.2 in
  (run_sample env azs_storage mirror).1.1 = Ok tt /\
  (run_sample env azs_storage mirror).1.2 = mirror /\
  completed (run_sample env azs_storage mirror).2 = true.
Proof.
  intros Hdone mirror. apply run_sample_completed in Hdone. fold mirror in Hdone.
  apply run_sample_body_start in Hdone
    as (acc & ready & evs0 & evs2 & Hconn & Hroot & Hloop).
  pose proof Hloop as Hloop'.
  eapply (for_items_ok _ (fun c => items (container_blobs c)) (mirrored env)) in Hloop'
    as [_ Hmirrored];
    [|apply mirrored_nil|apply mirrored_app
     |intros c s s' evs'; apply sync_container_mirrored].
  destruct (ensure_root_again _ _ _ _ _ _ Hroot Hmirrored) as [evs1 Hroot'].
  eapply (for_items_ok _ (fun c => [c]) (containers_done env)) in Hloop
    as [Hstop [Hext2 Hsettled]];
    [|apply containers_done_nil|apply containers_done_app
     |intros c s s' evs'; apply sync_container_done].
  rewrite flat_map_singleton in Hsettled.
  destruct (settled_containers_run env _ mirror Hsettled) as [evs3 Hagain].
  assert (Hbody : run_sample_body env azs_storage mirror = (Ok tt, mirror, evs1 ++ evs3)).
  { rewrite (run_sample_body_run _ _ _ _ Hconn), (bind_run _ _ _ _ _ _ Hroot').
    unfold for_each. by rewrite Hstop, Hagain. }
  unfold run_sample, try_except. rewrite Hbody. cbn [fst snd].
  split; [done|]. split; [done|].
  pose proof (run_sample_body_quiet env azs_storage mirror) as Hquiet.
  by rewrite Hbody in Hquiet.
Qed.

(** *** What a run leaves behind *)

Section Footprint.
Context (local_path : string) (made : list (list string))
        (allowed : string -> string -> Prop).

Lemma footprint_refl fs : footprint local_path made allowed fs fs [].
Proof. split; [auto|]. split; [auto|]. by intros c n []. Qed.

Lemma footprint_trans fs fs1 fs2 evs1 evs2 :
  footprint local_path made allowed fs fs1 evs1 ->
  footprint local_path made allowed fs1 fs2 evs2 ->
  footprint local_path made allowed fs fs2 (evs1 ++ evs2).
Proof.
  intros (Hd1 & Hf1 & Ha1) (Hd2 & Hf2 & Ha2). split; [|split].
  - intros k Hk. destruct (Hd2 k Hk); auto.
  - intros k content Hk. destruct (Hf2 k content Hk) as [Hk1|(c & n & Hin & Hkn)].
    + destruct (Hf1 k content Hk1) as [|(c & n & Hin & Hkn)]; [by left|].
      right. exists c, n. rewrite downloads_app, in_app_iff. auto.
    + right. exists c, n. rewrite downloads_app, in_app_iff. auto.
  - intros c n. rewrite downloads_app, in_app_iff. intros [|]; auto.
Qed.

Lemma footprint_quiet fs evs :
  downloads evs = [] -> footprint local_path made allowed fs fs evs.
Proof. intros Hq. split; [auto|]. split; [auto|]. intros c n. by rewrite Hq. Qed.

Lemma sync_blob_footprint c b fs :
  allowed (container_name c) (blob_name b) ->
  respects_at (footprint local_path made allowed) (sync_blob local_path c b) fs.
Proof.
  intros Hallowed. unfold respects_at. rewrite sync_blob_run. cbv zeta.
  destruct (path_exists fs _); [by apply footprint_quiet|].
  assert (Hdl : forall more, downloads more = [] ->
    downloads ((blob_header local_path b
                ++ [Print "[ DEBUG ] File NOT Exist! Update New Image...";
                    Download (container_name c) (blob_name b)]) ++ more)
    = [(container_name c, blob_name b)]).
  { intros more Hmore. by rewrite !downloads_app, Hmore. }
  assert (Hsame : forall more, downloads more = [] ->
    footprint local_path made allowed fs fs
      ((blob_header local_path b
        ++ [Print "[ DEBUG ] File NOT Exist! Update New Image...";
            Download (container_name c) (blob_name b)]) ++ more)).
  { intros more Hmore. split; [auto|]. split; [auto|].
    intros c' n. rewrite (Hdl more Hmore). intros [[= <- <-]|[]]. done. }
  destruct (download b) as [stream|e].
  - destruct (lookup_path fs _) as [k0|k0| | |] eqn:Hfound; cbn [fst snd];
      try (rewrite <- (app_nil_r (_ ++ _)); by apply Hsame).
    apply lookup_free in Hfound as (-> & _).
    split; [auto|]. split.
    + intros k content. cbn [files].
      destruct (decide (posixpath.resolve (posixpath.join local_path (blob_name b)) = k))
        as [<-|Hne].
      * intros _. right. exists (container_name c), (blob_name b).
        rewrite <- (app_nil_r (_ ++ _)), (Hdl [] eq_refl). split; [by left|done].
      * rewrite lookup_insert_ne by done. auto.
    + intros c' n. rewrite <- (app_nil_r (_ ++ _)), (Hdl [] eq_refl).
      intros [[= <- <-]|[]]. done.
  - destruct (is_ResourceNotFoundError e); cbn [fst snd].
    + by apply Hsame.
    + rewrite <- (app_nil_r (_ ++ _)). by apply Hsame.
Qed.

Lemma sync_container_footprint c fs :
  (forall b, In b (items (container_blobs c)) -> allowed (container_name c) (blob_name b)) ->
  respects_at (footprint local_path made allowed) (sync_container local_path c) fs.
Proof.
  intros Hallowed. unfold sync_container, for_each.
  apply (respects_bind _ footprint_trans); [by apply footprint_quiet|intros _ s1 _ _].
  apply (respects_bind _ footprint_trans); [by apply footprint_quiet|intros _ s2 _ _].
  apply (respects_for_items _ footprint_refl footprint_trans).
  intros b Hb s. by apply sync_blob_footprint, Hallowed.
Qed.

End Footprint.

Lemma run_sample_keeps_footprint env azs_storage fs :
  respects_at
    (footprint (mirror_root env) (prefixes (posixpath.resolve (mirror_root env)))
       (fun c n => exists acc, connect env azs_storage = Ok acc /\ listed acc c n))
    (run_sample env azs_storage) fs.
Proof.
  set (allowed := fun c n => exists acc, connect env azs_storage = Ok acc /\ listed acc c n).
  set (made := prefixes (posixpath.resolve (mirror_root env))).
  pose proof (footprint_trans (mirror_root env) made allowed) as Htrans.
  pose proof (footprint_refl (mirror_root env) made allowed) as Hrefl.
  unfold run_sample.
  apply (respects_try_except _ Htrans); [|intros e s1 _ _; by apply footprint_quiet].
  unfold run_sample_body. fold (mirror_root env).
  apply (respects_bind _ Htrans).
  { destruct (connect env azs_storage); by apply footprint_quiet. }
  intros acc s1 evs1 Hconn.
  assert (Hacc : connect env azs_storage = Ok acc).
  { unfold lift in Hconn. by destruct (connect env azs_storage) as [acc'|]; [injection Hconn as ->|]. }
  apply (respects_bind _ Htrans); [by apply footprint_quiet|intros fs0 s2 _ _].
  apply (respects_bind _ Htrans).
  - destruct (negb _); [|by apply footprint_quiet].
    apply (respects_bind _ Htrans); [|intros; by apply footprint_quiet].
    unfold respects_at, makedirs, bind, get, raise, put. cbv beta iota.
    destruct (path_exists s2 _); [by apply footprint_quiet|].
    destruct (existsb _ _); [by apply footprint_quiet|]. cbn [fst snd].
    split; [|split; [auto|by intros c n []]].
    intros k. cbn [dirs]. rewrite elem_of_union, elem_of_list_to_set. tauto.
  - intros _ s3 _ _. unfold for_each.
    apply (respects_for_items _ Hrefl Htrans). intros c Hc s.
    apply sync_container_footprint. intros b Hb.
    exists acc. split; [done|]. by exists c, b.
Qed.


(** X14.  Whatever a run of [run_sample] meets, it leaves behind no
    directory besides the mirror root and the directories above it, no
    file besides those there were, with their content, and those at the
    local paths of the blobs it downloaded, and it downloads nothing but
    blobs the account lists. *)
Theorem run_sample_footprint (env : environment) (azs_storage : string) (fs : FS) :
  let after := (run_sample env azs_storage fs).1.2 in
  let evs := (run_sample env azs_storage fs).2 in
  (forall k, k ∈ dirs after ->
     k ∈ dirs fs \/ k ∈ prefixes (posixpath.resolve (mirror_root env))) /\
  (forall k content, files after !! k = Some content ->
     files fs !! k = Some content
     \/ exists c n, In (c, n) (downloads evs)
                    /\ posixpath.resolve (posixpath.join (mirror_root env) n) = k) /\
  (forall c n, In (c, n) (downloads evs) ->
     exists acc, connect env azs_storage = Ok acc /\ listed acc c n).
Proof. exact (run_sample_keeps_footprint env azs_storage fs). Qed.

(** *** The mirror root *)

Lemma run_sample_state env azs_storage fs :
  (run_sample env azs_storage fs).1.2 = (run_sample_body env azs_storage fs).1.2.
Proof.
  unfold run_sample, try_except.
  by destruct (run_sample_body env azs_storage fs) as [[[[]|e] fs1] evs].
Qed.

Lemma makedirs_run fs p :
  path_exists fs p = false ->
  makedirs p fs
  = if existsb (is_file fs) (prefixes (posixpath.resolve p))
    then (Raise (Exn OSError ("[Errno 20] Not a directory: '" ++ p ++ "'")), fs, [])
    else (Ok tt, {| files := files fs;
                    dirs := dirs fs ∪ list_to_set (prefixes (posixpath.resolve p)) |}, []).
Proof.
  intros Hex. unfold makedirs, bind, get, raise, put. cbv beta iota.
  rewrite Hex. by destruct (existsb _ _).
Qed.

Lemma loop_footprint local_path (cs : iterable container) fs :
  respects_at (footprint local_path [] (fun _ _ => True))
    (for_each cs (sync_container local_path)) fs.
Proof.
  unfold for_each.
  apply (respects_for_items _ (footprint_refl local_path [] _)
           (footprint_trans local_path [] _)).
  intros c _ s. by apply sync_container_footprint.
Qed.

Lemma run_sample_body_fresh env azs_storage fs acc :
  connect env azs_storage = Ok acc ->
  path_exists fs (mirror_root env) = false ->
  existsb (is_file fs) (prefixes (posixpath.resolve (mirror_root env))) = false ->
  run_sample_body env azs_storage fs
  = let ready := {| files := files fs;
                    dirs := dirs fs
                            ∪ list_to_set (prefixes (posixpath.resolve (mirror_root env))) |} in
    let '(r, fs1, evs1) := for_each (containers acc) (sync_container (mirror_root env)) ready in
    (r, fs1, Print ("[ DEBUG ] Make " ++ mirror_root env) :: evs1).
Proof.
  intros Hconn Hex Hfree. unfold run_sample_body. fold (mirror_root env). rewrite Hconn.
  unfold lift, bind at 1, ret at 1. cbv beta iota.
  unfold bind at 1, get. cbv beta iota. rewrite Hex. cbn [negb].
  unfold bind at 1, bind at 1. rewrite (makedirs_run _ _ Hex), Hfree.
  unfold emit. cbv beta iota zeta.
  by destruct (for_each _ _ _) as [[r fs1] evs1].
Qed.

(** X15.  [run_sample] connects before it touches the disk: refused by
    the service, it prints the exception and leaves the file system as
    it is, without the mirror root.  Connected, it first makes sure of the
    mirror root: a root that is missing is created with the directories
    above it and reported, before any container is listed, and it is
    there after the run whatever happens later; when a file stands where
    one of these directories should be, the run ends at once with the
    OSError printed and nothing changed. *)
Theorem run_sample_mirror_root (env : environment) (azs_storage : string) (fs : FS) :
  let root := mirror_root env in
  (forall e, connect env azs_storage = Raise e ->
     run_sample env azs_storage fs = (Ok tt, fs, [PrintException e])) /\
  (forall acc, connect env azs_storage = Ok acc ->
     path_exists fs root = true ->
     path_exists (run_sample env azs_storage fs).1.2 root = true /\
     dirs (run_sample env azs_storage fs).1.2 = dirs fs) /\
  (forall acc, connect env azs_storage = Ok acc ->
     path_exists fs root = false ->
     existsb (is_file fs) (prefixes (posixpath.resolve root)) = false ->
     is_dir (run_sample env azs_storage fs).1.2 (posixpath.resolve root) = true /\
     hd_error (run_sample env azs_storage fs).2 = Some (Print ("[ DEBUG ] Make " ++ root))) /\
  (forall acc, connect env azs_storage = Ok acc ->
     path_exists fs root = false ->
     existsb (is_file fs) (prefixes (posixpath.resolve root)) = true ->
     exists e, exn_cls e = OSError /\
               run_sample env azs_storage fs = (Ok tt, fs, [PrintException e])).
Proof.
  cbv zeta. split; [|split; [|split]].
  - intros e Hconn. unfold run_sample, try_except, run_sample_body.
    rewrite Hconn. reflexivity.
  - intros acc Hconn Hex. rewrite run_sample_state.
    destruct (mirror_safe_run_sample_body env azs_storage fs) as [Hext _].
    split; [by eapply extends_path_exists|].
    apply set_eq. intros k. split; [|destruct Hext as [_ Hsub]; set_solver].
    unfold run_sample_body. fold (mirror_root env). rewrite Hconn.
    unfold lift, bind at 1, ret at 1. cbv beta iota.
    unfold bind at 1, get. cbv beta iota. rewrite Hex. cbn [negb].
    unfold bind at 1, ret at 1. cbv beta iota.
    pose proof (loop_footprint (mirror_root env) (containers acc) fs) as (Hloop & _).
    destruct (for_each (containers acc) (sync_container (mirror_root env)) fs)
      as [[r fs1] evs1]. cbn [fst snd] in *. intros Hk.
    destruct (Hloop k Hk) as [|Hno]; [done|]. by apply elem_of_nil in Hno.
  - intros acc Hconn Hex Hfree.
    unfold run_sample, try_except. rewrite (run_sample_body_fresh _ _ _ _ Hconn Hex Hfree).
    set (ready := {| files := files fs; dirs := _ |}).
    destruct (mirror_safe_for_items (mirror_root env) (items (containers acc))
                (failure (containers acc)) (sync_container (mirror_root env))
                (mirror_safe_sync_container (mirror_root env)) ready) as [Hext _].
    unfold for_each.
    destruct (for_items _ _ _ ready) as [[r fs1] evs1]. cbn [fst snd app] in *.
    assert (Hroot : is_dir fs1 (posixpath.resolve (mirror_root env)) = true).
    { unfold is_dir. apply bool_decide_eq_true.
      destruct (decide (posixpath.resolve (mirror_root env) = [])) as [|Hne]; [by left|].
      right. destruct Hext as [_ Hsub]. apply Hsub. unfold ready. cbn [dirs].
      apply elem_of_union_r, elem_of_list_to_set. by apply prefixes_self. }
    by destruct r as [[]|e]; split.
  - intros acc Hconn Hex Hblocked. eexists. split; [|].
    2:{ unfold run_sample, try_except, run_sample_body. fold (mirror_root env). rewrite Hconn.
        unfold lift, bind at 1, ret at 1. cbv beta iota.
        unfold bind at 1, get. cbv beta iota. rewrite Hex. cbn [negb].
        unfold bind at 1, bind at 1. rewrite (makedirs_run _ _ Hex), Hblocked.
        unfold emit. cbv beta iota. reflexivity. }
    reflexivity.
Qed.

(** *** Where the files go *)

Lemma housed_refl fs : housed fs fs [].
Proof.
  split; [apply extends_refl|]. intros k [c Hc] Hno. by rewrite Hno in Hc.
Qed.

Lemma housed_trans fs fs1 fs2 evs1 evs2 :
  housed fs fs1 evs1 -> housed fs1 fs2 evs2 -> housed fs fs2 (evs1 ++ evs2).
Proof.
  intros [He1 Hh1] [He2 Hh2]. split; [by eapply extends_trans|].
  intros k Hk Hno. destruct (files fs1 !! k) as [c1|] eqn:Hk1.
  - eapply extends_dir; [done|]. apply Hh1; [by rewrite Hk1|done].
  - by apply Hh2.
Qed.

Lemma housed_same fs evs : housed fs fs evs.
Proof. destruct (housed_refl fs) as [He Hh]. by split. Qed.

Lemma sync_blob_housed local_path c b fs :
  respects_at housed (sync_blob local_path c b) fs.
Proof.
  unfold respects_at.
  destruct (mirror_safe_sync_blob local_path c b fs) as [Hext _].
  revert Hext. rewrite sync_blob_run. cbv zeta.
  destruct (path_exists fs _); [intros _; apply housed_same|].
  destruct (download b) as [stream|e].
  - destruct (lookup_path fs _) as [k0|k0| | |] eqn:Hfound; cbn [fst snd];
      try (intros _; apply housed_same).
    apply lookup_free in Hfound as (_ & _ & Hdir).
    intros Hext. split; [exact Hext|].
    intros k Hk Hno. cbn [files] in Hk.
    destruct (decide (k0 = k)) as [<-|Hne].
    + unfold is_dir in *. by cbn [dirs].
    + rewrite lookup_insert_ne in Hk by done. rewrite Hno in Hk. by destruct Hk.
  - intros _. destruct (is_ResourceNotFoundError e); apply housed_same.
Qed.

Lemma run_sample_housed env azs_storage fs :
  respects_at housed (run_sample env azs_storage) fs.
Proof.
  unfold run_sample.
  apply (respects_try_except _ housed_trans); [|intros; apply housed_same].
  unfold run_sample_body. fold (mirror_root env).
  apply (respects_bind _ housed_trans).
  { destruct (connect env azs_storage); apply housed_same. }
  intros acc s1 _ _.
  apply (respects_bind _ housed_trans); [apply housed_same|intros fs0 s2 _ _].
  apply (respects_bind _ housed_trans).
  - destruct (negb _); [|apply housed_same].
    apply (respects_bind _ housed_trans); [|intros; apply housed_same].
    unfold respects_at, makedirs, bind, get, raise, put. cbv beta iota.
    destruct (path_exists s2 _); [apply housed_same|].
    destruct (existsb _ _); [apply housed_same|]. cbn [fst snd].
    split; [split; [done|cbn [dirs]; set_solver]|].
    intros k [content Hk] Hno. cbn [files] in Hk. by rewrite Hno in Hk.
  - intros _ s3 _ _. unfold for_each.
    apply (respects_for_items _ housed_refl housed_trans). intros c _ s.
    unfold sync_container, for_each.
    apply (respects_bind _ housed_trans); [apply housed_same|intros _ s4 _ _].
    apply (respects_bind _ housed_trans); [apply housed_same|intros _ s5 _ _].
    apply (respects_for_items _ housed_refl housed_trans). intros b _ s6.
    apply sync_blob_housed.
Qed.

(** X16.  [run_sample] makes no directory for the folder part of a blob
    name: every file a run creates lies in a directory that was there
    before the run, or in the mirror root or a directory above it. *)
Theorem run_sample_files_in_directories (env : environment) (azs_storage : string)
    (fs : FS) (k : list string) :
  files fs !! k = None ->
  is_Some (files (run_sample env azs_storage fs).1.2 !! k) ->
  removelast k = []
  \/ removelast k ∈ dirs fs
  \/ removelast k ∈ prefixes (posixpath.resolve (mirror_root env)).
Proof.
  intros Hno Hk.
  destruct (run_sample_housed env azs_storage fs) as [_ Hhoused].
  specialize (Hhoused k Hk Hno). unfold is_dir in Hhoused.
  apply bool_decide_eq_true in Hhoused as [|Hdir]; [by left|right].
  destruct (run_sample_keeps_footprint env azs_storage fs) as (Hdirs & _).
  by apply Hdirs.
Qed.

Lemma join_absolute_name local_path rest :
  posixpath.join local_path (String posixpath.slash rest) = String posixpath.slash rest.
Proof. reflexivity. Qed.

(** X17.  A blob whose name starts with a slash is not kept under the
    mirror root: [os.path.join] drops the root, so the blob is gone
    through in the same way whatever the mirror root is.  When the walk
    of its name finds nothing yet, in a directory that is there, and the
    download yields content, the content is written at the entry the
    name spells from the root of the file system. *)
Theorem sync_blob_absolute_name (local_path : string) (c : container) (b : blob)
    (fs : FS) (rest : string) (stream : list Byte.byte) (k : list string) :
  blob_name b = String posixpath.slash rest ->
  download b = Ok stream ->
  lookup_path fs (blob_name b) = Free k ->
  (sync_blob local_path c b fs).1.1 = Ok tt /\
  k = posixpath.resolve (blob_name b) /\
  files (sync_blob local_path c b fs).1.2 !! k = Some stream /\
  In (Download (container_name c) (blob_name b)) (sync_blob local_path c b fs).2 /\
  forall local_path', sync_blob local_path' c b fs = sync_blob local_path c b fs.
Proof.
  intros Hname Hdl Hfound.
  assert (Hjoin : forall lp, posixpath.join lp (blob_name b) = blob_name b).
  { intros lp. rewrite Hname. apply join_absolute_name. }
  assert (Hex : path_exists fs (blob_name b) = false)
    by (unfold path_exists; by rewrite Hfound).
  assert (Hrun : forall lp, sync_blob lp c b fs =
    (Ok tt, {| files := <[k := stream]> (files fs); dirs := dirs fs |},
     blob_header lp b ++ [Print "[ DEBUG ] File NOT Exist! Update New Image...";
                          Download (container_name c) (blob_name b)])).
  { intros lp. rewrite sync_blob_run. cbv zeta. by rewrite Hjoin, Hex, Hdl, Hfound. }
  rewrite Hrun. cbn [fst snd files]. split; [done|].
  split; [by apply lookup_free in Hfound as (-> & _)|].
  split; [by rewrite lookup_insert_eq|].
  split; [apply in_or_app; right; right; by left|].
  intros lp'. rewrite Hrun. unfold blob_header. by rewrite !Hjoin.
Qed.

(** *** The properties on the toy store *)

Lemma run_sample_twice_witness :
  completed (run_sample toy_env "conn" toy_fs).2 = true /\
  (run_sample toy_env "conn" (run_sample toy_env "conn" toy_fs).1.2).1.2
  = (run_sample toy_env "conn" toy_fs).1.2.
Proof.
  assert (Hdone : completed (run_sample toy_env "conn" toy_fs).2 = true)
    by (vm_compute; reflexivity).
  split; [exact Hdone|].
  exact (proj1 (proj2 (run_sample_twice toy_env "conn" toy_fs Hdone))).
Defined.

Lemma run_sample_files_in_directories_witness :
  files toy_fs !! ["home"; "u"; "Face_Gallery"; "a.jpg"] = None /\
  (["home"; "u"] : list string) ∈ prefixes (posixpath.resolve (mirror_root toy_env)) /\
  (removelast ["home"; "u"; "Face_Gallery"; "a.jpg"] = []
   \/ removelast ["home"; "u"; "Face_Gallery"; "a.jpg"] ∈ dirs toy_fs
   \/ removelast ["home"; "u"; "Face_Gallery"; "a.jpg"]
      ∈ prefixes (posixpath.resolve (mirror_root toy_env))).
Proof.
  assert (Hno : files toy_fs !! ["home"; "u"; "Face_Gallery"; "a.jpg"] = None)
    by (vm_compute; reflexivity).
  split; [exact Hno|]. split; [vm_compute; set_solver|].
  apply (run_sample_files_in_directories toy_env "conn" toy_fs _ Hno).
  vm_compute. eexists. reflexivity.
Defined.

Lemma sync_blob_absolute_name_witness :
  lookup_path toy_fs (blob_name stray_blob) = Free ["home"; "x.jpg"] /\
  files (sync_blob "/home/u/Face_Gallery" stray_container stray_blob toy_fs).1.2
    !! ["home"; "x.jpg"]
  = Some [Byte.x05].
Proof.
  assert (Hfound : lookup_path toy_fs (blob_name stray_blob) = Free ["home"; "x.jpg"])
    by (vm_compute; reflexivity).
  split; [exact Hfound|].
  exact (proj1 (proj2 (proj2 (sync_blob_absolute_name "/home/u/Face_Gallery"
                                stray_container stray_blob toy_fs
                                "home/x.jpg" [Byte.x05] _ eq_refl eq_refl Hfound)))).
Defined.

End GallerySyncMoreFacts.
